(** * The workshop checkout views (payments/views.py)

    A shallow embedding of the request handlers of [payments/views.py]:
    the workshop catalog, the rate selector, the attendee form set, the
    order confirmation, the order submission and the settlement callback.

    Handlers are functions in a state-and-exception monad over a [World]
    that holds what the Python code reads and mutates: the database
    tables, the visitor's session, the message storage, the log and the
    requests sent to the payment gateway. *)

From Stdlib Require Import ZArith NArith Lia Ascii.
From stdpp Require Import base option list gmap strings pretty.

Local Open Scope Z_scope.

(** ** Strings *)

Module Str.

Fixpoint repeat_zero (n : nat) : string :=
  match n with O => EmptyString | S n => String "0"%char (repeat_zero n) end.

(** [s[:n]] and [s[n:]] for [0 <= n]. *)
Fixpoint take (n : nat) (s : string) : string :=
  match n, s with
  | S n, String c s => String c (take n s)
  | _, _ => EmptyString
  end.

Fixpoint drop (n : nat) (s : string) : string :=
  match n, s with
  | S n, String _ s => drop n s
  | _, _ => s
  end.

Definition space : ascii := " "%char.

(** [s.split(' ')]: cut at every single space; empty pieces are kept,
    and the result is never the empty list. *)
Fixpoint split_space (s : string) : list string :=
  match s with
  | EmptyString => [EmptyString]
  | String c s' =>
      if decide (c = space) then EmptyString :: split_space s'
      else match split_space s' with
           | piece :: pieces => String c piece :: pieces
           | [] => [String c EmptyString]
           end
  end.

Fixpoint has_space (s : string) : bool :=
  match s with
  | EmptyString => false
  | String c s' => if decide (c = space) then true else has_space s'
  end.

End Str.

(** ** decimal.Decimal

    A finite [Decimal] is a sign, a coefficient and an exponent; it
    denotes [(-1)^sign * coef * 10^exp].  Arithmetic follows the default
    context of the [decimal] module: 28 significant digits, rounding
    half-even.  The exact result of an operation is computed first and
    [fix_] rounds it when it has more digits than the precision.
    Exponents are assumed to stay far inside the context's exponent range
    (about one million either way), so overflow and subnormal handling
    are left out; special values (NaN, Infinity) are outside the model. *)

Module Decimal.

Record t := mk { sign : bool; coef : N; exp : Z }.

Definition prec : Z := 28.

Definition zero : t := mk false 0 0.

(** Number of decimal digits of the coefficient, [len(self._int)]. *)
Fixpoint ndigits_fuel (fuel : nat) (c : N) : Z :=
  match fuel with
  | O => 1
  | S fuel => if (c <? 10)%N then 1 else 1 + ndigits_fuel fuel (c / 10)%N
  end.

Definition ndigits (c : N) : Z := ndigits_fuel (N.size_nat c) c.

(** [Decimal._fix]: round to [prec] digits, half to even. *)
Definition fix_ (d : t) : t :=
  let n := ndigits (coef d) in
  if n <=? prec then d
  else
    let k := n - prec in
    let p := (10 ^ Z.to_N k)%N in
    let q := (coef d / p)%N in
    let r := (coef d mod p)%N in
    let q' := if ((p <? 2 * r) || ((2 * r =? p) && N.odd q))%N
              then (q + 1)%N else q in
    if ndigits q' <=? prec then mk (sign d) q' (exp d + k)
    else mk (sign d) (q' / 10)%N (exp d + k + 1).

(** [Decimal._rescale] towards a smaller exponent: pad with zeros. *)
Definition rescale (d : t) (e : Z) : t :=
  mk (sign d) (coef d * 10 ^ Z.to_N (exp d - e))%N e.

Definition mul (a b : t) : t :=
  fix_ (mk (xorb (sign a) (sign b)) (coef a * coef b)%N (exp a + exp b)).

Definition add (a b : t) : t :=
  let e := Z.min (exp a) (exp b) in
  if ((coef a =? 0) && (coef b =? 0))%N then
    fix_ (mk (sign a && sign b) 0 e)
  else if (coef a =? 0)%N then
    fix_ (rescale b (Z.max e (exp b - prec - 1)))
  else if (coef b =? 0)%N then
    fix_ (rescale a (Z.max e (exp a - prec - 1)))
  else
    let ca := coef (rescale a e) in
    let cb := coef (rescale b e) in
    if Bool.eqb (sign a) (sign b) then fix_ (mk (sign a) (ca + cb)%N e)
    else if (ca =? cb)%N then fix_ (mk false 0 e)
    else if (cb <? ca)%N then fix_ (mk (sign a) (ca - cb)%N e)
    else fix_ (mk (sign b) (cb - ca)%N e).

(** The number a [Decimal] denotes, scaled by [10^scale]: an integer
    as soon as [-scale <= exp]. *)
Definition signed (d : t) : Z :=
  if sign d then - Z.of_N (coef d) else Z.of_N (coef d).

Definition scaled (scale : Z) (d : t) : Z := signed d * 10 ^ (exp d + scale).

(** Its absolute value. *)
Definition magnitude (scale : Z) (d : t) : Z :=
  Z.of_N (coef d) * 10 ^ (exp d + scale).

(** *** [Decimal(str)] *)

Definition digit_of (c : ascii) : option N :=
  let n := N_of_ascii c in
  if ((48 <=? n) && (n <=? 57))%N then Some (n - 48)%N else None.

(** Reads a maximal run of digits: its value, its length, the rest. *)
Fixpoint read_digits (acc : N) (len : nat) (s : string) : N * nat * string :=
  match s with
  | String c s' =>
      match digit_of c with
      | Some d => read_digits (10 * acc + d)%N (S len) s'
      | None => (acc, len, s)
      end
  | EmptyString => (acc, len, s)
  end.

Definition read_sign (s : string) : bool * string :=
  match s with
  | String "-"%char s' => (true, s')
  | String "+"%char s' => (false, s')
  | _ => (false, s)
  end.

(** The numeric-string grammar of the constructor: an optional sign,
    digits with an optional fraction (at least one digit in all) and
    an optional exponent.  [None] is [InvalidOperation].  Surrounding
    white space, underscores, non-ASCII digits and the special values
    are not read by this model. *)
Definition of_string (s : string) : option t :=
  let '(sg, s1) := read_sign s in
  let '(ip, ilen, s2) := read_digits 0 0 s1 in
  let '(c, flen, s3) :=
    match s2 with
    | String "."%char s2' => read_digits ip 0 s2'
    | _ => (ip, O, s2)
    end in
  if decide (ilen + flen = 0)%nat then None
  else
    match s3 with
    | EmptyString => Some (mk sg c (- Z.of_nat flen))
    | String e s4 =>
        if decide (e = "E"%char ∨ e = "e"%char) then
          let '(esg, s5) := read_sign s4 in
          match read_digits 0 0 s5 with
          | (ev, S _, EmptyString) =>
              Some (mk sg c ((if esg then - Z.of_N ev else Z.of_N ev)
                             - Z.of_nat flen))
          | _ => None
          end
        else None
    end.

(** *** [str(Decimal)], the scientific string of the specification *)

Definition to_string (d : t) : string :=
  let int_ := pretty (coef d) in
  let len := Z.of_nat (String.length int_) in
  let leftdigits := exp d + len in
  let dotplace := if (exp d <=? 0) && (-6 <? leftdigits) then leftdigits else 1 in
  let body :=
    if dotplace <=? 0 then
      "0." +:+ Str.repeat_zero (Z.to_nat (- dotplace)) +:+ int_
    else if len <=? dotplace then
      int_ +:+ Str.repeat_zero (Z.to_nat (dotplace - len))
    else
      Str.take (Z.to_nat dotplace) int_ +:+ "." +:+ Str.drop (Z.to_nat dotplace) int_ in
  let e := leftdigits - dotplace in
  let exp_ :=
    if e =? 0 then EmptyString
    else "E" +:+ (if 0 <=? e then "+" else EmptyString) +:+ pretty e in
  (if sign d then "-" else EmptyString) +:+ body +:+ exp_.

End Decimal.

(** ** urllib.parse.quote_plus

    Strings are byte strings (UTF-8).  Letters, digits and [_.-~] are
    kept, a space becomes [+], every other byte becomes [%XX] with
    upper-case hexadecimal digits.  (Interpreters older than 3.7 also
    escape [~]; nothing below depends on that character.) *)

Module Urllib.

Definition always_safe (c : ascii) : bool :=
  let n := N_of_ascii c in
  (((65 <=? n) && (n <=? 90)) || ((97 <=? n) && (n <=? 122))
   || ((48 <=? n) && (n <=? 57))
   || (n =? 95) || (n =? 46) || (n =? 45) || (n =? 126))%N.

Definition hex_digit (n : N) : ascii :=
  ascii_of_N (if (n <? 10)%N then 48 + n else 55 + n)%N.

Fixpoint quote_plus (s : string) : string :=
  match s with
  | EmptyString => EmptyString
  | String c s' =>
      if always_safe c then String c (quote_plus s')
      else if decide (c = Str.space) then String "+"%char (quote_plus s')
      else
        let n := N_of_ascii c in
        String "%"%char
          (String (hex_digit (n / 16)%N)
             (String (hex_digit (n mod 16)%N) (quote_plus s')))
  end.

End Urllib.

Abbreviation qp := Urllib.quote_plus.

(** ** The models (payments/models.py)

    The model classes are not part of the sources at hand; the records
    below carry the fields that the views read or write and that the
    specification's data model lists. *)

Module Workshop.
Record t := mk {
  id : Z;
  slug : string;
  title : string;
  description : string;
  draft : bool;
  public : bool;
  private_code : string
}.
End Workshop.

Module Rate.
Record t := mk {
  id : Z;
  workshop : Z;
  name : string;
  price : Decimal.t;
  capacity : Z;
  discount : bool;
  discount_code : string
}.

(** Model instances compare by primary key ([Model.__eq__]). *)
Definition eqb (a b : t) : bool := id a =? id b.
End Rate.

Module Order.
Record t := mk {
  id : Z;
  contact_email : string;
  contact_name : string;
  order_total : string;
  transaction_id : string;
  billed_total : option string;
  billed_datetime : option string
}.
End Order.

Module OrderItem.
Record t := mk {
  order : Z;
  rate_id : Z;
  email : string;
  name : string
}.
End OrderItem.

(** The tables, rows in insertion order. *)
Record Db := mkDb {
  workshop_table : list Workshop.t;
  rate_table : list Rate.t;
  order_table : list Order.t;
  orderitem_table : list OrderItem.t
}.

(** ** Session contents

    The session maps keys to values.  The views store a string or [None]
    under ['private_code'] and ['discount_code'] and a dictionary under
    ['order'].  That dictionary starts as a copy of the submitted form
    data (strings) and receives the workshop slug, the order total, the
    id/name pairs of the offered rates and, later, the ticket drafts. *)

Module Ticket.
Record t := mk { rate : Z; email : string; name : string }.
End Ticket.

Inductive OVal :=
| OStr (s : string)
| ORates (l : list (Z * string))
| OTickets (l : list Ticket.t).

Inductive SVal :=
| SNone
| SStr (s : string)
| SOrder (o : gmap string OVal).

(** ** Requests, responses and the world *)

Record Request := mkRequest {
  GET : gmap string string;
  POST : gmap string string;
  body : string;
  is_authenticated : bool
}.

(** [reverse] of the named routes the views use. *)
Inductive Url :=
| payments_index
| payments_details (slug : string)
| payments_order_details (slug : string)
| payments_confirm (slug : string).

Record RateRow := mkRateRow {
  row_name : string;
  row_price : Decimal.t;
  row_sold_out : bool
}.

Inductive Context :=
| WorkshopListContext (upcoming_workshops : list Workshop.t)
| WorkshopDetailContext (workshop : Workshop.t) (rates : list RateRow)
    (purchasable : bool)
| OrderDetailContext (zipped : list Rate.t) (workshop : Workshop.t)
| ConfirmOrderContext (tickets : list (string * string * Rate.t))
    (order_name order_email order_total : OVal) (workshop : Workshop.t).

Inductive Response :=
| HttpResponseRedirect (url : Url)
| HttpResponse (content : string) (status : Z)
| TemplateResponse (context : Context).

Inductive Level := WARNING.

(** The exceptions the views can meet. *)
Inductive Exn :=
| KeyError (key : string)
| TypeError
| ValueError
| InvalidOperation
| DoesNotExist (model : string)
| MultipleObjectsReturned (model : string)
| Http404
| RequestException.

(** A record of [logger.error('%s: %s' % (e, request.body))]: the two
    arguments of the format string. *)
Record LogRecord := mkLog { log_error : Exn; log_body : string }.

(** A call of [requests.post(url, data=..., verify=...)]. *)
Record Sent := mkSent {
  sent_url : string;
  sent_data : gmap string string;
  sent_verify : string
}.

Record World := mkWorld {
  db : Db;
  session : gmap string SVal;
  messages : list (Level * string);
  logger : list LogRecord;
  outbox : list Sent
}.

(** ** The handler monad *)

Inductive Result (A : Type) :=
| Return (a : A)
| Raise (e : Exn).
Arguments Return {A} a.
Arguments Raise {A} e.

Definition M (A : Type) : Type := World → Result A * World.

Global Instance M_ret : MRet M := λ A a w, (Return a, w).

Global Instance M_bind : MBind M := λ A B f m w,
  match m w with
  | (Return a, w') => f a w'
  | (Raise e, w') => (Raise e, w')
  end.

Definition raise {A} (e : Exn) : M A := λ w, (Raise e, w).
Definition lift {A} (r : Result A) : M A := λ w, (r, w).
Definition get_db : M Db := λ w, (Return (db w), w).
Definition get_session : M (gmap string SVal) := λ w, (Return (session w), w).

Definition set_db (d : Db) : M unit := λ w,
  (Return (), mkWorld d (session w) (messages w) (logger w) (outbox w)).
Definition set_session (s : gmap string SVal) : M unit := λ w,
  (Return (), mkWorld (db w) s (messages w) (logger w) (outbox w)).
Definition add_message (l : Level) (text : string) : M unit := λ w,
  (Return (), mkWorld (db w) (session w) (messages w ++ [(l, text)])
                (logger w) (outbox w)).
Definition logger_error (r : LogRecord) : M unit := λ w,
  (Return (), mkWorld (db w) (session w) (messages w) (logger w ++ [r])
                (outbox w)).
Definition record_sent (s : Sent) : M unit := λ w,
  (Return (), mkWorld (db w) (session w) (messages w) (logger w)
                (outbox w ++ [s])).

(** [try: body except (...) as e: handler e], for the exceptions [catches]
    selects. *)
Definition try_except {A} (body : M A) (catches : Exn → bool)
    (handler : Exn → M A) : M A := λ w,
  match body w with
  | (Raise e, w') => if catches e then handler e w' else (Raise e, w')
  | r => r
  end.

(** [d[key]] on a dictionary. *)
Definition getitem {V} (d : gmap string V) (key : string) : M V :=
  match d !! key with
  | Some v => mret v
  | None => raise (KeyError key)
  end.

(** [Model.objects.get(...)]: the single row satisfying the lookup. *)
Definition objects_get {A} (model : string) (lookup : A → bool)
    (table : list A) : M A :=
  match List.filter lookup table with
  | [] => raise (DoesNotExist model)
  | [row] => mret row
  | _ => raise (MultipleObjectsReturned model)
  end.

(** Values read out of the order dictionary.  The views store lists only
    under ['rates'] and ['tickets'] and strings everywhere else; where a
    value of another shape would make the Python code fail further on,
    the model raises [TypeError] at the access. *)
Definition as_str (v : OVal) : M string :=
  match v with OStr s => mret s | _ => raise TypeError end.
Definition as_rates (v : OVal) : M (list (Z * string)) :=
  match v with ORates l => mret l | _ => raise TypeError end.
Definition as_tickets (v : OVal) : M (list Ticket.t) :=
  match v with OTickets l => mret l | _ => raise TypeError end.
Definition as_order (v : SVal) : M (gmap string OVal) :=
  match v with SOrder o => mret o | _ => raise TypeError end.

(** ** The environment of the views

    What the views take from outside [views.py]: the settings module,
    [Rate.ticket_count] and [Workshop.filter_rates] (defined with the
    models), [markdownify], and the payment gateway behind
    [requests.post], which answers with a body and a status code or
    fails. *)

Record Settings := mkSettings {
  LMID : string;
  PAYMENT_TITLE : string;
  PAYMENT_DESCRIPTION : string;
  PAYMENT_CONTACT_INFO : string;
  PSF_SPEEDTYPE : string;
  PSF_ACCT_NUMBER : string;
  PAYMENT_URL : string;
  PAYMENT_CERT_BUNDLE : string
}.

Record Env := mkEnv {
  settings : Settings;
  ticket_count : Db → Rate.t → Z;
  filter_rates : Db → Workshop.t → SVal → list Rate.t;
  markdownify : string → string;
  requests_post : string → gmap string string → string → Result (string * Z)
}.

Definition Rate_objects_get (pk : Z) : M Rate.t :=
  d ← get_db;
  objects_get "Rate" (λ r, Rate.id r =? pk) (rate_table d).

(** ** SubmitOrder *)

Module SubmitOrder.

(** The [rates] dictionary of [post]: keyed by model instances, which
    hash and compare by primary key; entries in insertion order (the
    order of iteration is not fixed before Python 3.7; the properties
    below hold for whichever over-full rate the loop meets first). *)
Definition contains (rate : Rate.t) (rates : list (Rate.t * Z)) : bool :=
  existsb (λ kv, Rate.eqb kv.1 rate) rates.

Fixpoint add_one (rate : Rate.t) (rates : list (Rate.t * Z))
    : list (Rate.t * Z) :=
  match rates with
  | [] => []
  | (r, q) :: rest =>
      if Rate.eqb r rate then (r, q + 1) :: rest
      else (r, q) :: add_one rate rest
  end.

Definition count_ticket (rates : list (Rate.t * Z)) (rate : Rate.t)
    : list (Rate.t * Z) :=
  if negb (contains rate rates) then rates ++ [(rate, 1)]
  else add_one rate rates.

Fixpoint tally (tickets : list Ticket.t) (rates : list (Rate.t * Z))
    : M (list (Rate.t * Z)) :=
  match tickets with
  | [] => mret rates
  | ticket :: tickets =>
      rate ← Rate_objects_get (Ticket.rate ticket);
      tally tickets (count_ticket rates rate)
  end.

Definition warning_text (name : string) (remaining : Z) : string :=
  "There are too many " +:+ name +:+ " tickets in this order. "
  +:+ "Ticket(s) remaining at this rate: " +:+ pretty remaining +:+ ".".

(** The capacity loop; [Some response] is its early [return]. *)
Fixpoint check_capacity (env : Env) (order_data : gmap string OVal)
    (items : list (Rate.t * Z)) : M (option Response) :=
  match items with
  | [] => mret None
  | (rate, quantity) :: items =>
      d ← get_db;
      if Rate.capacity rate <? ticket_count env d rate + quantity then
        let remaining := Rate.capacity rate - ticket_count env d rate in
        add_message WARNING (warning_text (Rate.name rate) remaining) ;;
        slug ← getitem order_data "workshop" ≫= as_str;
        mret (Some (HttpResponseRedirect (payments_details slug)))
      else check_capacity env order_data items
  end.

Definition next_id (table : list Order.t) : Z :=
  1 + foldr Z.max 0 (Order.id <$> table).

(** [Order.objects.create(...)]; the other fields take their defaults:
    a new primary key, the transaction id drawn for this order, and no
    billing data. *)
Definition Order_objects_create (uuid contact_email contact_name
    order_total : string) : M Order.t :=
  d ← get_db;
  let order := Order.mk (next_id (order_table d)) contact_email
                 contact_name order_total uuid None None in
  set_db (mkDb (workshop_table d) (rate_table d)
            (order_table d ++ [order]) (orderitem_table d)) ;;
  mret order.

Definition OrderItem_objects_bulk_create (items : list OrderItem.t)
    : M unit :=
  d ← get_db;
  set_db (mkDb (workshop_table d) (rate_table d) (order_table d)
            (orderitem_table d ++ items)).

(** [del request.session[key]] *)
Definition del_session (key : string) : M unit :=
  s ← get_session;
  match s !! key with
  | Some _ => set_session (delete key s)
  | None => raise (KeyError key)
  end.

(** ['metadata_item_%s,%s' % (column, row)] *)
Definition metadata_item (column row : nat) : string :=
  "metadata_item_" +:+ pretty column +:+ "," +:+ pretty row.

Definition description_line (rate : Rate.t) (ticket : Ticket.t) : string :=
  Rate.name rate +:+ ": " +:+ qp (Ticket.name ticket)
  +:+ " (" +:+ Ticket.email ticket +:+ ")".

Fixpoint add_metadata (env : Env) (i : nat) (tickets : list Ticket.t)
    (payload : gmap string string) : M (gmap string string) :=
  match tickets with
  | [] => mret payload
  | ticket :: tickets =>
      rate ← Rate_objects_get (Ticket.rate ticket);
      let payload := <[metadata_item 0 i := description_line rate ticket]> payload in
      let payload := <[metadata_item 1 i := "1"]> payload in
      let payload := <[metadata_item 2 i := Decimal.to_string (Rate.price rate)]> payload in
      let payload := <[metadata_item 3 i := Decimal.to_string (Rate.price rate)]> payload in
      let payload := <[metadata_item 4 i := PSF_SPEEDTYPE (settings env)]> payload in
      let payload := <[metadata_item 5 i := PSF_ACCT_NUMBER (settings env)]> payload in
      add_metadata env (S i) tickets payload
  end.

Definition base_payload (env : Env) (order : Order.t) : gmap string string :=
  let name := Str.split_space (Order.contact_name order) in
  <["arrayname" := "metadata"]>
  (<["note" := EmptyString]>
  (<["BILL_CUSTOMER_LASTNAME" :=
       if decide (1 < length name)%nat then qp (default EmptyString (last name))
       else EmptyString]>
  (<["BILL_CUSTOMER_FIRSTNAME" := qp (default EmptyString (head name))]>
  (<["BILL_CUSTOMER_EMAIL" := Order.contact_email order]>
  (<["contact_info" := PAYMENT_CONTACT_INFO (settings env)]>
  (<["Trans_Desc" := PAYMENT_DESCRIPTION (settings env)]>
  (<["webTitle" := PAYMENT_TITLE (settings env)]>
  (<["sTotal" := Order.order_total order]>
  (<["unique_id" := Order.transaction_id order]>
  (<["LMID" := LMID (settings env)]> ∅)))))))))).

(** [post]; [uuid] is the transaction id drawn for the new order. *)
Definition post (env : Env) (uuid : string) (request : Request)
    : M Response :=
  s ← get_session;
  order_data ← getitem s "order" ≫= as_order;
  tickets ← getitem order_data "tickets" ≫= as_tickets;
  rates ← tally tickets [];
  aborted ← check_capacity env order_data rates;
  match aborted with
  | Some response => mret response
  | None =>
      email ← getitem order_data "email" ≫= as_str;
      name ← getitem order_data "name" ≫= as_str;
      order_total ← getitem order_data "order_total" ≫= as_str;
      order ← Order_objects_create uuid email name order_total;
      let items :=
        (λ ticket, OrderItem.mk (Order.id order) (Ticket.rate ticket)
                     (Ticket.email ticket) (Ticket.name ticket)) <$> tickets in
      OrderItem_objects_bulk_create items ;;
      del_session "order" ;;
      payload ← add_metadata env 0 tickets (base_payload env order);
      record_sent (mkSent (PAYMENT_URL (settings env)) payload
                     (PAYMENT_CERT_BUNDLE (settings env))) ;;
      r ← lift (requests_post env (PAYMENT_URL (settings env)) payload
                  (PAYMENT_CERT_BUNDLE (settings env)));
      mret (HttpResponse r.1 r.2)
  end.

End SubmitOrder.

(** ** SessionConfirmMixin *)

Module SessionConfirmMixin.

(** [get]: [super_get] is the [get] of the next class. *)
Definition get (super_get : M Response) (slug : string) : M Response :=
  s ← get_session;
  match s !! "order" with
  | None => mret (HttpResponseRedirect (payments_details slug))
  | Some _ => super_get
  end.

End SessionConfirmMixin.

(** [request.session.get(key)] *)
Definition session_get (key : string) : M SVal :=
  s ← get_session; mret (default SNone (s !! key)).

Definition Workshop_objects_get (slug : string) : M Workshop.t :=
  d ← get_db;
  objects_get "Workshop" (λ x, bool_decide (Workshop.slug x = slug))
    (workshop_table d).

(** ** WorkshopList *)

Module WorkshopList.

(** Truth value of [self.private_code]: [None] and the empty string are
    false. *)
Definition truthy (code : option string) : bool :=
  match code with
  | Some c => negb (bool_decide (c = EmptyString))
  | None => false
  end.

Definition get_queryset (private_code : option string)
    : M (list Workshop.t) :=
  d ← get_db;
  let queryset :=
    if truthy private_code then
      Some (List.filter
              (λ x, bool_decide (Some (Workshop.private_code x) = private_code))
              (workshop_table d))
    else None in
  match queryset with
  | None => mret (List.filter (λ x, negb (Workshop.draft x)) (workshop_table d))
  | Some q =>
      if (length q =? 0)%nat
      then mret (List.filter (λ x, negb (Workshop.draft x)) (workshop_table d))
      else mret q
  end.

Definition get (request : Request) : M Response :=
  let private_code := GET request !! "code" in
  (match private_code with
   | Some c =>
       if truthy private_code then
         s ← get_session; set_session (<["private_code" := SStr c]> s)
       else mret ()
   | None => mret ()
   end) ;;
  queryset ← get_queryset private_code;
  mret (TemplateResponse (WorkshopListContext queryset)).

End WorkshopList.

(** ** WorkshopDetail *)

Record Form := mkForm {
  data : gmap string string;
  rate_set : list Rate.t
}.

(** A quantity as the specification accepts it: a plain numeral. *)
Fixpoint all_digits (s : string) : bool :=
  match s with
  | EmptyString => true
  | String c s' => bool_decide (is_Some (Decimal.digit_of c)) && all_digits s'
  end.

Fixpoint digits_value (acc : N) (s : string) : N :=
  match s with
  | EmptyString => acc
  | String c s' =>
      digits_value (10 * acc + default 0%N (Decimal.digit_of c))%N s'
  end.

Definition numeral (s : string) : option N :=
  match s with
  | EmptyString => None
  | _ => if all_digits s then Some (digits_value 0 s) else None
  end.

Module WorkshopDetail.

(** Modelled from the spec: [Rate.sold_out], defined with the models;
    the specification derives it as ticket_count >= capacity. *)
Definition sold_out (env : Env) (d : Db) (rate : Rate.t) : bool :=
  Rate.capacity rate <=? ticket_count env d rate.

(** [get_object]: the workshop of the slug, or 404. *)
Definition get_object (slug : string) : M Workshop.t :=
  d ← get_db;
  match List.filter (λ x, bool_decide (Workshop.slug x = slug))
          (workshop_table d) with
  | [] => raise Http404
  | [object] => mret object
  | _ => raise (MultipleObjectsReturned "Workshop")
  end.

(** [get_context_data]; the bound form field of each rate row is left
    to the template layer. *)
Definition get_context_data (env : Env) (object : Workshop.t) : M Context :=
  code ← session_get "private_code";
  discount_code ← session_get "discount_code";
  d ← get_db;
  let rates :=
    (λ rate, mkRateRow (Rate.name rate) (Rate.price rate)
               (sold_out env d rate))
      <$> filter_rates env d object discount_code in
  let workshop :=
    Workshop.mk (Workshop.id object) (Workshop.slug object)
      (Workshop.title object)
      (markdownify env (Workshop.description object))
      (Workshop.draft object) (Workshop.public object)
      (Workshop.private_code object) in
  let purchasable :=
    Workshop.public object
    || (negb (Workshop.public object)
        && match code with
           | SStr c => bool_decide (c = Workshop.private_code object)
           | _ => false
           end) in
  mret (WorkshopDetailContext workshop rates purchasable).

(** [request.GET.get('rate')] as a session value. *)
Definition rate_parameter (request : Request) : SVal :=
  match GET request !! "rate" with
  | Some code => SStr code
  | None => SNone
  end.

Definition get (env : Env) (request : Request) (slug : string)
    : M Response :=
  s ← get_session;
  set_session (<["discount_code" := rate_parameter request]> s) ;;
  object ← get_object slug;
  context ← get_context_data env object;
  let response := TemplateResponse context in
  if negb (is_authenticated request) && Workshop.draft object then
    mret (HttpResponseRedirect payments_index)
  else mret response.

(** [get_form]: the order form over the rates offered for the discount
    code of the session, bound to the posted data. *)
Definition get_form (env : Env) (request : Request) (object : Workshop.t)
    : M Form :=
  discount_code ← session_get "discount_code";
  d ← get_db;
  mret (mkForm (POST request) (filter_rates env d object discount_code)).

(** Modelled from the spec: [form.is_valid()], defined with the forms;
    the specification rejects a requested quantity that is non-numeric,
    negative, or exceeds the remaining capacity of its rate. *)
Definition is_valid (env : Env) (d : Db) (form : Form) : bool :=
  forallb
    (λ rate,
       match data form !! Rate.name rate with
       | Some s =>
           match numeral s with
           | Some n =>
               Z.of_N n <=? Rate.capacity rate - ticket_count env d rate
           | None => false
           end
       | None => false
       end)
    (rate_set form).

(** [Decimal(form.data[rate.name])] *)
Definition Decimal_of (s : string) : M Decimal.t :=
  match Decimal.of_string s with
  | Some d => mret d
  | None => raise InvalidOperation
  end.

(** The loop of [form_valid].  The integer 0 it starts from becomes
    [Decimal(0)] at the first addition and prints as "0" either way. *)
Fixpoint sum_total (form_data : gmap string string) (rate_set : list Rate.t)
    (order_total : Decimal.t) : M Decimal.t :=
  match rate_set with
  | [] => mret order_total
  | rate :: rate_set =>
      s ← getitem form_data (Rate.name rate);
      quantity ← Decimal_of s;
      sum_total form_data rate_set
        (Decimal.add order_total (Decimal.mul quantity (Rate.price rate)))
  end.

Definition form_valid (object : Workshop.t) (form : Form) : M Response :=
  let order := OStr <$> data form in
  let order := <["workshop" := OStr (Workshop.slug object)]> order in
  let order :=
    <["rates" := ORates ((λ r, (Rate.id r, Rate.name r)) <$> rate_set form)]>
      order in
  order_total ← sum_total (data form) (rate_set form) Decimal.zero;
  let order :=
    <["order_total" := OStr (Decimal.to_string order_total)]> order in
  s ← get_session;
  set_session (<["order" := SOrder order]> s) ;;
  mret (HttpResponseRedirect (payments_order_details (Workshop.slug object))).

Definition form_invalid (env : Env) (object : Workshop.t) : M Response :=
  context ← get_context_data env object;
  mret (TemplateResponse context).

Definition post (env : Env) (request : Request) (slug : string)
    : M Response :=
  object ← get_object slug;
  form ← get_form env request object;
  d ← get_db;
  if is_valid env d form then form_valid object form
  else form_invalid env object.

End WorkshopDetail.

(** ** OrderDetail *)

(** [int(s)] for an optionally signed numeral; [ValueError] otherwise. *)
Definition int_of (s : string) : M Z :=
  let '(negative, digits) := Decimal.read_sign s in
  match numeral digits with
  | Some n => mret (if negative then - Z.of_N n else Z.of_N n)
  | None => raise ValueError
  end.

Module OrderDetail.

(** [get_initial]: one entry per requested ticket, tagged with its
    rate. *)
Fixpoint initial_of (order : gmap string OVal) (rates : list (Z * string))
    : M (list Z) :=
  match rates with
  | [] => mret []
  | (id, name) :: rates =>
      count ← (getitem order name ≫= as_str) ≫= int_of;
      rest ← initial_of order rates;
      mret (replicate (Z.to_nat count) id ++ rest)
  end.

Definition get_initial : M (list Z) :=
  s ← get_session;
  order ← getitem s "order" ≫= as_order;
  rates ← getitem order "rates" ≫= as_rates;
  initial_of order rates.

Fixpoint zip_rates (initial : list Z) : M (list Rate.t) :=
  match initial with
  | [] => mret []
  | pk :: initial =>
      rate ← Rate_objects_get pk;
      rest ← zip_rates initial;
      mret (rate :: rest)
  end.

Definition get_context_data (slug : string) (initial : list Z) : M Context :=
  zipped ← zip_rates initial;
  workshop ← Workshop_objects_get slug;
  mret (OrderDetailContext zipped workshop).

(** The [get] of the form-set view: build the form set from the
    initial data, render it. *)
Definition super_get (slug : string) : M Response :=
  initial ← get_initial;
  context ← get_context_data slug initial;
  mret (TemplateResponse context).

Definition get (request : Request) (slug : string) : M Response :=
  SessionConfirmMixin.get (super_get slug) slug.

(** [formset_valid], on the posted rows of the form set. *)
Definition formset_valid (tickets : list Ticket.t) (slug : string)
    : M Response :=
  s ← get_session;
  order ← getitem s "order" ≫= as_order;
  let order := <["tickets" := OTickets tickets]> order in
  set_session (<["order" := SOrder order]> s) ;;
  mret (HttpResponseRedirect (payments_confirm slug)).

End OrderDetail.

(** ** ConfirmOrder *)

Module ConfirmOrder.

Fixpoint resolve_tickets (tickets : list Ticket.t)
    : M (list (string * string * Rate.t)) :=
  match tickets with
  | [] => mret []
  | ticket :: tickets =>
      rate ← Rate_objects_get (Ticket.rate ticket);
      rest ← resolve_tickets tickets;
      mret ((Ticket.name ticket, Ticket.email ticket, rate) :: rest)
  end.

Definition get_context_data (slug : string) : M Context :=
  s ← get_session;
  order ← getitem s "order" ≫= as_order;
  tickets ← (getitem order "tickets" ≫= as_tickets) ≫= resolve_tickets;
  order_name ← getitem order "name";
  order_email ← getitem order "email";
  order_total ← getitem order "order_total";
  workshop ← Workshop_objects_get slug;
  mret (ConfirmOrderContext tickets order_name order_email order_total
          workshop).

Definition super_get (slug : string) : M Response :=
  context ← get_context_data slug;
  mret (TemplateResponse context).

Definition get (request : Request) (slug : string) : M Response :=
  SessionConfirmMixin.get (super_get slug) slug.

End ConfirmOrder.

(** ** OrderCallback *)

Module OrderCallback.

(** [except (Order.DoesNotExist, KeyError)] *)
Definition catches (e : Exn) : bool :=
  match e with
  | KeyError _ => true
  | DoesNotExist model => bool_decide (model = "Order")
  | _ => false
  end.

Definition set_billed (order : Order.t) (total datetime : option string)
    : Order.t :=
  Order.mk (Order.id order) (Order.contact_email order)
    (Order.contact_name order) (Order.order_total order)
    (Order.transaction_id order) total datetime.

(** [order.save()]: the row of this primary key is rewritten. *)
Definition save (order : Order.t) : M unit :=
  d ← get_db;
  set_db (mkDb (workshop_table d) (rate_table d)
            ((λ row, if Order.id row =? Order.id order then order else row)
               <$> order_table d)
            (orderitem_table d)).

Definition matching (unique_id : string) (d : Db) : list Order.t :=
  List.filter (λ o, bool_decide (Order.transaction_id o = unique_id))
    (order_table d).

Definition post (request : Request) : M Response :=
  failed ←
    try_except
      (unique_id ← getitem (POST request) "unique_id";
       d ← get_db;
       order ← objects_get "Order"
                 (λ o, bool_decide (Order.transaction_id o = unique_id))
                 (order_table d);
       amount ← getitem (POST request) "amount";
       let order :=
         set_billed order (Some amount) (Order.billed_datetime order) in
       date_time ← getitem (POST request) "date_time";
       let order :=
         set_billed order (Order.billed_total order) (Some date_time) in
       save order ;;
       mret None)
      catches
      (λ e,
         logger_error (mkLog e (body request)) ;;
         mret (Some (HttpResponse EmptyString 400)));
  match failed with
  | Some response => mret response
  | None => mret (HttpResponse EmptyString 200)
  end.

End OrderCallback.

(** ** Vocabulary of the specification for the order submission *)

(** The quantity an order requests at the rate with primary key [pk]:
    the number of its tickets that name this rate. *)
Definition requested (pk : Z) (tickets : list Ticket.t) : Z :=
  Z.of_nat (length (List.filter (λ t, Ticket.rate t =? pk) tickets)).

(** The ticket names a rate that the database resolves to [rate]. *)
Definition resolves (w : World) (ticket : Ticket.t) (rate : Rate.t) : Prop :=
  Rate_objects_get (Ticket.rate ticket) w = (Return rate, w).

(** The order asks for more tickets at [rate] than the rate has left. *)
Definition over_capacity (env : Env) (w : World) (tickets : list Ticket.t)
    (rate : Rate.t) : Prop :=
  Rate.capacity rate
  < ticket_count env (db w) rate + requested (Rate.id rate) tickets.

(** The value stored under [pk] in the [rates] dictionary, 0 if absent. *)
Definition quantity_of (pk : Z) (rates : list (Rate.t * Z)) : Z :=
  match List.find (λ kv, Rate.id kv.1 =? pk) rates with
  | Some kv => kv.2
  | None => 0
  end.

Definition exceeds (env : Env) (d : Db) (kv : Rate.t * Z) : bool :=
  Rate.capacity kv.1 <? ticket_count env d kv.1 + kv.2.

Definition add_warning (w : World) (text : string) : World :=
  mkWorld (db w) (session w) (messages w ++ [(WARNING, text)])
    (logger w) (outbox w).

(** ** A sample installation

    The workshop of the specification's example: "intro-2024" offers the
    rate "standard" (price 100.00, capacity 2), of which one ticket is
    sold.  A second, unlisted workshop has a private access code. *)

Module Sample.

Definition sample_settings : Settings :=
  mkSettings "LM-1" "QIIME workshops" "Workshop registration"
    "workshops@example.org" "SPD-7" "ACCT-9"
    "https://gateway.example.org/pay" "/etc/ssl/gateway.pem".

(** Tickets sold at a rate: its order items. *)
Definition sold (d : Db) (rate : Rate.t) : Z :=
  Z.of_nat (length (List.filter (λ i, OrderItem.rate_id i =? Rate.id rate)
                      (orderitem_table d))).

Definition offered (d : Db) (workshop : Workshop.t) (code : SVal)
    : list Rate.t :=
  List.filter
    (λ r, (Rate.workshop r =? Workshop.id workshop)
          && (negb (Rate.discount r)
              || match code with
                 | SStr c => bool_decide (c = Rate.discount_code r)
                 | _ => false
                 end))
    (rate_table d).

Definition env : Env :=
  mkEnv sample_settings sold offered (λ text, text)
    (λ url data verify, Return ("<html>pay</html>", 200)).

Definition intro : Workshop.t :=
  Workshop.mk 1 "intro-2024" "Introduction" "An *introduction*."
    false true EmptyString.
Definition hidden : Workshop.t :=
  Workshop.mk 2 "advanced-2024" "Advanced" "By invitation."
    false false "letmein".
Definition upcoming : Workshop.t :=
  Workshop.mk 3 "draft-2025" "Next year" "To be announced."
    true true EmptyString.

Definition standard : Rate.t :=
  Rate.mk 10 1 "standard" (Decimal.mk false 10000 (-2)) 2 false EmptyString.
Definition student : Rate.t :=
  Rate.mk 11 1 "student" (Decimal.mk false 4950 (-2)) 5 false EmptyString.

Definition first_order : Order.t :=
  Order.mk 1 "ann@example.org" "Ann Lee" "100.00" "uuid-1" None None.

Definition database : Db :=
  mkDb [intro; hidden; upcoming] [standard; student] [first_order]
    [OrderItem.mk 1 10 "ann@example.org" "Ann Lee"].

Definition jane (rate : Z) : Ticket.t :=
  Ticket.mk rate "jane@example.org" "Jane Doe".
Definition joe (rate : Z) : Ticket.t :=
  Ticket.mk rate "joe@example.org" "Joe Öl".

(** The session order after the attendee step, for the given tickets. *)
Definition order_data (total : string) (tickets : list Ticket.t)
    : gmap string OVal :=
  <["tickets" := OTickets tickets]>
  (<["order_total" := OStr total]>
  (<["rates" := ORates [(10, "standard"); (11, "student")]]>
  (<["workshop" := OStr "intro-2024"]>
  (<["email" := OStr "jane@example.org"]>
  (<["name" := OStr "Jane Doe"]>
  (<["standard" := OStr "2"]> ∅)))))).

Definition world (s : gmap string SVal) : World :=
  mkWorld database s [] [] [].

Definition too_many : World :=
  world {["order" := SOrder (order_data "200.00" [jane 10; joe 10])]}.

Definition fits : World :=
  world {["order" := SOrder (order_data "149.50" [jane 10; joe 11])]}.

Definition request : Request := mkRequest ∅ ∅ EmptyString false.

(** A rate selection: one standard and two student tickets. *)
Definition selection : Request :=
  mkRequest ∅
    (<["standard" := "1"]>
     (<["student" := "2"]>
     (<["name" := "Jane Doe"]>
     (<["email" := "jane@example.org"]> ∅))))
    "standard=1&student=2&name=Jane+Doe&email=jane%40example.org" false.

(** Callbacks of the gateway: for the first order, for an unknown
    transaction, and without the amount. *)
Definition callback (fields : list (string * string)) (raw : string)
    : Request :=
  mkRequest ∅ (list_to_map fields) raw false.

Definition settled : Request :=
  callback [("unique_id", "uuid-1"); ("amount", "100.00");
            ("date_time", "2024-05-01 10:00:00")]
    "unique_id=uuid-1&amount=100.00&date_time=2024-05-01+10%3A00%3A00".

Definition unknown : Request :=
  callback [("unique_id", "uuid-9"); ("amount", "100.00");
            ("date_time", "2024-05-01 10:00:00")]
    "unique_id=uuid-9&amount=100.00&date_time=2024-05-01+10%3A00%3A00".

End Sample.

(** ** Vocabulary for the gateway payload *)

(** Every ticket names a rate of the database, and no rate is asked for
    more tickets than it has left: the submission passes the capacity
    check. *)
Definition passes_capacity_check (env : Env) (w : World)
    (tickets : list Ticket.t) : Prop :=
  Forall (λ t, ∃ rate, resolves w t rate) tickets
  ∧ ∀ t rate, In t tickets → resolves w t rate →
              ¬ over_capacity env w tickets rate.

(** The session holds a complete order: tickets and contact data. *)
Definition session_order (w : World) (order_data : gmap string OVal)
    (tickets : list Ticket.t) (email name order_total : string) : Prop :=
  session w !! "order" = Some (SOrder order_data)
  ∧ order_data !! "tickets" = Some (OTickets tickets)
  ∧ order_data !! "email" = Some (OStr email)
  ∧ order_data !! "name" = Some (OStr name)
  ∧ order_data !! "order_total" = Some (OStr order_total).

(** The name tokens in the words of the specification: what precedes the
    first space, and what follows the last one. *)
Fixpoint first_token (s : string) : string :=
  match s with
  | EmptyString => EmptyString
  | String c s' =>
      if decide (c = Str.space) then EmptyString
      else String c (first_token s')
  end.

Fixpoint last_token (s : string) : string :=
  match s with
  | EmptyString => EmptyString
  | String c s' =>
      if Str.has_space s' then last_token s'
      else if decide (c = Str.space) then s' else s
  end.

(** The state a committed submission leaves behind. *)
Definition new_order (w : World) (uuid email name order_total : string)
    : Order.t :=
  Order.mk (SubmitOrder.next_id (order_table (db w))) email name order_total
    uuid None None.

Definition new_items (order : Order.t) (tickets : list Ticket.t)
    : list OrderItem.t :=
  (λ ticket, OrderItem.mk (Order.id order) (Ticket.rate ticket)
               (Ticket.email ticket) (Ticket.name ticket)) <$> tickets.

Definition committed (w : World) (order : Order.t) (tickets : list Ticket.t)
    : World :=
  mkWorld
    (mkDb (workshop_table (db w)) (rate_table (db w))
       (order_table (db w) ++ [order])
       (orderitem_table (db w) ++ new_items order tickets))
    (delete "order" (session w)) (messages w) (logger w) (outbox w).

Definition with_sent (w : World) (s : Sent) : World :=
  mkWorld (db w) (session w) (messages w) (logger w) (outbox w ++ [s]).

(** The six fields of the metadata block of row [i]. *)
Definition block_at (env : Env) (payload : gmap string string) (i : nat)
    (rate : Rate.t) (ticket : Ticket.t) : Prop :=
  payload !! SubmitOrder.metadata_item 0 i
    = Some (SubmitOrder.description_line rate ticket)
  ∧ payload !! SubmitOrder.metadata_item 1 i = Some "1"
  ∧ payload !! SubmitOrder.metadata_item 2 i
    = Some (Decimal.to_string (Rate.price rate))
  ∧ payload !! SubmitOrder.metadata_item 3 i
    = Some (Decimal.to_string (Rate.price rate))
  ∧ payload !! SubmitOrder.metadata_item 4 i
    = Some (PSF_SPEEDTYPE (settings env))
  ∧ payload !! SubmitOrder.metadata_item 5 i
    = Some (PSF_ACCT_NUMBER (settings env)).

(** Invariant of the [rates] dictionary while the tickets are tallied:
    every key is the row its primary key resolves to and counts at least
    one ticket, and no primary key occurs twice. *)
Definition tally_inv (w : World) (rates : list (Rate.t * Z)) : Prop :=
  (∀ r q, In (r, q) rates →
          Rate_objects_get (Rate.id r) w = (Return r, w) ∧ 0 < q)
  ∧ NoDup ((λ kv, Rate.id kv.1) <$> rates).

(** ** Vocabulary for the catalog *)

Definition matching_code (d : Db) (code : option string) : list Workshop.t :=
  List.filter (λ x, bool_decide (Some (Workshop.private_code x) = code))
    (workshop_table d).

(** The catalog in the words of the specification: the workshops
    matching the access code when there are any, else the public,
    non-draft workshops. *)
Definition catalog_public_non_draft (d : Db) (code : option string)
    : list Workshop.t :=
  match matching_code d code with
  | (_ :: _) as matched => if WorkshopList.truthy code then matched
                         else List.filter
                                (λ x, Workshop.public x && negb (Workshop.draft x))
                                (workshop_table d)
  | [] => List.filter (λ x, Workshop.public x && negb (Workshop.draft x))
            (workshop_table d)
  end.

(** The same with the fallback the view computes: every non-draft
    workshop, public or not. *)
Definition catalog_non_draft (d : Db) (code : option string)
    : list Workshop.t :=
  match matching_code d code with
  | (_ :: _) as matched => if WorkshopList.truthy code then matched
                         else List.filter (λ x, negb (Workshop.draft x))
                                (workshop_table d)
  | [] => List.filter (λ x, negb (Workshop.draft x)) (workshop_table d)
  end.

Definition with_session (w : World) (s : gmap string SVal) : World :=
  mkWorld (db w) s (messages w) (logger w) (outbox w).

(** ** Vocabulary for the settlement callback *)

(** The callback carries the three required fields. *)
Definition callback_fields (request : Request)
    (unique_id amount date_time : string) : Prop :=
  POST request !! "unique_id" = Some unique_id
  ∧ POST request !! "amount" = Some amount
  ∧ POST request !! "date_time" = Some date_time.


Definition with_log (w : World) (r : LogRecord) : World :=
  mkWorld (db w) (session w) (messages w) (logger w ++ [r]) (outbox w).

(** ** Vocabulary for the order total *)

(** The quantity requested at a rate: the number its form field reads. *)
Definition quantity (form_data : gmap string string) (rate : Rate.t) : Z :=
  match form_data !! Rate.name rate with
  | Some s => match numeral s with Some n => Z.of_N n | None => 0 end
  | None => 0
  end.

(** The sum over the offered rates of quantity × price, in units of
    [10^-scale] (in cents for [scale = 2]), as an exact integer. *)
Definition exact_total (scale : Z) (form : Form) : Z :=
  foldr (λ rate acc,
           quantity (data form) rate * Decimal.scaled scale (Rate.price rate)
           + acc)
    0 (rate_set form).

(** The same sum over the absolute values of the prices. *)
Definition total_magnitude (scale : Z) (form : Form) : Z :=
  foldr (λ rate acc,
           quantity (data form) rate
           * Z.abs (Decimal.scaled scale (Rate.price rate))
           + acc)
    0 (rate_set form).

(** Prices have at most [scale] decimals and the order stays within the
    28 significant digits of the decimal context; both follow from the
    digits the price and capacity columns are declared with. *)
Definition within_precision (scale : Z) (form : Form) : Prop :=
  0 <= scale
  ∧ (∀ rate, In rate (rate_set form) →
             - scale <= Decimal.exp (Rate.price rate))
  ∧ total_magnitude scale form < 10 ^ Decimal.prec.


(** ** Vocabulary for further properties of the views *)



(** The sum of the values of the [rates] dictionary. *)
Definition total_quantity (rates : list (Rate.t * Z)) : Z :=
  foldr (λ kv acc, kv.2 + acc) 0 rates.

(** The keys the rate selector sets itself in the order skeleton. *)
Definition reserved_key (key : string) : Prop :=
  key = "workshop" ∨ key = "rates" ∨ key = "order_total".

(** The form the rate selector builds for a workshop. *)
Definition order_form (env : Env) (request : Request) (w : World)
    (object : Workshop.t) : Form :=
  mkForm (POST request)
    (filter_rates env (db w) object
       (default SNone (session w !! "discount_code"))).

(** The workshop a slug denotes. *)
Definition workshop_of (w : World) (slug : string) (object : Workshop.t)
    : Prop :=
  List.filter (λ x, bool_decide (Workshop.slug x = slug))
    (workshop_table (db w)) = [object].

(** The page of a workshop after [markdownify]. *)
Definition rendered_workshop (env : Env) (object : Workshop.t) : Workshop.t :=
  Workshop.mk (Workshop.id object) (Workshop.slug object)
    (Workshop.title object)
    (markdownify env (Workshop.description object))
    (Workshop.draft object) (Workshop.public object)
    (Workshop.private_code object).

(** A computation that never changes the world, whatever it returns or
    raises. *)
Definition read_only {A} (m : M A) : Prop :=
  ∀ (w w' : World) r, m w = (r, w') → w' = w.

(** The initial data of the attendee form set: for every offered rate,
    in order, as many entries as tickets were requested, each tagged with
    the rate's primary key. *)
Definition expected_initial (form : Form) : list Z :=
  flat_map (λ rate, replicate (Z.to_nat (quantity (data form) rate))
                      (Rate.id rate))
    (rate_set form).

(** The order table after the callback has rewritten the billing fields
    of [order]. *)
Definition settled_table (order : Order.t) (amount date_time : string)
    (table : list Order.t) : list Order.t :=
  (λ row, if Order.id row =? Order.id order
          then OrderCallback.set_billed order (Some amount) (Some date_time)
          else row) <$> table.

Definition with_orders (w : World) (table : list Order.t) : World :=
  mkWorld
    (mkDb (workshop_table (db w)) (rate_table (db w)) table
       (orderitem_table (db w)))
    (session w) (messages w) (logger w) (outbox w).

(** Primary keys and transaction ids of the orders are unique. *)
Definition orders_keyed (w : World) : Prop :=
  NoDup (Order.id <$> order_table (db w))
  ∧ NoDup (Order.transaction_id <$> order_table (db w)).

(** ** OrderDetail.formset_valid on the posted form set

    [formset_valid] reads the rows of the form set out of the posted
    data.  A ticket keeps its rate as the primary key that the posted
    rate field denotes (the lookups of the later steps convert it the
    same way); a rate field that is not a numeral is outside this model,
    which raises [ValueError] at once where the source fails at the
    first lookup of the rate. *)

Module OrderDetailRows.

(** ['form-%s-<field>' % i] *)
Definition form_key (i : nat) (field : string) : string :=
  "form-" +:+ pretty i +:+ "-" +:+ field.

(** The loop over [range(int(total_forms))], from row [i] on. *)
Fixpoint read_rows (suborder : gmap string string) (i count : nat)
    : M (list Ticket.t) :=
  match count with
  | O => mret []
  | S count =>
      rate ← getitem suborder (form_key i "rate");
      email ← getitem suborder (form_key i "email");
      name ← getitem suborder (form_key i "name");
      pk ← int_of rate;
      rest ← read_rows suborder (S i) count;
      mret (Ticket.mk pk email name :: rest)
  end.

Definition formset_valid (suborder : gmap string string) (slug : string)
    : M Response :=
  s ← get_session;
  order ← getitem s "order" ≫= as_order;
  total_forms ← getitem suborder "form-TOTAL_FORMS";
  count ← int_of total_forms;
  tickets ← read_rows suborder 0 (Z.to_nat count);
  let order := <["tickets" := OTickets tickets]> order in
  set_session (<["order" := SOrder order]> s) ;;
  mret (HttpResponseRedirect (payments_confirm slug)).

End OrderDetailRows.

(** Row [i] of the posted form set holds the data of [ticket]. *)
Definition posted_row (suborder : gmap string string) (i : nat)
    (ticket : Ticket.t) : Prop :=
  (∃ rate pk, suborder !! OrderDetailRows.form_key i "rate" = Some rate
              ∧ numeral rate = Some pk
              ∧ Ticket.rate ticket = Z.of_N pk)
  ∧ suborder !! OrderDetailRows.form_key i "email" = Some (Ticket.email ticket)
  ∧ suborder !! OrderDetailRows.form_key i "name" = Some (Ticket.name ticket).

(** The posted form set announces and holds exactly the rows of
    [tickets]. *)
Definition posted_rows (suborder : gmap string string)
    (tickets : list Ticket.t) : Prop :=
  (∃ total, suborder !! "form-TOTAL_FORMS" = Some total
            ∧ numeral total = Some (N.of_nat (length tickets)))
  ∧ ∀ i ticket, tickets !! i = Some ticket → posted_row suborder i ticket.

(** The attendee rows posted for Jane (standard) and Joe (student). *)
Definition sample_rows : gmap string string :=
  list_to_map
    [("form-TOTAL_FORMS", "2");
     ("form-0-rate", "10"); ("form-0-email", "jane@example.org");
     ("form-0-name", "Jane Doe");
     ("form-1-rate", "11"); ("form-1-email", "joe@example.org");
     ("form-1-name", "Joe Öl")].

(** The rate rows of the attendee page: every offered rate, in order,
    once per requested ticket. *)
Definition expected_zipped (form : Form) : list Rate.t :=
  flat_map (λ rate, replicate (Z.to_nat (quantity (data form) rate)) rate)
    (rate_set form).

(** * Properties *)

(** ** The decimal model on a few values *)

Example decimal_quantity_times_price :
  Decimal.to_string
    (Decimal.add Decimal.zero
       (Decimal.mul (default Decimal.zero (Decimal.of_string "2"))
                    (Decimal.mk false 10000 (-2))))
  = "200.00".
Proof. vm_compute. reflexivity. Qed.

Example decimal_strings :
  Decimal.to_string (Decimal.mk false 0 0) = "0"
  ∧ Decimal.to_string (Decimal.mk false 5 (-3)) = "0.005"
  ∧ Decimal.to_string (Decimal.mk true 12345 (-2)) = "-123.45"
  ∧ Decimal.to_string (Decimal.mk false 12 3) = "1.2E+4"
  ∧ Decimal.to_string (Decimal.mk false 1 (-8)) = "1E-8"
  ∧ Decimal.of_string "12.50" = Some (Decimal.mk false 1250 (-2))
  ∧ Decimal.of_string "1e3" = Some (Decimal.mk false 1 3)
  ∧ Decimal.of_string "abc" = None.
Proof. vm_compute. repeat split. Qed.

(** ** Running monadic code *)

Lemma run_bind {A B} (m : M A) (f : A → M B) (w : World) :
  (m ≫= f) w =
  match m w with
  | (Return a, w') => f a w'
  | (Raise e, w') => (Raise e, w')
  end.
Proof. reflexivity. Qed.

Lemma run_bind_return {A B} (m : M A) (f : A → M B) (w w' : World) (a : A) :
  m w = (Return a, w') → (m ≫= f) w = f a w'.
Proof. intros H. rewrite run_bind, H. reflexivity. Qed.

Lemma run_bind_raise {A B} (m : M A) (f : A → M B) (w w' : World) (e : Exn) :
  m w = (Raise e, w') → (m ≫= f) w = (Raise e, w').
Proof. intros H. rewrite run_bind, H. reflexivity. Qed.

Lemma run_getitem_some {V} (d : gmap string V) (key : string) (v : V) (w : World) :
  d !! key = Some v → getitem d key w = (Return v, w).
Proof. intros H. unfold getitem. rewrite H. reflexivity. Qed.

Lemma run_getitem_none {V} (d : gmap string V) (key : string) (w : World) :
  d !! key = None → getitem d key w = (Raise (KeyError key), w).
Proof. intros H. unfold getitem. rewrite H. reflexivity. Qed.

Lemma run_mret {A} (a : A) (w : World) : (mret a : M A) w = (Return a, w).
Proof. reflexivity. Qed.

Lemma run_raise {A} (e : Exn) (w : World) : raise (A:=A) e w = (Raise e, w).
Proof. reflexivity. Qed.

Lemma run_lift {A} (r : Result A) (w : World) : lift r w = (r, w).
Proof. reflexivity. Qed.

Lemma run_get_session (w : World) : get_session w = (Return (session w), w).
Proof. reflexivity. Qed.

Lemma run_get_db (w : World) : get_db w = (Return (db w), w).
Proof. reflexivity. Qed.

Lemma run_set_session s (w : World) :
  set_session s w = (Return (), with_session w s).
Proof. reflexivity. Qed.

Lemma run_session_get key (w : World) :
  session_get key w = (Return (default SNone (session w !! key)), w).
Proof. reflexivity. Qed.

Create Rewrite HintDb run.
#[global] Hint Rewrite @run_mret @run_raise @run_lift run_get_session
  run_get_db run_set_session run_session_get : run.

(** One step after the other: split the bind, run the primitive, take
    the branch. *)
Ltac mrun :=
  repeat first [ rewrite run_bind
               | progress autorewrite with run
               | progress cbn beta iota zeta ].

(** ** Reading a rate never changes the world *)

Lemma objects_get_world {A} model (lookup : A → bool) table (w w' : World) r :
  objects_get model lookup table w = (r, w') → w' = w.
Proof.
  unfold objects_get. destruct (List.filter lookup table) as [|x [|y l]];
    cbv [mret M_ret raise]; congruence.
Qed.

Lemma Rate_objects_get_world pk (w w' : World) r :
  Rate_objects_get pk w = (r, w') → w' = w.
Proof.
  unfold Rate_objects_get. rewrite run_bind. cbn.
  apply objects_get_world.
Qed.

Lemma Rate_objects_get_db pk (w1 w2 : World) :
  db w1 = db w2 →
  fst (Rate_objects_get pk w1) = fst (Rate_objects_get pk w2).
Proof.
  intros H. unfold Rate_objects_get. rewrite !run_bind. cbn. rewrite H.
  unfold objects_get.
  destruct (List.filter _ _) as [|x [|y l]]; reflexivity.
Qed.

Lemma Rate_objects_get_id pk (w w' : World) rate :
  Rate_objects_get pk w = (Return rate, w') → Rate.id rate = pk.
Proof.
  unfold Rate_objects_get. rewrite run_bind. cbn. unfold objects_get.
  destruct (List.filter _ _) as [|x [|y l]] eqn:E;
    cbv [mret M_ret raise]; try congruence.
  intros [= <- <-].
  assert (In x (List.filter (λ r, Rate.id r =? pk) (rate_table (db w)))) as Hin
    by (rewrite E; left; reflexivity).
  apply filter_In in Hin as [_ Hin]. lia.
Qed.

(** ** The tally of tickets per rate *)

Section Tally.

Variable w : World.

Lemma contains_id rate rate' rates :
  Rate.id rate = Rate.id rate' →
  SubmitOrder.contains rate rates = SubmitOrder.contains rate' rates.
Proof.
  intros H. unfold SubmitOrder.contains, Rate.eqb. rewrite H. reflexivity.
Qed.

Lemma contains_in rate rates :
  SubmitOrder.contains rate rates = true ↔
  ∃ r q, In (r, q) rates ∧ Rate.id r = Rate.id rate.
Proof.
  unfold SubmitOrder.contains. rewrite existsb_exists. split.
  - intros [[r q] [Hin Heq]]. exists r, q. split; [exact Hin|].
    unfold Rate.eqb in Heq. cbn in Heq. lia.
  - intros (r & q & Hin & Heq). exists (r, q). split; [exact Hin|].
    unfold Rate.eqb. cbn. lia.
Qed.

Lemma add_one_keys rate rates :
  (λ kv, Rate.id kv.1) <$> SubmitOrder.add_one rate rates
  = (λ kv, Rate.id kv.1) <$> rates.
Proof.
  induction rates as [|[r q] rates IH]; cbn; [reflexivity|].
  destruct (Rate.eqb r rate); cbn; [reflexivity|]. f_equal. exact IH.
Qed.

Lemma add_one_in rate rates r q :
  In (r, q) (SubmitOrder.add_one rate rates) →
  ∃ q', In (r, q') rates ∧ q' <= q.
Proof.
  induction rates as [|[r0 q0] rates IH]; cbn; [tauto|].
  destruct (Rate.eqb r0 rate); cbn.
  - intros [[= <- <-]|Hin]; [exists q0|exists q]; split; auto; lia.
  - intros [[= <- <-]|Hin]; [exists q0; split; auto; lia|].
    destruct (IH Hin) as [q' [Hq' Hle]]. eauto.
Qed.

Lemma quantity_of_add_one rate rates pk :
  SubmitOrder.contains rate rates = true →
  quantity_of pk (SubmitOrder.add_one rate rates)
  = quantity_of pk rates + (if decide (pk = Rate.id rate) then 1 else 0).
Proof.
  unfold SubmitOrder.contains, quantity_of.
  induction rates as [|[r q] rates IH]; cbn; [discriminate|].
  unfold Rate.eqb in *. cbn.
  destruct (Rate.id r =? Rate.id rate) eqn:E; cbn.
  - intros _. apply Z.eqb_eq in E.
    destruct (Rate.id r =? pk) eqn:E'; cbn.
    + rewrite decide_True by lia. reflexivity.
    + rewrite decide_False by lia.
      destruct (List.find _ rates); lia.
  - intros H. specialize (IH H).
    destruct (Rate.id r =? pk) eqn:E'; cbn.
    + rewrite decide_False by lia. lia.
    + exact IH.
Qed.

Lemma quantity_of_app_new rate rates pk :
  SubmitOrder.contains rate rates = false →
  quantity_of pk (rates ++ [(rate, 1)])
  = quantity_of pk rates + (if decide (pk = Rate.id rate) then 1 else 0).
Proof.
  unfold SubmitOrder.contains, quantity_of, Rate.eqb.
  induction rates as [|[r q] rates IH]; cbn.
  - intros _. destruct (Rate.id rate =? pk) eqn:E; cbn.
    + rewrite decide_True by lia. reflexivity.
    + rewrite decide_False by lia. reflexivity.
  - destruct (Rate.id r =? Rate.id rate) eqn:E; cbn; [discriminate|].
    intros H. specialize (IH H).
    destruct (Rate.id r =? pk) eqn:E'; cbn.
    + rewrite decide_False by lia. lia.
    + exact IH.
Qed.

Lemma quantity_of_count_ticket rate rates pk :
  quantity_of pk (SubmitOrder.count_ticket rates rate)
  = quantity_of pk rates + (if decide (pk = Rate.id rate) then 1 else 0).
Proof.
  unfold SubmitOrder.count_ticket.
  destruct (SubmitOrder.contains rate rates) eqn:E; cbn.
  - apply quantity_of_add_one, E.
  - apply quantity_of_app_new, E.
Qed.

Lemma tally_inv_count_ticket rate rates :
  Rate_objects_get (Rate.id rate) w = (Return rate, w) →
  tally_inv w rates → tally_inv w (SubmitOrder.count_ticket rates rate).
Proof.
  intros Hget [Hkeys Hnodup]. unfold SubmitOrder.count_ticket.
  destruct (SubmitOrder.contains rate rates) eqn:E; cbn.
  - split.
    + intros r q Hin. apply add_one_in in Hin as [q' [Hin Hle]].
      destruct (Hkeys _ _ Hin). split; [assumption|lia].
    + rewrite add_one_keys. exact Hnodup.
  - split.
    + intros r q Hin. apply in_app_or in Hin as [Hin|[[= <- <-]|[]]]; eauto.
      split; [exact Hget|lia].
    + rewrite fmap_app. cbn. apply NoDup_app. split; [exact Hnodup|].
      split; [|apply NoDup_singleton].
      intros pk Hpk Hpk'. apply list_elem_of_singleton in Hpk'. subst pk.
      apply list_elem_of_fmap in Hpk as [[r q] [Heq Hin]]. cbn in Heq.
      apply list_elem_of_In in Hin.
      assert (SubmitOrder.contains rate rates = true) as Hc
        by (apply contains_in; eauto).
      congruence.
Qed.

Lemma quantity_of_in r q rates :
  NoDup ((λ kv, Rate.id kv.1) <$> rates) → In (r, q) rates →
  quantity_of (Rate.id r) rates = q.
Proof.
  unfold quantity_of.
  induction rates as [|[r0 q0] rates IH]; cbn; [tauto|].
  intros Hnd [[= -> ->]|Hin].
  - rewrite Z.eqb_refl. reflexivity.
  - apply NoDup_cons in Hnd as [Hnotin Hnd].
    destruct (Rate.id r0 =? Rate.id r) eqn:E; cbn.
    + exfalso. apply Hnotin. apply Z.eqb_eq in E. rewrite E.
      apply list_elem_of_fmap. exists (r, q). split; [reflexivity|].
      apply list_elem_of_In, Hin.
    + apply IH; assumption.
Qed.

Lemma quantity_of_pos pk rates :
  0 < quantity_of pk rates →
  ∃ r, In (r, quantity_of pk rates) rates ∧ Rate.id r = pk.
Proof.
  unfold quantity_of.
  destruct (List.find _ rates) as [[r q]|] eqn:E; cbn; [|lia].
  intros _. apply find_some in E as [Hin Heq]. cbn in Heq.
  exists r. split; [exact Hin|lia].
Qed.

Lemma requested_cons pk ticket tickets :
  requested pk (ticket :: tickets)
  = (if decide (pk = Ticket.rate ticket) then 1 else 0) + requested pk tickets.
Proof.
  unfold requested. cbn.
  destruct (Ticket.rate ticket =? pk) eqn:E; cbn.
  - rewrite decide_True by lia. lia.
  - rewrite decide_False by lia. lia.
Qed.

(** The tally succeeds when every ticket names a rate of the database,
    leaves the world alone, and counts the tickets per rate. *)
Lemma tally_spec tickets : ∀ acc,
  Forall (λ t, ∃ rate, resolves w t rate) tickets →
  tally_inv w acc →
  ∃ rates,
    SubmitOrder.tally tickets acc w = (Return rates, w)
    ∧ tally_inv w rates
    ∧ ∀ pk, quantity_of pk rates = quantity_of pk acc + requested pk tickets.
Proof.
  induction tickets as [|ticket tickets IH]; intros acc Hres Hinv.
  - exists acc. split; [reflexivity|]. split; [exact Hinv|].
    intros pk. unfold requested. cbn. lia.
  - apply Forall_cons in Hres as [[rate Hrate] Hres].
    unfold resolves in Hrate.
    pose proof (Rate_objects_get_id _ _ _ _ Hrate) as Hid.
    assert (tally_inv w (SubmitOrder.count_ticket acc rate)) as Hinv'.
    { apply tally_inv_count_ticket; [rewrite Hid; exact Hrate|exact Hinv]. }
    destruct (IH _ Hres Hinv') as (rates & Hrun & Hinv'' & Hq).
    exists rates. split; [|split; [exact Hinv''|]].
    + cbn. erewrite run_bind_return by exact Hrate. exact Hrun.
    + intros pk. rewrite Hq, quantity_of_count_ticket, requested_cons, Hid.
      lia.
Qed.

Lemma tally_inv_nil : tally_inv w [].
Proof. split; [intros r q []|apply NoDup_nil_2]. Qed.

Lemma requested_pos pk tickets :
  0 < requested pk tickets → ∃ t, In t tickets ∧ Ticket.rate t = pk.
Proof.
  unfold requested.
  destruct (List.filter _ tickets) as [|t l] eqn:E; cbn; [lia|].
  intros _. exists t.
  assert (In t (List.filter (λ t, Ticket.rate t =? pk) tickets)) as Hin
    by (rewrite E; left; reflexivity).
  apply filter_In in Hin as [Hin Heq]. split; [exact Hin|lia].
Qed.

Lemma requested_in pk t tickets :
  In t tickets → Ticket.rate t = pk → 0 < requested pk tickets.
Proof.
  intros Hin Heq. unfold requested.
  assert (In t (List.filter (λ t, Ticket.rate t =? pk) tickets)) as Hin'
    by (apply filter_In; split; [exact Hin|lia]).
  destruct (List.filter _ tickets); [destruct Hin'|cbn; lia].
Qed.

End Tally.

(** ** Order submission: the capacity check *)


Lemma post_reaches_check env uuid request w order_data tickets rates :
  session w !! "order" = Some (SOrder order_data) →
  order_data !! "tickets" = Some (OTickets tickets) →
  SubmitOrder.tally tickets [] w = (Return rates, w) →
  SubmitOrder.post env uuid request w =
  (SubmitOrder.check_capacity env order_data rates ≫= λ aborted,
     match aborted with
     | Some response => mret response
     | None =>
        email ← getitem order_data "email" ≫= as_str;
        name ← getitem order_data "name" ≫= as_str;
        order_total ← getitem order_data "order_total" ≫= as_str;
        order ← SubmitOrder.Order_objects_create uuid email name order_total;
        let items :=
          (λ ticket, OrderItem.mk (Order.id order) (Ticket.rate ticket)
                       (Ticket.email ticket) (Ticket.name ticket)) <$> tickets in
        SubmitOrder.OrderItem_objects_bulk_create items ;;
        SubmitOrder.del_session "order" ;;
        payload ← SubmitOrder.add_metadata env 0 tickets
                    (SubmitOrder.base_payload env order);
        record_sent (mkSent (PAYMENT_URL (settings env)) payload
                       (PAYMENT_CERT_BUNDLE (settings env))) ;;
        r ← lift (requests_post env (PAYMENT_URL (settings env)) payload
                    (PAYMENT_CERT_BUNDLE (settings env)));
        mret (HttpResponse r.1 r.2)
     end) w.
Proof.
  intros Hs Ht Htally. unfold SubmitOrder.post.
  rewrite run_bind. cbn.
  rewrite (run_bind (getitem _ _ ≫= _)), run_bind.
  unfold getitem at 1. rewrite Hs. cbn.
  rewrite (run_bind (getitem _ _ ≫= _)), run_bind.
  unfold getitem at 1. rewrite Ht. cbn.
  rewrite (run_bind (SubmitOrder.tally _ _)), Htally. reflexivity.
Qed.



(** The example of the specification: capacity 2, one ticket sold, two
    requested; one ticket is reported as remaining. *)
Example submit_too_many :
  SubmitOrder.post Sample.env "uuid-2" Sample.request Sample.too_many
  = (Return (HttpResponseRedirect (payments_details "intro-2024")),
     add_warning Sample.too_many
       "There are too many standard tickets in this order. Ticket(s) remaining at this rate: 1.").
Proof. vm_compute. reflexivity. Qed.

(** ** Order submission: the commit and the gateway request *)

Lemma Rate_objects_get_table pk (w1 w2 : World) rate :
  rate_table (db w1) = rate_table (db w2) →
  Rate_objects_get pk w1 = (Return rate, w1) →
  Rate_objects_get pk w2 = (Return rate, w2).
Proof.
  intros Htable. unfold Rate_objects_get. rewrite !run_bind. cbn.
  rewrite Htable. unfold objects_get.
  destruct (List.filter _ _) as [|x [|y l]]; cbv [mret M_ret raise];
    congruence.
Qed.

Lemma metadata_item_column (c i : nat) :
  (c <= 5)%nat →
  SubmitOrder.metadata_item c i
  = "metadata_item_" +:+ String (ascii_of_nat (48 + c)) ("," +:+ pretty i).
Proof.
  intros Hc. unfold SubmitOrder.metadata_item.
  do 6 (destruct c as [|c]; [reflexivity|]). lia.
Qed.

Lemma metadata_item_inj (c c' i i' : nat) :
  (c <= 5)%nat → (c' <= 5)%nat →
  SubmitOrder.metadata_item c i = SubmitOrder.metadata_item c' i' →
  c = c' ∧ i = i'.
Proof.
  intros Hc Hc' Heq.
  rewrite !metadata_item_column in Heq by assumption.
  apply String.app_inj in Heq.
  assert (nat_of_ascii (ascii_of_nat (48 + c))
          = nat_of_ascii (ascii_of_nat (48 + c'))) as Hcol
    by exact (f_equal (λ s, match s with
                            | String a _ => nat_of_ascii a
                            | EmptyString => 0%nat
                            end) Heq).
  assert (pretty i = pretty i') as Hrow
    by exact (f_equal (λ s, match s with
                            | String _ (String _ r) => r
                            | _ => EmptyString
                            end) Heq).
  apply (inj pretty) in Hrow. split; [|exact Hrow].
  rewrite !nat_ascii_embedding in Hcol by lia. lia.
Qed.

Lemma metadata_item_prefix (c i : nat) :
  ∃ rest, SubmitOrder.metadata_item c i = String "m"%char rest.
Proof. eexists. reflexivity. Qed.

Section Metadata.

Variable env : Env.
Variable w : World.

Lemma add_metadata_spec tickets : ∀ i payload,
  Forall (λ t, ∃ rate, resolves w t rate) tickets →
  ∃ payload',
    SubmitOrder.add_metadata env i tickets payload w = (Return payload', w)
    ∧ (∀ key, (∀ c j, (c <= 5)%nat → (i <= j)%nat →
                      key ≠ SubmitOrder.metadata_item c j) →
              payload' !! key = payload !! key)
    ∧ (∀ j ticket rate, tickets !! j = Some ticket → resolves w ticket rate →
                        block_at env payload' (i + j) rate ticket).
Proof.
  induction tickets as [|ticket tickets IH]; intros i payload Hres.
  - exists payload. split; [reflexivity|]. split; [reflexivity|].
    intros j t r Hj. rewrite lookup_nil in Hj. discriminate.
  - apply Forall_cons in Hres as [[rate Hrate] Hres].
    cbn. erewrite run_bind_return by exact Hrate.
    match goal with
    | |- ∃ p, SubmitOrder.add_metadata _ _ _ ?q _ = _ ∧ _ =>
        destruct (IH (S i) q Hres) as (payload' & Hrun & Hother & Hblocks)
    end.
    exists payload'. split; [exact Hrun|]. split.
    + intros key Hkey. rewrite Hother.
      * rewrite !lookup_insert_ne; [reflexivity|..];
          intros Heq; symmetry in Heq; revert Heq; apply Hkey; lia.
      * intros c j Hc Hj. apply Hkey; lia.
    + intros [|j] t r Hj Hr.
      * injection Hj as <-. unfold resolves in Hr.
        assert (r = rate) as -> by congruence.
        rewrite Nat.add_0_r. unfold block_at.
        rewrite !Hother by
          (intros c j Hc Hj Heq; apply metadata_item_inj in Heq; lia).
        repeat split;
          repeat (first [ apply lookup_insert_eq
                        | rewrite lookup_insert_ne
                            by (intros Heq; apply metadata_item_inj in Heq; lia) ]).
      * cbn in Hj. replace (i + S j)%nat with (S i + j)%nat by lia.
        eapply Hblocks; eassumption.
Qed.

End Metadata.

Lemma passes_check_find_none env w tickets rates :
  passes_capacity_check env w tickets →
  tally_inv w rates →
  (∀ pk, quantity_of pk rates = requested pk tickets) →
  List.find (exceeds env (db w)) rates = None.
Proof.
  intros [_ Hfits] [Hkeys Hnodup] Hq.
  destruct (List.find _ rates) as [[rate q]|] eqn:Hfind; [|reflexivity].
  exfalso. apply find_some in Hfind as [Hin Hex].
  pose proof (quantity_of_in _ _ _ Hnodup Hin) as Hqr. rewrite Hq in Hqr.
  destruct (Hkeys _ _ Hin) as [Hget Hpos]. rewrite <- Hqr in Hpos.
  destruct (requested_pos _ _ Hpos) as (t & Htin & Htrate).
  apply (Hfits t rate Htin).
  - unfold resolves. rewrite Htrate. exact Hget.
  - unfold over_capacity. unfold exceeds in Hex. cbn in Hex. lia.
Qed.

Lemma check_capacity_pass env order_data items w :
  List.find (exceeds env (db w)) items = None →
  SubmitOrder.check_capacity env order_data items w = (Return None, w).
Proof.
  induction items as [|[rate q] items IH]; [reflexivity|].
  cbn. destruct (exceeds env (db w) (rate, q)) eqn:E; [discriminate|].
  unfold exceeds in E. cbn in E. intros Hnone.
  rewrite run_bind. cbn. rewrite E. exact (IH Hnone).
Qed.

Lemma run_Order_objects_create uuid email name total w :
  SubmitOrder.Order_objects_create uuid email name total w
  = (Return (new_order w uuid email name total),
     mkWorld
       (mkDb (workshop_table (db w)) (rate_table (db w))
          (order_table (db w) ++ [new_order w uuid email name total])
          (orderitem_table (db w)))
       (session w) (messages w) (logger w) (outbox w)).
Proof. reflexivity. Qed.

Lemma run_bulk_create items w :
  SubmitOrder.OrderItem_objects_bulk_create items w
  = (Return (),
     mkWorld
       (mkDb (workshop_table (db w)) (rate_table (db w)) (order_table (db w))
          (orderitem_table (db w) ++ items))
       (session w) (messages w) (logger w) (outbox w)).
Proof. reflexivity. Qed.

Lemma run_del_session key v w :
  session w !! key = Some v →
  SubmitOrder.del_session key w
  = (Return (),
     mkWorld (db w) (delete key (session w)) (messages w) (logger w) (outbox w)).
Proof.
  intros H. unfold SubmitOrder.del_session. rewrite run_bind. cbn.
  rewrite H. reflexivity.
Qed.

(** The run of a submission that passes the capacity check: the order and
    its items are committed, the session order is deleted, the payload
    is sent, and the gateway's answer (or failure) is the result. *)
Lemma post_success env uuid request w order_data tickets email name total :
  session_order w order_data tickets email name total →
  passes_capacity_check env w tickets →
  let order := new_order w uuid email name total in
  let w1 := committed w order tickets in
  ∃ payload,
    SubmitOrder.add_metadata env 0 tickets (SubmitOrder.base_payload env order) w1
    = (Return payload, w1)
    ∧ SubmitOrder.post env uuid request w
      = (match requests_post env (PAYMENT_URL (settings env)) payload
                 (PAYMENT_CERT_BUNDLE (settings env)) with
         | Return r => Return (HttpResponse r.1 r.2)
         | Raise e => Raise e
         end,
         with_sent w1 (mkSent (PAYMENT_URL (settings env)) payload
                         (PAYMENT_CERT_BUNDLE (settings env)))).
Proof.
  intros (Hs & Ht & He & Hn & Hto) Hpass order w1.
  pose proof Hpass as [Hres _].
  destruct (tally_spec w tickets [] Hres (tally_inv_nil w))
    as (rates & Htally & Hinv & Hq).
  assert (∀ pk, quantity_of pk rates = requested pk tickets) as Hq'.
  { intros pk. rewrite Hq. unfold quantity_of. cbn. lia. }
  assert (Forall (λ t, ∃ rate, resolves w1 t rate) tickets) as Hres1.
  { eapply Forall_impl; [exact Hres|]. intros t [rate Hrate].
    exists rate. eapply Rate_objects_get_table; [|exact Hrate]. reflexivity. }
  destruct (add_metadata_spec env w1 tickets 0
              (SubmitOrder.base_payload env order) Hres1)
    as (payload & Hrun & _).
  exists payload. split; [exact Hrun|].
  rewrite (post_reaches_check _ _ _ _ _ _ _ Hs Ht Htally).
  rewrite run_bind,
    (check_capacity_pass _ _ _ _ (passes_check_find_none _ _ _ _ Hpass Hinv Hq')).
  rewrite run_bind, (run_bind (getitem _ _)), (run_getitem_some _ _ _ _ He). cbn.
  rewrite run_bind, (run_bind (getitem _ _)), (run_getitem_some _ _ _ _ Hn). cbn.
  rewrite run_bind, (run_bind (getitem _ _)), (run_getitem_some _ _ _ _ Hto). cbn.
  rewrite run_bind, run_Order_objects_create. fold order.
  rewrite run_bind, run_bulk_create. cbn [db session messages logger outbox
    workshop_table rate_table order_table orderitem_table].
  rewrite run_bind. erewrite run_del_session by exact Hs. cbn [db session messages logger outbox
    workshop_table rate_table order_table orderitem_table].
  fold (new_items order tickets). fold (committed w order tickets). fold w1.
  rewrite run_bind, Hrun.
  rewrite run_bind. cbn.
  destruct (requests_post env _ _ _); reflexivity.
Qed.

Lemma next_id_fresh (table : list Order.t) (o : Order.t) :
  In o table → Order.id o < SubmitOrder.next_id table.
Proof.
  unfold SubmitOrder.next_id.
  induction table as [|o' table IH]; cbn; [tauto|].
  intros [->|Hin]; [lia|]. specialize (IH Hin). lia.
Qed.

(** C2. A submission that passes the capacity check creates exactly one
    Order row, carrying the contact name, contact email and order_total of
    the session order, creates exactly len(tickets) OrderItem rows, each
    referring to that Order and to its ticket's rate, and deletes the
    'order' key from the session; all of this whatever the gateway then
    answers. *)
Theorem C2_successful_submission_commits env uuid request w order_data
    tickets email name total :
  session_order w order_data tickets email name total →
  passes_capacity_check env w tickets →
  let run := SubmitOrder.post env uuid request w in
  ∃ order items,
    order_table (db run.2) = order_table (db w) ++ [order]
    ∧ Order.contact_name order = name
    ∧ Order.contact_email order = email
    ∧ Order.order_total order = total
    ∧ (∀ o, In o (order_table (db w)) → Order.id o ≠ Order.id order)
    ∧ orderitem_table (db run.2) = orderitem_table (db w) ++ items
    ∧ length items = length tickets
    ∧ (∀ i ticket, tickets !! i = Some ticket →
         ∃ item, items !! i = Some item
                 ∧ OrderItem.order item = Order.id order
                 ∧ OrderItem.rate_id item = Ticket.rate ticket
                 ∧ OrderItem.name item = Ticket.name ticket
                 ∧ OrderItem.email item = Ticket.email ticket)
    ∧ session run.2 = delete "order" (session w)
    ∧ session run.2 !! "order" = None.
Proof.
  intros Horder Hpass run.
  destruct (post_success env uuid request w _ _ _ _ _ Horder Hpass)
    as (payload & _ & Hrun).
  subst run. rewrite Hrun. cbn.
  exists (new_order w uuid email name total),
         (new_items (new_order w uuid email name total) tickets).
  repeat split.
  - intros o Hin Heq. apply next_id_fresh in Hin. cbn in Heq. lia.
  - unfold new_items. apply length_fmap.
  - intros i ticket Hi. eexists. split.
    + unfold new_items. rewrite list_lookup_fmap, Hi. reflexivity.
    + repeat split.
  - apply lookup_delete_eq.
Qed.

Lemma sample_fits_passes :
  passes_capacity_check Sample.env Sample.fits [Sample.jane 10; Sample.joe 11].
Proof.
  split.
  - repeat constructor;
      [exists Sample.standard|exists Sample.student]; reflexivity.
  - intros t rate [<-|[<-|[]]] Hres; unfold resolves in Hres;
      vm_compute in Hres; injection Hres as <-; vm_compute; discriminate.
Defined.

Lemma sample_fits_order :
  session_order Sample.fits
    (Sample.order_data "149.50" [Sample.jane 10; Sample.joe 11])
    [Sample.jane 10; Sample.joe 11] "jane@example.org" "Jane Doe" "149.50".
Proof. repeat split; vm_compute; reflexivity. Defined.

Lemma C2_successful_submission_commits_witness :
  let run := SubmitOrder.post Sample.env "uuid-2" Sample.request Sample.fits in
  ∃ order items,
    order_table (db run.2) = order_table (db Sample.fits) ++ [order]
    ∧ Order.contact_name order = "Jane Doe"
    ∧ Order.contact_email order = "jane@example.org"
    ∧ Order.order_total order = "149.50"
    ∧ (∀ o, In o (order_table (db Sample.fits)) → Order.id o ≠ Order.id order)
    ∧ orderitem_table (db run.2) = orderitem_table (db Sample.fits) ++ items
    ∧ length items = length [Sample.jane 10; Sample.joe 11]
    ∧ (∀ i ticket, [Sample.jane 10; Sample.joe 11] !! i = Some ticket →
         ∃ item, items !! i = Some item
                 ∧ OrderItem.order item = Order.id order
                 ∧ OrderItem.rate_id item = Ticket.rate ticket
                 ∧ OrderItem.name item = Ticket.name ticket
                 ∧ OrderItem.email item = Ticket.email ticket)
    ∧ session run.2 = delete "order" (session Sample.fits)
    ∧ session run.2 !! "order" = None.
Proof.
  exact (C2_successful_submission_commits Sample.env "uuid-2" Sample.request
           Sample.fits _ _ _ _ _ sample_fits_order sample_fits_passes).
Defined.

Example submit_fits :
  let run := SubmitOrder.post Sample.env "uuid-2" Sample.request Sample.fits in
  run.1 = Return (HttpResponse "<html>pay</html>" 200)
  ∧ order_table (db run.2)
    = [Sample.first_order;
       Order.mk 2 "jane@example.org" "Jane Doe" "149.50" "uuid-2" None None]
  ∧ orderitem_table (db run.2)
    = [OrderItem.mk 1 10 "ann@example.org" "Ann Lee";
       OrderItem.mk 2 10 "jane@example.org" "Jane Doe";
       OrderItem.mk 2 11 "joe@example.org" "Joe Öl"]
  ∧ session run.2 = ∅.
Proof. vm_compute. repeat split. Qed.

(** ** The purchaser's name in the payload *)

Lemma split_space_no_space s :
  Str.has_space s = false → Str.split_space s = [s] ∧ last_token s = s.
Proof.
  induction s as [|c s IH]; cbn; [split; reflexivity|].
  destruct (decide (c = Str.space)); [discriminate|].
  intros H. destruct (IH H) as [-> _]. rewrite H.
  split; reflexivity.
Qed.

Lemma split_space_length s :
  (1 < length (Str.split_space s))%nat ↔ Str.has_space s = true.
Proof.
  induction s as [|c s IH]; cbn; [split; [lia|discriminate]|].
  destruct (decide (c = Str.space)).
  - split; [reflexivity|]. intros _.
    destruct (Str.split_space s) eqn:E; cbn; [|lia].
    destruct s; cbn in E; [discriminate|].
    destruct (decide _); [discriminate|destruct (Str.split_space s); discriminate].
  - destruct (Str.split_space s) as [|piece pieces] eqn:E; cbn in *; [|exact IH].
    rewrite <- IH. lia.
Qed.

Lemma split_space_head s : head (Str.split_space s) = Some (first_token s).
Proof.
  induction s as [|c s IH]; cbn; [reflexivity|].
  destruct (decide (c = Str.space)); [reflexivity|].
  destruct (Str.split_space s) as [|piece pieces]; cbn in *; congruence.
Qed.

Lemma split_space_last s : last (Str.split_space s) = Some (last_token s).
Proof.
  induction s as [|c s IH]; cbn; [reflexivity|].
  destruct (Str.has_space s) eqn:Hs.
  - apply split_space_length in Hs.
    destruct (Str.split_space s) as [|piece [|piece' pieces]];
      cbn in Hs; try lia.
    destruct (decide (c = Str.space)); exact IH.
  - destruct (split_space_no_space s Hs) as [-> _].
    destruct (decide (c = Str.space)); reflexivity.
Qed.

(** The tokens are what their names say. *)
Lemma first_token_spec s :
  Str.has_space (first_token s) = false
  ∧ ∃ rest, s = first_token s +:+ rest
            ∧ (rest = EmptyString ∨ ∃ r, rest = String Str.space r).
Proof.
  induction s as [|c s (IH1 & rest & IH2 & IH3)]; cbn.
  - split; [reflexivity|]. exists EmptyString. split; [reflexivity|left; reflexivity].
  - destruct (decide (c = Str.space)) as [->|Hc]; cbn.
    + split; [reflexivity|]. exists (String Str.space s). split; eauto.
    + rewrite decide_False by exact Hc. split; [exact IH1|].
      exists rest. split; [exact (f_equal (String c) IH2)|exact IH3].
Qed.

Lemma last_token_spec s :
  Str.has_space (last_token s) = false
  ∧ (Str.has_space s = true →
     ∃ front, s = front +:+ String Str.space (last_token s)).
Proof.
  induction s as [|c s [IH1 IH2]]; cbn; [split; [reflexivity|discriminate]|].
  destruct (Str.has_space s) eqn:Hs.
  - split; [exact IH1|]. intros _. destruct (IH2 eq_refl) as [front Hfront].
    exists (String c front). exact (f_equal (String c) Hfront).
  - destruct (decide (c = Str.space)) as [->|Hc].
    + split; [exact Hs|]. intros _. exists EmptyString. reflexivity.
    + split; [|discriminate]. cbn. rewrite decide_False by exact Hc. exact Hs.
Qed.

Lemma base_payload_names env order :
  SubmitOrder.base_payload env order !! "BILL_CUSTOMER_FIRSTNAME"
  = Some (qp (first_token (Order.contact_name order)))
  ∧ SubmitOrder.base_payload env order !! "BILL_CUSTOMER_LASTNAME"
    = Some (if Str.has_space (Order.contact_name order)
            then qp (last_token (Order.contact_name order))
            else EmptyString).
Proof.
  unfold SubmitOrder.base_payload. split.
  - do 3 (rewrite lookup_insert_ne by discriminate). rewrite lookup_insert_eq.
    rewrite split_space_head. reflexivity.
  - do 2 (rewrite lookup_insert_ne by discriminate). rewrite lookup_insert_eq.
    rewrite split_space_last. cbn.
    destruct (Str.has_space (Order.contact_name order)) eqn:Hs.
    + rewrite decide_True by (apply split_space_length, Hs). reflexivity.
    + rewrite decide_False; [reflexivity|].
      rewrite split_space_length, Hs. discriminate.
Qed.

(** C6. For a successful submission, the payload sent to the gateway has
    BILL_CUSTOMER_FIRSTNAME = the URL-escaped first token of contact_name
    (what precedes its first space) and BILL_CUSTOMER_LASTNAME = the
    URL-escaped last token (what follows its last space), except that a
    contact_name without a space gives the empty last name. *)
Theorem C6_purchaser_name_fields env uuid request w order_data tickets
    email name total :
  session_order w order_data tickets email name total →
  passes_capacity_check env w tickets →
  let run := SubmitOrder.post env uuid request w in
  ∃ sent,
    outbox run.2 = outbox w ++ [sent]
    ∧ sent_data sent !! "BILL_CUSTOMER_FIRSTNAME" = Some (qp (first_token name))
    ∧ sent_data sent !! "BILL_CUSTOMER_LASTNAME"
      = Some (if Str.has_space name then qp (last_token name) else EmptyString).
Proof.
  intros Horder Hpass run.
  destruct (post_success env uuid request w _ _ _ _ _ Horder Hpass)
    as (payload & Hmeta & Hrun).
  subst run. rewrite Hrun. cbn. eexists. split; [reflexivity|]. cbn.
  assert (Forall (λ t, ∃ rate,
            resolves (committed w (new_order w uuid email name total) tickets)
              t rate) tickets) as Hres.
  { destruct Hpass as [Hres _]. eapply Forall_impl; [exact Hres|].
    intros t [rate Hrate]. exists rate.
    eapply Rate_objects_get_table; [|exact Hrate]. reflexivity. }
  destruct (add_metadata_spec env _ tickets 0
              (SubmitOrder.base_payload env (new_order w uuid email name total))
              Hres) as (payload' & Hrun' & Hother & _).
  rewrite Hmeta in Hrun'. injection Hrun' as <-.
  rewrite !Hother by
    (intros c j _ _; destruct (metadata_item_prefix c j) as [rest ->];
     discriminate).
  exact (base_payload_names env (new_order w uuid email name total)).
Qed.

Lemma C6_purchaser_name_fields_witness :
  let run := SubmitOrder.post Sample.env "uuid-2" Sample.request Sample.fits in
  ∃ sent,
    outbox run.2 = outbox Sample.fits ++ [sent]
    ∧ sent_data sent !! "BILL_CUSTOMER_FIRSTNAME"
      = Some (qp (first_token "Jane Doe"))
    ∧ sent_data sent !! "BILL_CUSTOMER_LASTNAME"
      = Some (if Str.has_space "Jane Doe" then qp (last_token "Jane Doe")
              else EmptyString).
Proof.
  exact (C6_purchaser_name_fields Sample.env "uuid-2" Sample.request
           Sample.fits _ _ _ _ _ sample_fits_order sample_fits_passes).
Defined.

(** The two names of the specification, and names with more spaces. *)
Example names_in_payload :
  let fields name :=
    let p := SubmitOrder.base_payload Sample.env
               (Order.mk 1 "p@example.org" name "1.00" "u" None None) in
    (p !! "BILL_CUSTOMER_FIRSTNAME", p !! "BILL_CUSTOMER_LASTNAME") in
  fields "Jane Doe" = (Some "Jane", Some "Doe")
  ∧ fields "Madonna" = (Some "Madonna", Some EmptyString)
  ∧ fields "Mary Ann O'Neil" = (Some "Mary", Some "O%27Neil")
  ∧ fields "Jane " = (Some "Jane", Some EmptyString)
  ∧ fields " Doe" = (Some EmptyString, Some "Doe").
Proof. vm_compute. repeat split. Qed.

(** ** The metadata blocks of the payload *)

(** C8. For a successful submission, the payload sent to the gateway
    holds, for every ticket i of the session order, a metadata block:
    the description is the rate's name, the URL-escaped attendee name and
    the attendee email ("rate: name (email)"), the quantity is the
    string "1", unit price and extended price are both the rate's price,
    and the two accounting codes are the configured ones. *)
Theorem C8_metadata_blocks env uuid request w order_data tickets
    email name total :
  session_order w order_data tickets email name total →
  passes_capacity_check env w tickets →
  let run := SubmitOrder.post env uuid request w in
  ∃ sent,
    outbox run.2 = outbox w ++ [sent]
    ∧ ∀ i ticket, tickets !! i = Some ticket →
        ∃ rate,
          resolves w ticket rate
          ∧ sent_data sent !! SubmitOrder.metadata_item 0 i
            = Some (Rate.name rate +:+ ": " +:+ qp (Ticket.name ticket)
                    +:+ " (" +:+ Ticket.email ticket +:+ ")")
          ∧ sent_data sent !! SubmitOrder.metadata_item 1 i = Some "1"
          ∧ sent_data sent !! SubmitOrder.metadata_item 2 i
            = Some (Decimal.to_string (Rate.price rate))
          ∧ sent_data sent !! SubmitOrder.metadata_item 3 i
            = Some (Decimal.to_string (Rate.price rate))
          ∧ sent_data sent !! SubmitOrder.metadata_item 4 i
            = Some (PSF_SPEEDTYPE (settings env))
          ∧ sent_data sent !! SubmitOrder.metadata_item 5 i
            = Some (PSF_ACCT_NUMBER (settings env)).
Proof.
  intros Horder Hpass run.
  destruct (post_success env uuid request w _ _ _ _ _ Horder Hpass)
    as (payload & Hmeta & Hrun).
  subst run. rewrite Hrun. cbn. eexists. split; [reflexivity|]. cbn.
  set (w1 := committed w (new_order w uuid email name total) tickets) in *.
  destruct Hpass as [Hres _].
  assert (Forall (λ t, ∃ rate, resolves w1 t rate) tickets) as Hres1.
  { eapply Forall_impl; [exact Hres|]. intros t [rate Hrate]. exists rate.
    eapply Rate_objects_get_table; [|exact Hrate]. reflexivity. }
  destruct (add_metadata_spec env w1 tickets 0
              (SubmitOrder.base_payload env (new_order w uuid email name total))
              Hres1) as (payload' & Hrun' & _ & Hblocks).
  rewrite Hmeta in Hrun'. injection Hrun' as <-.
  intros i ticket Hi.
  assert (In ticket tickets) as Hin
    by (apply list_elem_of_In, list_elem_of_lookup; eauto).
  rewrite Forall_forall in Hres. destruct (Hres ticket) as [rate Hrate].
  { apply list_elem_of_In. exact Hin. }
  exists rate. split; [exact Hrate|].
  apply (Hblocks i ticket rate Hi).
  eapply Rate_objects_get_table; [|exact Hrate]. reflexivity.
Qed.

Lemma C8_metadata_blocks_witness :
  let run := SubmitOrder.post Sample.env "uuid-2" Sample.request Sample.fits in
  ∃ sent,
    outbox run.2 = outbox Sample.fits ++ [sent]
    ∧ ∀ i ticket, [Sample.jane 10; Sample.joe 11] !! i = Some ticket →
        ∃ rate,
          resolves Sample.fits ticket rate
          ∧ sent_data sent !! SubmitOrder.metadata_item 0 i
            = Some (Rate.name rate +:+ ": " +:+ qp (Ticket.name ticket)
                    +:+ " (" +:+ Ticket.email ticket +:+ ")")
          ∧ sent_data sent !! SubmitOrder.metadata_item 1 i = Some "1"
          ∧ sent_data sent !! SubmitOrder.metadata_item 2 i
            = Some (Decimal.to_string (Rate.price rate))
          ∧ sent_data sent !! SubmitOrder.metadata_item 3 i
            = Some (Decimal.to_string (Rate.price rate))
          ∧ sent_data sent !! SubmitOrder.metadata_item 4 i
            = Some (PSF_SPEEDTYPE (settings Sample.env))
          ∧ sent_data sent !! SubmitOrder.metadata_item 5 i
            = Some (PSF_ACCT_NUMBER (settings Sample.env)).
Proof.
  exact (C8_metadata_blocks Sample.env "uuid-2" Sample.request
           Sample.fits _ _ _ _ _ sample_fits_order sample_fits_passes).
Defined.

Example sample_payload :
  let run := SubmitOrder.post Sample.env "uuid-2" Sample.request Sample.fits in
  sent_data <$> outbox run.2
  = [list_to_map
       [("LMID", "LM-1"); ("unique_id", "uuid-2"); ("sTotal", "149.50");
        ("webTitle", "QIIME workshops");
        ("Trans_Desc", "Workshop registration");
        ("contact_info", "workshops@example.org");
        ("BILL_CUSTOMER_EMAIL", "jane@example.org");
        ("BILL_CUSTOMER_FIRSTNAME", "Jane");
        ("BILL_CUSTOMER_LASTNAME", "Doe");
        ("note", EmptyString); ("arrayname", "metadata");
        ("metadata_item_0,0", "standard: Jane+Doe (jane@example.org)");
        ("metadata_item_1,0", "1");
        ("metadata_item_2,0", "100.00");
        ("metadata_item_3,0", "100.00");
        ("metadata_item_4,0", "SPD-7");
        ("metadata_item_5,0", "ACCT-9");
        ("metadata_item_0,1", "student: Joe+%C3%96l (joe@example.org)");
        ("metadata_item_1,1", "1");
        ("metadata_item_2,1", "49.50");
        ("metadata_item_3,1", "49.50");
        ("metadata_item_4,1", "SPD-7");
        ("metadata_item_5,1", "ACCT-9")]].
Proof. vm_compute. reflexivity. Qed.

(** ** The session guard of the downstream steps *)

Lemma guard_redirects (super_get : M Response) slug w :
  session w !! "order" = None →
  SessionConfirmMixin.get super_get slug w
  = (Return (HttpResponseRedirect (payments_details slug)), w).
Proof.
  intros H. unfold SessionConfirmMixin.get. rewrite run_bind. cbn.
  rewrite H. reflexivity.
Qed.

(** Without a session order, the attendee form and the confirmation page
    redirect to the rate selector and change nothing. *)
Lemma OrderDetail_get_without_order request slug w :
  session w !! "order" = None →
  OrderDetail.get request slug w
  = (Return (HttpResponseRedirect (payments_details slug)), w).
Proof. apply guard_redirects. Qed.

Lemma ConfirmOrder_get_without_order request slug w :
  session w !! "order" = None →
  ConfirmOrder.get request slug w
  = (Return (HttpResponseRedirect (payments_details slug)), w).
Proof. apply guard_redirects. Qed.

(** The submission has no such guard: it fails on the missing key. *)
Lemma SubmitOrder_post_without_order env uuid request w :
  session w !! "order" = None →
  SubmitOrder.post env uuid request w = (Raise (KeyError "order"), w).
Proof.
  intros H. unfold SubmitOrder.post. rewrite run_bind. cbn.
  rewrite (run_bind (getitem _ _ ≫= _)), run_bind.
  rewrite (run_getitem_none _ _ _ H). reflexivity.
Qed.

(** C3. A submission POST whose session has no 'order' entry: the two
    guarded steps redirect to the rate selector, but the order submission
    raises KeyError('order') instead of redirecting; nothing is mutated
    in any of the three. *)
Theorem C3_submit_without_order_raises :
  let w := Sample.world ∅ in
  OrderDetail.get Sample.request "intro-2024" w
  = (Return (HttpResponseRedirect (payments_details "intro-2024")), w)
  ∧ ConfirmOrder.get Sample.request "intro-2024" w
    = (Return (HttpResponseRedirect (payments_details "intro-2024")), w)
  ∧ SubmitOrder.post Sample.env "uuid-2" Sample.request w
    = (Raise (KeyError "order"), w).
Proof. vm_compute. repeat split. Qed.

(** After a successful submission the session order is gone, so a second
    submission fails the same way and creates no second order. *)
Lemma resubmission_raises env uuid uuid' request w order_data tickets
    email name total :
  session_order w order_data tickets email name total →
  passes_capacity_check env w tickets →
  let w' := (SubmitOrder.post env uuid request w).2 in
  SubmitOrder.post env uuid' request w' = (Raise (KeyError "order"), w').
Proof.
  intros Horder Hpass w'. apply SubmitOrder_post_without_order.
  subst w'.
  destruct (post_success env uuid request w _ _ _ _ _ Horder Hpass)
    as (payload & _ & ->).
  cbn. apply lookup_delete_eq.
Qed.

(** ** The catalog *)

Lemma get_queryset_run code w :
  WorkshopList.get_queryset code w = (Return (catalog_non_draft (db w) code), w).
Proof.
  unfold WorkshopList.get_queryset, catalog_non_draft, matching_code.
  rewrite run_bind. cbn.
  destruct (WorkshopList.truthy code);
    destruct (List.filter
                (λ x, bool_decide (Some (Workshop.private_code x) = code))
                (workshop_table (db w))); reflexivity.
Qed.

(** C7 (as amended). For every catalog request, the workshops listed are
    those matching the supplied private access code when a code is
    supplied and some workshop matches it, and otherwise all non-draft
    workshops, public or not; the access code, when supplied, is stored
    in the session. *)
Theorem C7_catalog_sequence request w :
  let code := GET request !! "code" in
  WorkshopList.get request w
  = (Return (TemplateResponse
               (WorkshopListContext (catalog_non_draft (db w) code))),
     match code with
     | Some c => if WorkshopList.truthy code
                 then with_session w (<["private_code" := SStr c]> (session w))
                 else w
     | None => w
     end).
Proof.
  unfold WorkshopList.get. destruct (GET request !! "code") as [c|]; cbn zeta.
  - destruct (WorkshopList.truthy (Some c)); mrun;
      rewrite get_queryset_run; mrun; reflexivity.
  - mrun. rewrite get_queryset_run. mrun. reflexivity.
Qed.

(** The claim as stated fails: with no access code, the catalog lists the
    unlisted (non-public) workshop too. *)
Lemma C7_private_workshop_listed :
  let w := Sample.world ∅ in
  (WorkshopList.get_queryset None w).1
  = Return [Sample.intro; Sample.hidden]
  ∧ Workshop.public Sample.hidden = false
  ∧ Workshop.draft Sample.hidden = false
  ∧ catalog_public_non_draft (db w) None = [Sample.intro]
  ∧ (WorkshopList.get_queryset None w).1
    ≠ Return (catalog_public_non_draft (db w) None).
Proof. vm_compute. repeat split. discriminate. Qed.

(** ** The rate selector *)

Lemma get_object_world slug (w w' : World) r :
  WorkshopDetail.get_object slug w = (r, w') → w' = w.
Proof.
  unfold WorkshopDetail.get_object. rewrite run_bind. cbn.
  destruct (List.filter _ _) as [|x [|y l]]; cbv [mret M_ret raise];
    congruence.
Qed.

Lemma get_context_data_world env object (w : World) :
  ∃ context,
    WorkshopDetail.get_context_data env object w = (Return context, w).
Proof. eexists. reflexivity. Qed.

(** C10. Every GET of the rate selector overwrites the session's
    'discount_code' entry with the request's 'rate' parameter, None when
    the parameter is absent, whatever the entry held before and whatever
    the request ends in (page, draft redirect or not-found); nothing else
    in the world changes. *)
Theorem C10_discount_code_overwritten env request slug w :
  let run := WorkshopDetail.get env request slug w in
  run.2 = with_session w
            (<["discount_code" :=
                 match GET request !! "rate" with
                 | Some code => SStr code
                 | None => SNone
                 end]> (session w))
  ∧ session run.2 !! "discount_code"
    = Some (match GET request !! "rate" with
            | Some code => SStr code
            | None => SNone
            end).
Proof.
  cbn zeta.
  assert ((WorkshopDetail.get env request slug w).2
          = with_session w
              (<["discount_code" := WorkshopDetail.rate_parameter request]>
                 (session w))) as H.
  { unfold WorkshopDetail.get. rewrite run_bind. cbn. rewrite run_bind. cbn.
    rewrite run_bind.
    destruct (WorkshopDetail.get_object slug _) as [[object|e] w'] eqn:Hobj;
      apply get_object_world in Hobj; subst w'; [|reflexivity].
    rewrite run_bind.
    destruct (get_context_data_world env object
                (mkWorld (db w)
                   (<["discount_code" := WorkshopDetail.rate_parameter request]>
                      (session w))
                   (messages w) (logger w) (outbox w))) as [context ->].
    destruct (negb (is_authenticated request) && Workshop.draft object);
      reflexivity. }
  split; [exact H|]. rewrite H. cbn. apply lookup_insert_eq.
Qed.

(** A code stashed by an earlier visit is lost on a later visit without
    the parameter, here one that ends in the draft redirect. *)
Example discount_code_clobbered :
  let w := Sample.world {["discount_code" := SStr "early-bird"]} in
  let run := WorkshopDetail.get Sample.env Sample.request "draft-2025" w in
  run.1 = Return (HttpResponseRedirect payments_index)
  ∧ session run.2 !! "discount_code" = Some SNone.
Proof. vm_compute. repeat split. Qed.

(** C9. A GET of the rate selector for a draft workshop answers a
    non-authenticated viewer with a redirect to the catalog root, and
    an authenticated viewer with the workshop page, rendered as for any
    workshop. *)
Theorem C9_draft_workshop_access env request slug w object :
  List.filter (λ x, bool_decide (Workshop.slug x = slug))
    (workshop_table (db w)) = [object] →
  Workshop.draft object = true →
  let w' := with_session w
              (<["discount_code" := WorkshopDetail.rate_parameter request]>
                 (session w)) in
  let run := WorkshopDetail.get env request slug w in
  if is_authenticated request then
    ∃ context,
      WorkshopDetail.get_context_data env object w' = (Return context, w')
      ∧ run.1 = Return (TemplateResponse context)
  else run.1 = Return (HttpResponseRedirect payments_index).
Proof.
  intros Hobj Hdraft w' run.
  destruct (get_context_data_world env object w') as [context Hctx].
  assert (run.1 = Return (if is_authenticated request
                          then TemplateResponse context
                          else HttpResponseRedirect payments_index)) as Hrun.
  { subst run. unfold WorkshopDetail.get. mrun. fold w'.
    unfold WorkshopDetail.get_object. mrun.
    replace (db w') with (db w) by reflexivity. rewrite Hobj. mrun.
    rewrite Hctx, Hdraft. destruct (is_authenticated request); reflexivity. }
  destruct (is_authenticated request); [|exact Hrun].
  exists context. split; [exact Hctx|exact Hrun].
Qed.

Lemma C9_draft_workshop_access_witness :
  let request := mkRequest ∅ ∅ EmptyString true in
  let w := Sample.world ∅ in
  let w' := with_session w
              (<["discount_code" := WorkshopDetail.rate_parameter request]>
                 (session w)) in
  let run := WorkshopDetail.get Sample.env request "draft-2025" w in
  if is_authenticated request then
    ∃ context,
      WorkshopDetail.get_context_data Sample.env Sample.upcoming w'
      = (Return context, w')
      ∧ run.1 = Return (TemplateResponse context)
  else run.1 = Return (HttpResponseRedirect payments_index).
Proof.
  apply (C9_draft_workshop_access Sample.env
           (mkRequest ∅ ∅ EmptyString true) "draft-2025" (Sample.world ∅)
           Sample.upcoming).
  - vm_compute. reflexivity.
  - reflexivity.
Defined.

Example draft_for_anonymous_and_staff :
  let w := Sample.world ∅ in
  (WorkshopDetail.get Sample.env (mkRequest ∅ ∅ EmptyString false)
     "draft-2025" w).1
  = Return (HttpResponseRedirect payments_index)
  ∧ (WorkshopDetail.get Sample.env (mkRequest ∅ ∅ EmptyString true)
       "draft-2025" w).1
    = Return (TemplateResponse
                (WorkshopDetailContext Sample.upcoming [] true)).
Proof. vm_compute. repeat split. Qed.

(** ** The settlement callback *)

Lemma matching_unique (d : Db) (order : Order.t) :
  NoDup (Order.transaction_id <$> order_table d) →
  In order (order_table d) →
  OrderCallback.matching (Order.transaction_id order) d = [order].
Proof.
  unfold OrderCallback.matching.
  induction (order_table d) as [|row table IH]; cbn; [tauto|].
  intros Hnd Hin. apply NoDup_cons in Hnd as [Hnotin Hnd].
  assert (∀ o, In o table → Order.transaction_id o ∈ Order.transaction_id <$> table)
    as Hmem.
  { intros o Ho. apply list_elem_of_fmap. exists o. split; [reflexivity|].
    apply list_elem_of_In, Ho. }
  destruct Hin as [->|Hin].
  - rewrite bool_decide_eq_true_2 by reflexivity. f_equal.
    clear IH. induction table as [|row' table IH']; [reflexivity|]. cbn.
    rewrite bool_decide_eq_false_2.
    + apply IH'.
      * intros H. apply Hnotin. cbn. right. exact H.
      * cbn in Hnd. apply NoDup_cons in Hnd. tauto.
      * intros o Ho. specialize (Hmem o (or_intror Ho)). cbn in Hmem.
        apply list_elem_of_fmap. exists o. split; [reflexivity|].
        apply list_elem_of_In, Ho.
    + intros Heq. apply Hnotin. cbn. rewrite <- Heq. left.
  - rewrite bool_decide_eq_false_2; [apply IH; assumption|].
    intros Heq. apply Hnotin. rewrite Heq. apply Hmem, Hin.
Qed.


Lemma callback_logs_and_rejects request w (e : Exn) :
  OrderCallback.catches e = true →
  (logger_error (mkLog e (body request)) ;;
   mret (Some (HttpResponse EmptyString 400))) w
  = (Return (Some (HttpResponse EmptyString 400)),
     with_log w (mkLog e (body request))).
Proof. reflexivity. Qed.


(** ** Exact decimal arithmetic *)

Lemma ndigits_fuel_le fuel : ∀ (c : N) (k : nat),
  (1 <= k)%nat → (c < 10 ^ N.of_nat k)%N →
  Decimal.ndigits_fuel fuel c <= Z.of_nat k.
Proof.
  induction fuel as [|fuel IH]; intros c k Hk Hc; cbn; [lia|].
  destruct (c <? 10)%N eqn:E; [lia|]. apply N.ltb_ge in E.
  destruct k as [|[|k]]; [lia| |].
  - cbn in Hc. lia.
  - assert (Decimal.ndigits_fuel fuel (c / 10) <= Z.of_nat (S k)); [|lia].
    apply IH; [lia|]. apply N.Div0.div_lt_upper_bound.
    replace (N.of_nat (S (S k))) with (N.succ (N.of_nat (S k))) in Hc by lia.
    rewrite N.pow_succ_r' in Hc. exact Hc.
Qed.

Lemma fix_small (d : Decimal.t) :
  Z.of_N (Decimal.coef d) < 10 ^ Decimal.prec → Decimal.fix_ d = d.
Proof.
  intros H. unfold Decimal.fix_.
  assert (Decimal.ndigits (Decimal.coef d) <= Decimal.prec) as Hn.
  { unfold Decimal.ndigits. apply (ndigits_fuel_le _ _ 28); [lia|].
    apply N2Z.inj_lt. rewrite N2Z.inj_pow. exact H. }
  apply Z.leb_le in Hn. rewrite Hn. reflexivity.
Qed.

Section Exact.

Variable s : Z.

Local Abbreviation mag := (Decimal.magnitude s).

Lemma scaled_abs d : Z.abs (Decimal.scaled s d) = mag d.
Proof.
  unfold Decimal.scaled, Decimal.signed, mag.
  assert (0 <= 10 ^ (Decimal.exp d + s)) by (apply Z.pow_nonneg; lia).
  destruct (Decimal.sign d); rewrite Z.abs_mul; lia.
Qed.

Lemma coef_le_mag d : - s <= Decimal.exp d → Z.of_N (Decimal.coef d) <= mag d.
Proof.
  intros H. unfold Decimal.magnitude.
  assert (1 <= 10 ^ (Decimal.exp d + s)).
  { replace 1 with (10 ^ 0) by reflexivity. apply Z.pow_le_mono_r; lia. }
  nia.
Qed.

Lemma exp_small d :
  Decimal.coef d ≠ 0%N → - s <= Decimal.exp d → mag d < 10 ^ Decimal.prec →
  Decimal.exp d + s < Decimal.prec.
Proof.
  intros Hc He Hm. unfold Decimal.magnitude in Hm.
  assert (10 ^ (Decimal.exp d + s) < 10 ^ Decimal.prec) as Hp.
  { assert (0 < 10 ^ (Decimal.exp d + s)) by (apply Z.pow_pos_nonneg; lia).
    nia. }
  apply Z.pow_lt_mono_r_iff in Hp; unfold Decimal.prec in *; lia.
Qed.

Lemma rescale_coef d e :
  e <= Decimal.exp d → - s <= e →
  Z.of_N (Decimal.coef (Decimal.rescale d e)) * 10 ^ (e + s) = mag d.
Proof.
  intros He Hs. unfold Decimal.rescale, mag. cbn.
  rewrite N2Z.inj_mul, N2Z.inj_pow, Z2N.id by lia. cbn.
  rewrite <- Z.mul_assoc, <- Z.pow_add_r by lia.
  f_equal. f_equal. lia.
Qed.

Lemma scaled_mk sg c e :
  Decimal.scaled s (Decimal.mk sg c e)
  = (if sg then - Z.of_N c else Z.of_N c) * 10 ^ (e + s).
Proof. reflexivity. Qed.

Lemma scaled_sign d :
  Decimal.scaled s d = if Decimal.sign d then - mag d else mag d.
Proof.
  unfold Decimal.scaled, Decimal.signed, mag. destruct (Decimal.sign d); lia.
Qed.

(** A product whose exact result fits the precision is exact. *)
Lemma mul_quantity (n : N) (price : Decimal.t) :
  - s <= Decimal.exp price →
  Z.of_N n * mag price < 10 ^ Decimal.prec →
  let p := Decimal.mul (Decimal.mk false n 0) price in
  - s <= Decimal.exp p
  ∧ Decimal.scaled s p = Z.of_N n * Decimal.scaled s price
  ∧ mag p = Z.of_N n * mag price.
Proof.
  intros He Hm. unfold Decimal.mul. cbn [Decimal.sign Decimal.coef Decimal.exp].
  assert (mag (Decimal.mk (xorb false (Decimal.sign price))
                 (n * Decimal.coef price) (0 + Decimal.exp price))
          = Z.of_N n * mag price) as Hmag.
  { unfold Decimal.magnitude. cbn [Decimal.coef Decimal.exp].
    rewrite N2Z.inj_mul, Z.add_0_l. ring. }
  rewrite fix_small.
  - cbn zeta. split; [cbn; lia|]. split; [|exact Hmag].
    rewrite !scaled_sign, Hmag. cbn. destruct (Decimal.sign price); lia.
  - eapply Z.le_lt_trans; [apply coef_le_mag; cbn; lia|].
    rewrite Hmag. exact Hm.
Qed.

(** A sum whose operands together fit the precision is exact. *)
Lemma add_exact (a b : Decimal.t) :
  - s <= Decimal.exp a → - s <= Decimal.exp b →
  mag a + mag b < 10 ^ Decimal.prec →
  let r := Decimal.add a b in
  - s <= Decimal.exp r
  ∧ Decimal.scaled s r = Decimal.scaled s a + Decimal.scaled s b
  ∧ mag r <= mag a + mag b.
Proof.
  intros Ha Hb Hm.
  assert (0 <= mag a) as Hma by (unfold Decimal.magnitude; apply Z.mul_nonneg_nonneg;
    [lia|apply Z.pow_nonneg; lia]).
  assert (0 <= mag b) as Hmb by (unfold Decimal.magnitude; apply Z.mul_nonneg_nonneg;
    [lia|apply Z.pow_nonneg; lia]).
  set (e := Z.min (Decimal.exp a) (Decimal.exp b)).
  assert (- s <= e) as He by (subst e; lia).
  assert (0 < 10 ^ (e + s)) as Hp by (apply Z.pow_pos_nonneg; lia).
  assert (∀ sg c, Z.of_N c * 10 ^ (e + s) < 10 ^ Decimal.prec →
            Decimal.fix_ (Decimal.mk sg c e) = Decimal.mk sg c e) as Hfix.
  { intros sg c Hc. apply fix_small. cbn.
    assert (1 <= 10 ^ (e + s)) by lia. nia. }
  pose proof (rescale_coef a e ltac:(subst e; lia) He) as Hra.
  pose proof (rescale_coef b e ltac:(subst e; lia) He) as Hrb.
  unfold Decimal.add. fold e.
  destruct (Decimal.coef a =? 0)%N eqn:Eza;
    destruct (Decimal.coef b =? 0)%N eqn:Ezb; cbn [andb].
  - (* both zero *)
    apply N.eqb_eq in Eza, Ezb.
    rewrite Hfix by (cbn; lia). cbn zeta.
    split; [exact He|]. rewrite !scaled_sign. unfold Decimal.magnitude. cbn.
    rewrite Eza, Ezb. cbn. split; [|lia].
    destruct (Decimal.sign a), (Decimal.sign b); reflexivity.
  - (* a is zero *)
    apply N.eqb_eq in Eza. apply N.eqb_neq in Ezb.
    pose proof (exp_small b Ezb Hb ltac:(lia)) as Hsmall.
    replace (Z.max e (Decimal.exp b - Decimal.prec - 1)) with e
      by (unfold Decimal.prec in *; lia).
    assert (mag a = 0) as Hza by (unfold Decimal.magnitude; rewrite Eza; reflexivity).
    change (Decimal.rescale b e)
      with (Decimal.mk (Decimal.sign b) (Decimal.coef (Decimal.rescale b e)) e).
    rewrite (Hfix (Decimal.sign b) (Decimal.coef (Decimal.rescale b e)))
      by (rewrite Hrb; lia).
    cbn zeta. split; [exact He|].
    rewrite (scaled_sign a), Hza, scaled_mk, (scaled_sign b).
    unfold Decimal.magnitude at 3. cbn [Decimal.coef Decimal.exp]. rewrite Hrb.
    destruct (Decimal.sign b), (Decimal.sign a); lia.
  - (* b is zero *)
    apply N.eqb_eq in Ezb. apply N.eqb_neq in Eza.
    pose proof (exp_small a Eza Ha ltac:(lia)) as Hsmall.
    replace (Z.max e (Decimal.exp a - Decimal.prec - 1)) with e
      by (unfold Decimal.prec in *; lia).
    assert (mag b = 0) as Hzb by (unfold Decimal.magnitude; rewrite Ezb; reflexivity).
    change (Decimal.rescale a e)
      with (Decimal.mk (Decimal.sign a) (Decimal.coef (Decimal.rescale a e)) e).
    rewrite (Hfix (Decimal.sign a) (Decimal.coef (Decimal.rescale a e)))
      by (rewrite Hra; lia).
    cbn zeta. split; [exact He|].
    rewrite (scaled_sign b), Hzb, scaled_mk, (scaled_sign a).
    unfold Decimal.magnitude at 3. cbn [Decimal.coef Decimal.exp]. rewrite Hra.
    destruct (Decimal.sign b), (Decimal.sign a); lia.
  - (* neither is zero *)
    set (ca := Decimal.coef (Decimal.rescale a e)) in *.
    set (cb := Decimal.coef (Decimal.rescale b e)) in *.
    rewrite (scaled_sign a), (scaled_sign b).
    assert (∀ sg c, mag (Decimal.mk sg c e) = Z.of_N c * 10 ^ (e + s))
      as Hmk by reflexivity.
    destruct (Bool.eqb (Decimal.sign a) (Decimal.sign b)) eqn:Esign.
    + apply Bool.eqb_prop in Esign.
      rewrite Hfix by (rewrite N2Z.inj_add; lia). cbn zeta.
      split; [exact He|]. rewrite scaled_mk, Hmk, N2Z.inj_add, <- Esign.
      destruct (Decimal.sign a); split; lia.
    + apply Bool.eqb_false_iff in Esign.
      destruct (ca =? cb)%N eqn:Eeq.
      * apply N.eqb_eq in Eeq.
        rewrite Hfix by (change (Z.of_N 0) with 0; lia). cbn zeta.
        split; [exact He|]. rewrite scaled_mk, Hmk.
        change (Z.of_N 0) with 0.
        assert (mag a = mag b) by (rewrite <- Hra, <- Hrb, Eeq; reflexivity).
        destruct (Decimal.sign a), (Decimal.sign b); try congruence; split; lia.
      * apply N.eqb_neq in Eeq.
        destruct (cb <? ca)%N eqn:Elt.
        -- apply N.ltb_lt in Elt.
           rewrite Hfix by (rewrite N2Z.inj_sub by lia; lia). cbn zeta.
           split; [exact He|]. rewrite scaled_mk, Hmk, N2Z.inj_sub by lia.
           destruct (Decimal.sign a), (Decimal.sign b); try congruence;
             split; lia.
        -- apply N.ltb_ge in Elt.
           rewrite Hfix by (rewrite N2Z.inj_sub by lia; lia). cbn zeta.
           split; [exact He|]. rewrite scaled_mk, Hmk, N2Z.inj_sub by lia.
           destruct (Decimal.sign a), (Decimal.sign b); try congruence;
             split; lia.
Qed.

Lemma add_exact_abs (a b : Decimal.t) :
  - s <= Decimal.exp a → - s <= Decimal.exp b →
  Z.abs (Decimal.scaled s a) + Z.abs (Decimal.scaled s b)
  < 10 ^ Decimal.prec →
  - s <= Decimal.exp (Decimal.add a b)
  ∧ Decimal.scaled s (Decimal.add a b)
    = Decimal.scaled s a + Decimal.scaled s b
  ∧ Z.abs (Decimal.scaled s (Decimal.add a b))
    <= Z.abs (Decimal.scaled s a) + Z.abs (Decimal.scaled s b).
Proof. rewrite !scaled_abs. apply add_exact. Qed.

Lemma mul_quantity_abs (n : N) (price : Decimal.t) :
  - s <= Decimal.exp price →
  Z.of_N n * Z.abs (Decimal.scaled s price) < 10 ^ Decimal.prec →
  - s <= Decimal.exp (Decimal.mul (Decimal.mk false n 0) price)
  ∧ Decimal.scaled s (Decimal.mul (Decimal.mk false n 0) price)
    = Z.of_N n * Decimal.scaled s price
  ∧ Z.abs (Decimal.scaled s (Decimal.mul (Decimal.mk false n 0) price))
    = Z.of_N n * Z.abs (Decimal.scaled s price).
Proof. rewrite !scaled_abs. apply mul_quantity. Qed.

End Exact.

(** ** The order total of the rate selection *)

Lemma read_sign_digit c d rest :
  Decimal.digit_of c = Some d →
  Decimal.read_sign (String c rest) = (false, String c rest).
Proof.
  destruct c as [[] [] [] [] [] [] [] []]; cbn; intros H;
    first [reflexivity | discriminate H].
Qed.

Lemma read_digits_all s : ∀ acc len,
  all_digits s = true →
  Decimal.read_digits acc len s
  = (digits_value acc s, (len + String.length s)%nat, EmptyString).
Proof.
  induction s as [|c s IH]; intros acc len H; cbn.
  - rewrite Nat.add_0_r. reflexivity.
  - cbn in H. apply andb_prop in H as [Hc Hs].
    apply bool_decide_eq_true_1 in Hc. destruct Hc as [d Hd].
    rewrite Hd. cbn. rewrite (IH _ _ Hs). f_equal. f_equal. lia.
Qed.

(** [Decimal] of a plain numeral is that integer, with exponent 0. *)
Lemma Decimal_of_numeral s n :
  numeral s = Some n →
  Decimal.of_string s = Some (Decimal.mk false n 0).
Proof.
  unfold numeral. destruct s as [|c s]; [discriminate|].
  destruct (all_digits (String c s)) eqn:Hall; [|discriminate].
  intros [= <-]. unfold Decimal.of_string.
  pose proof Hall as Hc. cbn in Hc. apply andb_prop in Hc as [Hc _].
  apply bool_decide_eq_true_1 in Hc. destruct Hc as [d Hd].
  rewrite (read_sign_digit _ _ _ Hd), (read_digits_all _ _ _ Hall).
  cbn [String.length Nat.add]. reflexivity.
Qed.

Lemma is_valid_fields env d form :
  WorkshopDetail.is_valid env d form = true →
  Forall (λ rate, ∃ str n, data form !! Rate.name rate = Some str
                           ∧ numeral str = Some n)
    (rate_set form).
Proof.
  unfold WorkshopDetail.is_valid. rewrite forallb_forall, Forall_forall.
  intros H rate Hin. specialize (H rate (proj1 (list_elem_of_In _ _) Hin)).
  destruct (data form !! Rate.name rate) as [str|]; [|discriminate].
  destruct (numeral str) as [n|] eqn:Hn; [|discriminate]. eauto.
Qed.

Lemma sum_total_exact scale form_data : 0 <= scale → ∀ rates acc w,
  Forall (λ rate, ∃ str n, form_data !! Rate.name rate = Some str
                           ∧ numeral str = Some n) rates →
  (∀ rate, In rate rates → - scale <= Decimal.exp (Rate.price rate)) →
  - scale <= Decimal.exp acc →
  Z.abs (Decimal.scaled scale acc)
  + total_magnitude scale (mkForm form_data rates) < 10 ^ Decimal.prec →
  ∃ total,
    WorkshopDetail.sum_total form_data rates acc w = (Return total, w)
    ∧ Decimal.scaled scale total
      = Decimal.scaled scale acc + exact_total scale (mkForm form_data rates).
Proof.
  intros Hscale. induction rates as [|rate rates IH];
    intros acc w Hfields Hexp Hacc Hfit.
  - exists acc. split; [reflexivity|]. unfold exact_total. cbn. lia.
  - apply Forall_cons in Hfields as [(str & n & Hstr & Hn) Hfields].
    change (total_magnitude scale (mkForm form_data (rate :: rates)))
      with (quantity form_data rate
            * Z.abs (Decimal.scaled scale (Rate.price rate))
            + total_magnitude scale (mkForm form_data rates)) in Hfit.
    assert (quantity form_data rate = Z.of_N n) as Hq
      by (unfold quantity; rewrite Hstr, Hn; reflexivity).
    rewrite Hq in Hfit.
    assert (0 <= total_magnitude scale (mkForm form_data rates)) as Hnonneg.
    { unfold total_magnitude. cbn. clear.
      induction rates as [|r rates IH]; cbn; [lia|].
      assert (0 <= quantity form_data r)
        by (unfold quantity; repeat case_match; lia).
      nia. }
    assert (0 <= Z.of_N n * Z.abs (Decimal.scaled scale (Rate.price rate)))
      as Hterm by nia.
    destruct (mul_quantity_abs scale n (Rate.price rate))
      as (Hpe & Hps & Hpm); [apply Hexp; left; reflexivity|lia|].
    destruct (add_exact_abs scale acc
                (Decimal.mul (Decimal.mk false n 0) (Rate.price rate)))
      as (Hse & Hss & Hsm); [exact Hacc|exact Hpe|lia|].
    destruct (IH (Decimal.add acc
                    (Decimal.mul (Decimal.mk false n 0) (Rate.price rate))) w
                Hfields) as (total & Hrun & Htotal).
    + intros r Hr. apply Hexp. right. exact Hr.
    + exact Hse.
    + lia.
    + exists total. split.
      * cbn. rewrite run_bind, (run_getitem_some _ _ _ _ Hstr). mrun.
        unfold WorkshopDetail.Decimal_of. rewrite (Decimal_of_numeral _ _ Hn).
        mrun. exact Hrun.
      * rewrite Htotal, Hss, Hps. unfold exact_total. cbn. rewrite Hq. lia.
Qed.

(** C4. For every valid rate selection (prices with at most [scale]
    decimals, the order within the 28 digits of the decimal context),
    the order_total written into the session order is the string of a
    decimal that equals, exactly, the sum over the offered rates of
    requested quantity × rate price. *)
Theorem C4_order_total_exact env request slug w object scale :
  List.filter (λ x, bool_decide (Workshop.slug x = slug))
    (workshop_table (db w)) = [object] →
  let form :=
    mkForm (POST request)
      (filter_rates env (db w) object
         (default SNone (session w !! "discount_code"))) in
  WorkshopDetail.is_valid env (db w) form = true →
  within_precision scale form →
  ∃ order_total order,
    WorkshopDetail.post env request slug w
    = (Return (HttpResponseRedirect
                 (payments_order_details (Workshop.slug object))),
       with_session w (<["order" := SOrder order]> (session w)))
    ∧ order !! "order_total" = Some (OStr (Decimal.to_string order_total))
    ∧ Decimal.scaled scale order_total = exact_total scale form.
Proof.
  intros Hobj form Hvalid (Hscale & Hexp & Hfit).
  destruct (sum_total_exact scale (data form) Hscale (rate_set form)
              Decimal.zero w (is_valid_fields _ _ _ Hvalid) Hexp)
    as (total & Hrun & Htotal).
  { cbn. lia. }
  { replace (Z.abs (Decimal.scaled scale Decimal.zero)) with 0
      by (unfold Decimal.scaled; cbn; lia).
    exact Hfit. }
  exists total. eexists. split; [|split].
  - unfold WorkshopDetail.post. mrun.
    unfold WorkshopDetail.get_object. mrun. rewrite Hobj. mrun.
    unfold WorkshopDetail.get_form. mrun. fold form. rewrite Hvalid.
    unfold WorkshopDetail.form_valid. mrun. rewrite Hrun. mrun.
    reflexivity.
  - apply lookup_insert_eq.
  - rewrite Htotal. unfold Decimal.scaled. cbn. lia.
Qed.

Lemma C4_order_total_exact_witness :
  let form :=
    mkForm (POST Sample.selection)
      (filter_rates Sample.env (db (Sample.world ∅)) Sample.intro
         (default SNone (session (Sample.world ∅) !! "discount_code"))) in
  ∃ order_total order,
    WorkshopDetail.post Sample.env Sample.selection "intro-2024"
      (Sample.world ∅)
    = (Return (HttpResponseRedirect
                 (payments_order_details (Workshop.slug Sample.intro))),
       with_session (Sample.world ∅)
         (<["order" := SOrder order]> (session (Sample.world ∅))))
    ∧ order !! "order_total" = Some (OStr (Decimal.to_string order_total))
    ∧ Decimal.scaled 2 order_total = exact_total 2 form.
Proof.
  apply (C4_order_total_exact Sample.env Sample.selection "intro-2024"
           (Sample.world ∅) Sample.intro 2).
  - vm_compute. reflexivity.
  - vm_compute. reflexivity.
  - split; [lia|]. split.
    + intros rate Hin. vm_compute in Hin.
      destruct Hin as [<-|[<-|[]]]; vm_compute; discriminate.
    + vm_compute. reflexivity.
Defined.

(** One standard ticket at 100.00 and two student tickets at 49.50. *)
Example selection_total :
  let run := WorkshopDetail.post Sample.env Sample.selection "intro-2024"
               (Sample.world ∅) in
  run.1 = Return (HttpResponseRedirect (payments_order_details "intro-2024"))
  ∧ session run.2 !! "order"
    = Some (SOrder
              (list_to_map
                 [("standard", OStr "1"); ("student", OStr "2");
                  ("name", OStr "Jane Doe");
                  ("email", OStr "jane@example.org");
                  ("workshop", OStr "intro-2024");
                  ("rates", ORates [(10, "standard"); (11, "student")]);
                  ("order_total", OStr "199.00")])).
Proof. vm_compute. repeat split. Qed.

(** Beyond 28 significant digits the decimal context rounds: a price of
    29 digits loses its last digit in the product. *)
Example product_rounds_beyond_precision :
  let price := Decimal.mk false 10000000000000000000000000001 0 in
  let product := Decimal.mul (Decimal.mk false 1 0) price in
  product = Decimal.mk false 1000000000000000000000000000 1
  ∧ Decimal.to_string product = "1.000000000000000000000000000E+28"
  ∧ Decimal.scaled 0 product ≠ Decimal.scaled 0 price.
Proof. vm_compute. repeat split. discriminate. Qed.


Example callbacks :
  let w := Sample.world ∅ in
  OrderCallback.post Sample.settled w
  = (Return (HttpResponse EmptyString 200),
     mkWorld
       (mkDb [Sample.intro; Sample.hidden; Sample.upcoming]
          [Sample.standard; Sample.student]
          [Order.mk 1 "ann@example.org" "Ann Lee" "100.00" "uuid-1"
             (Some "100.00") (Some "2024-05-01 10:00:00")]
          [OrderItem.mk 1 10 "ann@example.org" "Ann Lee"])
       ∅ [] [] [])
  ∧ OrderCallback.post Sample.unknown w
    = (Return (HttpResponse EmptyString 400),
       with_log w (mkLog (DoesNotExist "Order") (body Sample.unknown)))
  ∧ OrderCallback.post
      (Sample.callback [("unique_id", "uuid-1")] "unique_id=uuid-1") w
    = (Return (HttpResponse EmptyString 400),
       with_log w (mkLog (KeyError "amount") "unique_id=uuid-1")).
Proof. vm_compute. repeat split. Qed.

(** * Further properties of the views *)

(** ** Order submission: what a run can leave behind *)

Lemma tally_world tickets : ∀ acc (w w' : World) r,
  SubmitOrder.tally tickets acc w = (r, w') → w' = w.
Proof.
  induction tickets as [|ticket tickets IH]; intros acc w w' r; cbn.
  - intros [= _ <-]. reflexivity.
  - rewrite run_bind.
    destruct (Rate_objects_get (Ticket.rate ticket) w) as [[rate|e] w1] eqn:E;
      apply Rate_objects_get_world in E; subst w1.
    + apply IH.
    + intros [= _ <-]. reflexivity.
Qed.

Lemma tally_resolves tickets : ∀ acc (w : World) rates,
  SubmitOrder.tally tickets acc w = (Return rates, w) →
  Forall (λ t, ∃ rate, resolves w t rate) tickets.
Proof.
  induction tickets as [|ticket tickets IH]; intros acc w rates; cbn.
  - intros _. constructor.
  - rewrite run_bind.
    destruct (Rate_objects_get (Ticket.rate ticket) w) as [[rate|e] w1] eqn:E;
      [|discriminate].
    pose proof (Rate_objects_get_world _ _ _ _ E). subst w1.
    intros Hrun. constructor; [exists rate; exact E|]. eapply IH, Hrun.
Qed.


Lemma run_get_str (d : gmap string OVal) key w :
  (getitem d key ≫= as_str) w
  = match d !! key with
    | Some (OStr s) => (Return s, w)
    | Some _ => (Raise TypeError, w)
    | None => (Raise (KeyError key), w)
    end.
Proof.
  rewrite run_bind. unfold getitem.
  destruct (d !! key) as [[s| |]|]; reflexivity.
Qed.

Lemma run_get_order (s : gmap string SVal) key w :
  (getitem s key ≫= as_order) w
  = match s !! key with
    | Some (SOrder o) => (Return o, w)
    | Some _ => (Raise TypeError, w)
    | None => (Raise (KeyError key), w)
    end.
Proof.
  rewrite run_bind. unfold getitem.
  destruct (s !! key) as [[| |o]|]; reflexivity.
Qed.

Lemma run_get_tickets (d : gmap string OVal) key w :
  (getitem d key ≫= as_tickets) w
  = match d !! key with
    | Some (OTickets l) => (Return l, w)
    | Some _ => (Raise TypeError, w)
    | None => (Raise (KeyError key), w)
    end.
Proof.
  rewrite run_bind. unfold getitem.
  destruct (d !! key) as [[| |l]|]; reflexivity.
Qed.


(** The run up to the capacity check, by what the session holds. *)
Lemma post_before_tally env uuid request w v :
  session w !! "order" = v →
  match v with
  | Some (SOrder order_data) =>
      match order_data !! "tickets" with
      | Some (OTickets tickets) =>
          match SubmitOrder.tally tickets [] w with
          | (Return rates, _) => True
          | (Raise e, _) =>
              SubmitOrder.post env uuid request w = (Raise e, w)
          end
      | Some _ => SubmitOrder.post env uuid request w = (Raise TypeError, w)
      | None =>
          SubmitOrder.post env uuid request w = (Raise (KeyError "tickets"), w)
      end
  | Some _ => SubmitOrder.post env uuid request w = (Raise TypeError, w)
  | None => SubmitOrder.post env uuid request w = (Raise (KeyError "order"), w)
  end.
Proof.
  intros Hs. unfold SubmitOrder.post.
  rewrite run_bind, run_get_session. cbn beta iota.
  rewrite run_bind, run_get_order, Hs.
  destruct v as [[| |order_data]|]; try reflexivity.
  rewrite run_bind, run_get_tickets.
  destruct (order_data !! "tickets") as [[| |tickets]|]; try reflexivity.
  rewrite run_bind.
  destruct (SubmitOrder.tally tickets [] w) as [[rates|e] w'] eqn:Htally;
    [exact I|].
  apply tally_world in Htally. subst w'. reflexivity.
Qed.




(** ** Order submission: tickets that cannot be tallied *)

Lemma filter_unique_key {A} (key : A → Z) (k : Z) (table : list A) :
  NoDup (key <$> table) →
  (length (List.filter (λ x, (key x =? k)%Z) table) <= 1)%nat.
Proof.
  induction table as [|x table IH]; cbn; [lia|].
  intros Hnd. apply NoDup_cons in Hnd as [Hnotin Hnd]. specialize (IH Hnd).
  destruct (key x =? k) eqn:E; [|exact IH]. cbn.
  destruct (List.filter (λ x, key x =? k) table) as [|y l] eqn:F; [cbn; lia|].
  exfalso. apply Hnotin.
  assert (In y (List.filter (λ x, key x =? k) table)) as Hin
    by (rewrite F; left; reflexivity).
  apply filter_In in Hin as [Hin Hy].
  apply list_elem_of_fmap. exists y. split; [lia|].
  apply list_elem_of_In, Hin.
Qed.

Lemma Rate_objects_get_cases pk (w : World) :
  NoDup (Rate.id <$> rate_table (db w)) →
  (∃ rate, In rate (rate_table (db w)) ∧ Rate.id rate = pk
           ∧ Rate_objects_get pk w = (Return rate, w))
  ∨ ((∀ rate, In rate (rate_table (db w)) → Rate.id rate ≠ pk)
     ∧ Rate_objects_get pk w = (Raise (DoesNotExist "Rate"), w)).
Proof.
  intros Hnd. pose proof (filter_unique_key Rate.id pk _ Hnd) as Hlen.
  unfold Rate_objects_get. rewrite run_bind, run_get_db. cbn beta iota.
  unfold objects_get.
  destruct (List.filter _ (rate_table (db w))) as [|rate [|rate' l]] eqn:F;
    cbn in Hlen; [| |lia].
  - right. split; [|reflexivity]. intros rate Hin Hid.
    assert (In rate (List.filter (λ r, Rate.id r =? pk) (rate_table (db w))))
      as Hf by (apply filter_In; split; [exact Hin|lia]).
    rewrite F in Hf. destruct Hf.
  - left. exists rate.
    assert (In rate (List.filter (λ r, Rate.id r =? pk) (rate_table (db w))))
      as Hf by (rewrite F; left; reflexivity).
    apply filter_In in Hf as [Hin Hid]. repeat split; [exact Hin|lia].
Qed.

Lemma tally_unknown_rate tickets : ∀ acc (w : World) ticket,
  NoDup (Rate.id <$> rate_table (db w)) →
  In ticket tickets →
  (∀ rate, In rate (rate_table (db w)) → Rate.id rate ≠ Ticket.rate ticket) →
  SubmitOrder.tally tickets acc w = (Raise (DoesNotExist "Rate"), w).
Proof.
  induction tickets as [|t tickets IH]; intros acc w ticket Hnd Hin Hnone;
    [destruct Hin|].
  cbn. rewrite run_bind.
  destruct (Rate_objects_get_cases (Ticket.rate t) w Hnd)
    as [(rate & Hr & Hid & ->)|[_ ->]]; [|reflexivity].
  destruct Hin as [->|Hin]; [destruct (Hnone rate Hr Hid)|].
  eapply IH; eassumption.
Qed.

(** X3. A ticket that names a rate the database does not have makes the
    submission raise Rate.DoesNotExist during the tally: nothing is
    created, no warning is added and the session order stays. *)
Theorem SubmitOrder_post_unknown_rate env uuid request w order_data tickets
    ticket :
  session w !! "order" = Some (SOrder order_data) →
  order_data !! "tickets" = Some (OTickets tickets) →
  NoDup (Rate.id <$> rate_table (db w)) →
  In ticket tickets →
  (∀ rate, In rate (rate_table (db w)) → Rate.id rate ≠ Ticket.rate ticket) →
  SubmitOrder.post env uuid request w = (Raise (DoesNotExist "Rate"), w).
Proof.
  intros Hs Ht Hnd Hin Hnone.
  pose proof (post_before_tally env uuid request w _ Hs) as Hpre.
  cbn beta iota in Hpre. rewrite Ht in Hpre.
  rewrite (tally_unknown_rate _ _ _ _ Hnd Hin Hnone) in Hpre. exact Hpre.
Qed.

Lemma SubmitOrder_post_unknown_rate_witness :
  SubmitOrder.post Sample.env "uuid-2" Sample.request
    (Sample.world
       {["order" := SOrder (Sample.order_data "100.00"
                              [Sample.jane 10; Sample.joe 77])]})
  = (Raise (DoesNotExist "Rate"),
     Sample.world
       {["order" := SOrder (Sample.order_data "100.00"
                              [Sample.jane 10; Sample.joe 77])]}).
Proof.
  apply (SubmitOrder_post_unknown_rate Sample.env "uuid-2" Sample.request _
           (Sample.order_data "100.00" [Sample.jane 10; Sample.joe 77])
           [Sample.jane 10; Sample.joe 77] (Sample.joe 77)).
  - vm_compute. reflexivity.
  - vm_compute. reflexivity.
  - apply (bool_decide_unpack _). vm_compute. exact I.
  - right. left. reflexivity.
  - intros rate [<-|[<-|[]]]; vm_compute; discriminate.
Defined.

(** X4. When the attendee step was skipped, so that the session order has
    no 'tickets' entry, both the confirmation page and the submission
    raise KeyError('tickets') and change nothing. *)
Theorem skipped_attendee_step env uuid request slug w order_data :
  session w !! "order" = Some (SOrder order_data) →
  order_data !! "tickets" = None →
  ConfirmOrder.get request slug w = (Raise (KeyError "tickets"), w)
  ∧ SubmitOrder.post env uuid request w = (Raise (KeyError "tickets"), w).
Proof.
  intros Hs Ht. split.
  - unfold ConfirmOrder.get, SessionConfirmMixin.get.
    rewrite run_bind, run_get_session. cbn beta iota. rewrite Hs.
    unfold ConfirmOrder.super_get, ConfirmOrder.get_context_data.
    rewrite run_bind, run_bind, run_get_session. cbn beta iota.
    rewrite run_bind, run_get_order, Hs. cbn beta iota.
    rewrite run_bind, run_bind, run_get_tickets, Ht. reflexivity.
  - pose proof (post_before_tally env uuid request w _ Hs) as Hpre.
    cbn beta iota in Hpre. rewrite Ht in Hpre. exact Hpre.
Qed.

Lemma skipped_attendee_step_witness :
  let w := (WorkshopDetail.post Sample.env Sample.selection "intro-2024"
              (Sample.world ∅)).2 in
  ConfirmOrder.get Sample.request "intro-2024" w
  = (Raise (KeyError "tickets"), w)
  ∧ SubmitOrder.post Sample.env "uuid-2" Sample.request w
    = (Raise (KeyError "tickets"), w).
Proof.
  eapply (skipped_attendee_step Sample.env "uuid-2" Sample.request "intro-2024").
  - vm_compute. reflexivity.
  - vm_compute. reflexivity.
Defined.

(** ** Order submission: the gateway *)



Example gateway_answers :
  let env r :=
    mkEnv Sample.sample_settings Sample.sold Sample.offered (λ text, text)
      (λ url data verify, r) in
  (SubmitOrder.post (env (Return ("gateway down", 503))) "uuid-2"
     Sample.request Sample.fits).1
  = Return (HttpResponse "gateway down" 503)
  ∧ (SubmitOrder.post (env (Raise RequestException)) "uuid-2"
       Sample.request Sample.fits).1
    = Raise RequestException
  ∧ length (order_table
              (db (SubmitOrder.post (env (Raise RequestException)) "uuid-2"
                     Sample.request Sample.fits).2)) = 2%nat.
Proof. vm_compute. repeat split. Qed.

Lemma payload_static_key env w tickets payload payload' key :
  SubmitOrder.add_metadata env 0 tickets payload w = (Return payload', w) →
  Forall (λ t, ∃ rate, resolves w t rate) tickets →
  (∀ c j, key ≠ SubmitOrder.metadata_item c j) →
  payload' !! key = payload !! key.
Proof.
  intros Hrun Hres Hkey.
  destruct (add_metadata_spec env w tickets 0 payload Hres)
    as (p & Hrun' & Hother & _).
  assert (p = payload') as -> by congruence.
  apply Hother. intros c j _ _. apply Hkey.
Qed.

(** X6. Besides the purchaser's name, a successful submission sends the
    merchant id, the titles and the contact string of the settings, the
    new order's transaction id as unique_id, the session's order_total
    string unchanged as sTotal, the contact email as it is (not
    URL-escaped), an empty note and the array name "metadata". *)
Theorem SubmitOrder_payload_static_fields env uuid request w order_data
    tickets email name total :
  session_order w order_data tickets email name total →
  passes_capacity_check env w tickets →
  let run := SubmitOrder.post env uuid request w in
  ∃ sent,
    outbox run.2 = outbox w ++ [sent]
    ∧ sent_data sent !! "LMID" = Some (LMID (settings env))
    ∧ sent_data sent !! "unique_id" = Some uuid
    ∧ sent_data sent !! "sTotal" = Some total
    ∧ sent_data sent !! "webTitle" = Some (PAYMENT_TITLE (settings env))
    ∧ sent_data sent !! "Trans_Desc"
      = Some (PAYMENT_DESCRIPTION (settings env))
    ∧ sent_data sent !! "contact_info"
      = Some (PAYMENT_CONTACT_INFO (settings env))
    ∧ sent_data sent !! "BILL_CUSTOMER_EMAIL" = Some email
    ∧ sent_data sent !! "note" = Some EmptyString
    ∧ sent_data sent !! "arrayname" = Some "metadata".
Proof.
  intros Horder Hpass run.
  destruct (post_success env uuid request w _ _ _ _ _ Horder Hpass)
    as (payload & Hmeta & Hrun).
  subst run. rewrite Hrun. cbn. eexists. split; [reflexivity|]. cbn.
  set (order := new_order w uuid email name total) in *.
  assert (Forall (λ t, ∃ rate, resolves (committed w order tickets) t rate)
            tickets) as Hres.
  { destruct Hpass as [Hres _]. eapply Forall_impl; [exact Hres|].
    intros t [rate Hrate]. exists rate.
    eapply Rate_objects_get_table; [|exact Hrate]. reflexivity. }
  assert (∀ key, (∀ c j, key ≠ SubmitOrder.metadata_item c j) →
                 payload !! key = SubmitOrder.base_payload env order !! key)
    as Hstatic.
  { intros key Hkey. eapply payload_static_key; eassumption. }
  repeat split;
    (rewrite Hstatic
       by (intros c j; destruct (metadata_item_prefix c j) as [rest ->];
           discriminate));
    unfold SubmitOrder.base_payload;
    repeat (rewrite lookup_insert_ne by discriminate);
    apply lookup_insert_eq.
Qed.

Lemma SubmitOrder_payload_static_fields_witness :
  let run := SubmitOrder.post Sample.env "uuid-2" Sample.request Sample.fits in
  ∃ sent,
    outbox run.2 = outbox Sample.fits ++ [sent]
    ∧ sent_data sent !! "LMID" = Some (LMID (settings Sample.env))
    ∧ sent_data sent !! "unique_id" = Some "uuid-2"
    ∧ sent_data sent !! "sTotal" = Some "149.50"
    ∧ sent_data sent !! "webTitle" = Some (PAYMENT_TITLE (settings Sample.env))
    ∧ sent_data sent !! "Trans_Desc"
      = Some (PAYMENT_DESCRIPTION (settings Sample.env))
    ∧ sent_data sent !! "contact_info"
      = Some (PAYMENT_CONTACT_INFO (settings Sample.env))
    ∧ sent_data sent !! "BILL_CUSTOMER_EMAIL" = Some "jane@example.org"
    ∧ sent_data sent !! "note" = Some EmptyString
    ∧ sent_data sent !! "arrayname" = Some "metadata".
Proof.
  exact (SubmitOrder_payload_static_fields Sample.env "uuid-2" Sample.request
           Sample.fits _ _ _ _ _ sample_fits_order sample_fits_passes).
Defined.

(** ** Order submission: the size of the payload *)

Lemma base_payload_size env order :
  size (SubmitOrder.base_payload env order) = 11%nat.
Proof.
  unfold SubmitOrder.base_payload.
  repeat (rewrite map_size_insert_None
            by (repeat (rewrite lookup_insert_ne by discriminate);
                apply lookup_empty)).
  rewrite map_size_empty. reflexivity.
Qed.

Lemma base_payload_no_metadata env order c j :
  SubmitOrder.base_payload env order !! SubmitOrder.metadata_item c j = None.
Proof.
  destruct (metadata_item_prefix c j) as [rest ->].
  unfold SubmitOrder.base_payload.
  repeat (rewrite lookup_insert_ne by discriminate). apply lookup_empty.
Qed.

Lemma add_metadata_size env w tickets : ∀ i payload,
  Forall (λ t, ∃ rate, resolves w t rate) tickets →
  (∀ c j, (c <= 5)%nat → (i <= j)%nat →
          payload !! SubmitOrder.metadata_item c j = None) →
  ∃ payload',
    SubmitOrder.add_metadata env i tickets payload w = (Return payload', w)
    ∧ size payload' = (size payload + 6 * length tickets)%nat.
Proof.
  induction tickets as [|ticket tickets IH]; intros i payload Hres Hfresh.
  - exists payload. split; [reflexivity|]. cbn. lia.
  - apply Forall_cons in Hres as [[rate Hrate] Hres].
    cbn [SubmitOrder.add_metadata]. erewrite run_bind_return by exact Hrate.
    cbn zeta.
    match goal with
    | |- ∃ p, SubmitOrder.add_metadata _ _ _ ?q _ = _ ∧ _ =>
        destruct (IH (S i) q Hres) as (payload' & Hrun & Hsize)
    end.
    + intros c j Hc Hj.
      repeat (rewrite lookup_insert_ne
                by (intros Heq; apply metadata_item_inj in Heq; lia)).
      apply Hfresh; lia.
    + exists payload'. split; [exact Hrun|]. rewrite Hsize.
      repeat (rewrite map_size_insert_None
                by (repeat (rewrite lookup_insert_ne
                              by (intros Heq; apply metadata_item_inj in Heq;
                                  lia));
                    apply Hfresh; lia)).
      cbn [length]. lia.
Qed.

(** X7. The payload of a successful submission has exactly the eleven
    fixed fields and six metadata fields per ticket: 11 + 6 * len(tickets)
    fields in all, no two blocks sharing a key. *)
Theorem SubmitOrder_payload_size env uuid request w order_data tickets
    email name total :
  session_order w order_data tickets email name total →
  passes_capacity_check env w tickets →
  let run := SubmitOrder.post env uuid request w in
  ∃ sent,
    outbox run.2 = outbox w ++ [sent]
    ∧ size (sent_data sent) = (11 + 6 * length tickets)%nat.
Proof.
  intros Horder Hpass run.
  destruct (post_success env uuid request w _ _ _ _ _ Horder Hpass)
    as (payload & Hmeta & Hrun).
  subst run. rewrite Hrun. cbn. eexists. split; [reflexivity|]. cbn.
  set (order := new_order w uuid email name total) in *.
  assert (Forall (λ t, ∃ rate, resolves (committed w order tickets) t rate)
            tickets) as Hres.
  { destruct Hpass as [Hres _]. eapply Forall_impl; [exact Hres|].
    intros t [rate Hrate]. exists rate.
    eapply Rate_objects_get_table; [|exact Hrate]. reflexivity. }
  destruct (add_metadata_size env _ tickets 0
              (SubmitOrder.base_payload env order) Hres)
    as (payload' & Hrun' & Hsize).
  { intros c j _ _. apply base_payload_no_metadata. }
  rewrite Hmeta in Hrun'. injection Hrun' as <-.
  rewrite Hsize, base_payload_size. reflexivity.
Qed.

Lemma SubmitOrder_payload_size_witness :
  let run := SubmitOrder.post Sample.env "uuid-2" Sample.request Sample.fits in
  ∃ sent,
    outbox run.2 = outbox Sample.fits ++ [sent]
    ∧ size (sent_data sent)
      = (11 + 6 * length [Sample.jane 10; Sample.joe 11])%nat.
Proof.
  exact (SubmitOrder_payload_size Sample.env "uuid-2" Sample.request
           Sample.fits _ _ _ _ _ sample_fits_order sample_fits_passes).
Defined.

(** ** Order submission: the tally *)

Lemma total_quantity_count_ticket rates rate :
  total_quantity (SubmitOrder.count_ticket rates rate)
  = total_quantity rates + 1.
Proof.
  unfold SubmitOrder.count_ticket, SubmitOrder.contains.
  induction rates as [|[r q] rates IH]; cbn; [reflexivity|].
  destruct (Rate.eqb r rate) eqn:E; cbn.
  - unfold total_quantity. cbn. lia.
  - destruct (existsb _ rates); cbn in *; unfold total_quantity in *; cbn;
      rewrite IH; lia.
Qed.

Lemma tally_total tickets : ∀ acc (w : World) rates,
  SubmitOrder.tally tickets acc w = (Return rates, w) →
  total_quantity rates = total_quantity acc + Z.of_nat (length tickets).
Proof.
  induction tickets as [|ticket tickets IH]; intros acc w rates; cbn.
  - intros [= <-]. lia.
  - rewrite run_bind.
    destruct (Rate_objects_get (Ticket.rate ticket) w) as [[rate|e] w1] eqn:E;
      [|discriminate].
    pose proof (Rate_objects_get_world _ _ _ _ E). subst w1.
    intros Hrun. rewrite (IH _ _ _ Hrun), total_quantity_count_ticket. lia.
Qed.

(** X8. When the tally of the tickets completes, the rates dictionary has
    one entry per rate named by a ticket, no rate twice; the value of an
    entry is the number of tickets naming its rate, at least one; and the
    values add up to the number of tickets. *)
Theorem SubmitOrder_tally_counts w tickets rates :
  SubmitOrder.tally tickets [] w = (Return rates, w) →
  NoDup ((λ kv, Rate.id kv.1) <$> rates)
  ∧ (∀ rate q, In (rate, q) rates →
       q = requested (Rate.id rate) tickets ∧ 0 < q
       ∧ ∃ t, In t tickets ∧ resolves w t rate)
  ∧ (∀ t rate, In t tickets → resolves w t rate →
       In (rate, requested (Rate.id rate) tickets) rates)
  ∧ total_quantity rates = Z.of_nat (length tickets).
Proof.
  intros Htally.
  pose proof (tally_resolves _ _ _ _ Htally) as Hres.
  destruct (tally_spec w tickets [] Hres (tally_inv_nil w))
    as (rates' & Htally' & [Hkeys Hnodup] & Hq).
  assert (rates' = rates) as -> by congruence.
  assert (∀ pk, quantity_of pk rates = requested pk tickets) as Hq'
    by (intros pk; rewrite Hq; unfold quantity_of; cbn; lia).
  split; [exact Hnodup|]. split; [|split].
  - intros rate q Hin.
    pose proof (quantity_of_in _ _ _ Hnodup Hin) as Hqr. rewrite Hq' in Hqr.
    destruct (Hkeys _ _ Hin) as [Hget Hpos].
    split; [congruence|]. split; [exact Hpos|].
    rewrite <- Hqr in Hpos.
    destruct (requested_pos _ _ Hpos) as (t & Htin & Htrate).
    exists t. split; [exact Htin|]. unfold resolves. rewrite Htrate. exact Hget.
  - intros t rate Hin Hrate.
    pose proof (Rate_objects_get_id _ _ _ _ Hrate) as Hid.
    pose proof (requested_in _ _ _ Hin (eq_sym Hid)) as Hpos.
    rewrite <- Hq' in Hpos.
    destruct (quantity_of_pos _ _ Hpos) as (r & Hr & Hrid).
    assert (r = rate) as ->.
    { pose proof (proj1 (Hkeys _ _ Hr)) as Hget. rewrite Hrid, Hid in Hget.
      unfold resolves in Hrate. congruence. }
    rewrite <- Hq'. exact Hr.
  - rewrite (tally_total _ _ _ _ Htally). unfold total_quantity. cbn. lia.
Qed.

Lemma SubmitOrder_tally_counts_witness :
  let tickets := [Sample.jane 10; Sample.joe 11; Sample.joe 10] in
  let rates := [(Sample.standard, 2); (Sample.student, 1)] in
  NoDup ((λ kv, Rate.id kv.1) <$> rates)
  ∧ (∀ rate q, In (rate, q) rates →
       q = requested (Rate.id rate) tickets ∧ 0 < q
       ∧ ∃ t, In t tickets ∧ resolves (Sample.world ∅) t rate)
  ∧ (∀ t rate, In t tickets → resolves (Sample.world ∅) t rate →
       In (rate, requested (Rate.id rate) tickets) rates)
  ∧ total_quantity rates = Z.of_nat (length tickets).
Proof.
  apply (SubmitOrder_tally_counts (Sample.world ∅)
           [Sample.jane 10; Sample.joe 11; Sample.joe 10]
           [(Sample.standard, 2); (Sample.student, 1)]).
  vm_compute. reflexivity.
Defined.

(** ** The catalog and the rate selector together *)

Lemma WorkshopList_get_session request w :
  session (WorkshopList.get request w).2
  = match GET request !! "code" with
    | Some c => if WorkshopList.truthy (Some c)
                then <["private_code" := SStr c]> (session w)
                else session w
    | None => session w
    end.
Proof.
  unfold WorkshopList.get. destruct (GET request !! "code") as [c|]; cbn zeta.
  - destruct (WorkshopList.truthy (Some c)); mrun;
      rewrite get_queryset_run; mrun; reflexivity.
  - mrun. rewrite get_queryset_run. mrun. reflexivity.
Qed.

Lemma WorkshopList_get_db request w : db (WorkshopList.get request w).2 = db w.
Proof.
  unfold WorkshopList.get. destruct (GET request !! "code") as [c|]; cbn zeta.
  - destruct (WorkshopList.truthy (Some c)); mrun;
      rewrite get_queryset_run; mrun; reflexivity.
  - mrun. rewrite get_queryset_run. mrun. reflexivity.
Qed.

Lemma WorkshopDetail_get_page env request slug w object :
  workshop_of w slug object →
  negb (is_authenticated request) && Workshop.draft object = false →
  (WorkshopDetail.get env request slug w).1
  = Return
      (TemplateResponse
         (WorkshopDetailContext (rendered_workshop env object)
            ((λ rate, mkRateRow (Rate.name rate) (Rate.price rate)
                        (WorkshopDetail.sold_out env (db w) rate))
               <$> filter_rates env (db w) object
                     (WorkshopDetail.rate_parameter request))
            (Workshop.public object
             || (negb (Workshop.public object)
                 && match default SNone (session w !! "private_code") with
                    | SStr c => bool_decide (c = Workshop.private_code object)
                    | _ => false
                    end)))).
Proof.
  intros Hobj Hshow. unfold WorkshopDetail.get. mrun.
  unfold WorkshopDetail.get_object. mrun. cbn [db with_session].
  rewrite Hobj. mrun.
  unfold WorkshopDetail.get_context_data. mrun.
  cbn [db session with_session]. rewrite Hshow.
  rewrite lookup_insert_eq. rewrite lookup_insert_ne by discriminate.
  reflexivity.
Qed.

(** X9. Visiting the catalog with a non-empty access code and then the
    page of a workshop (not a draft, or as an authenticated viewer): the
    workshop is shown as purchasable exactly when it is public or its
    private code is the code of that visit. *)
Theorem access_code_unlocks_purchase env visit code request slug w object :
  GET visit !! "code" = Some code →
  code ≠ EmptyString →
  workshop_of w slug object →
  negb (is_authenticated request) && Workshop.draft object = false →
  let w1 := (WorkshopList.get visit w).2 in
  ∃ workshop rates,
    (WorkshopDetail.get env request slug w1).1
    = Return
        (TemplateResponse
           (WorkshopDetailContext workshop rates
              (Workshop.public object
               || bool_decide (code = Workshop.private_code object)))).
Proof.
  intros Hcode Hne Hobj Hshow w1.
  assert (session w1 !! "private_code" = Some (SStr code)) as Hs.
  { subst w1. rewrite WorkshopList_get_session, Hcode. cbn.
    rewrite bool_decide_eq_false_2 by exact Hne. cbn.
    apply lookup_insert_eq. }
  assert (workshop_of w1 slug object) as Hobj1.
  { unfold workshop_of. subst w1. rewrite WorkshopList_get_db. exact Hobj. }
  rewrite (WorkshopDetail_get_page env request slug w1 object Hobj1 Hshow).
  rewrite Hs. cbn. do 2 eexists. do 3 f_equal.
  destruct (Workshop.public object); reflexivity.
Qed.

Lemma access_code_unlocks_purchase_witness :
  let visit := mkRequest {["code" := "letmein"]} ∅ EmptyString false in
  let w1 := (WorkshopList.get visit (Sample.world ∅)).2 in
  ∃ workshop rates,
    (WorkshopDetail.get Sample.env Sample.request "advanced-2024" w1).1
    = Return
        (TemplateResponse
           (WorkshopDetailContext workshop rates
              (Workshop.public Sample.hidden
               || bool_decide ("letmein" = Workshop.private_code Sample.hidden)))).
Proof.
  apply (access_code_unlocks_purchase Sample.env
           (mkRequest {["code" := "letmein"]} ∅ EmptyString false) "letmein"
           Sample.request "advanced-2024" (Sample.world ∅) Sample.hidden).
  - vm_compute. reflexivity.
  - discriminate.
  - vm_compute. reflexivity.
  - reflexivity.
Defined.

Example private_workshop_purchasable :
  let page w :=
    (WorkshopDetail.get Sample.env Sample.request "advanced-2024" w).1 in
  let visit code := mkRequest {["code" := code]} ∅ EmptyString false in
  page (Sample.world ∅)
  = Return (TemplateResponse (WorkshopDetailContext Sample.hidden [] false))
  ∧ page (WorkshopList.get (visit "letmein") (Sample.world ∅)).2
    = Return (TemplateResponse (WorkshopDetailContext Sample.hidden [] true))
  ∧ page (WorkshopList.get (visit "guess") (Sample.world ∅)).2
    = Return (TemplateResponse (WorkshopDetailContext Sample.hidden [] false)).
Proof. vm_compute. repeat split. Qed.

(** ** The rate selection *)

Lemma sum_total_world form_data rates : ∀ acc (w w' : World) r,
  WorkshopDetail.sum_total form_data rates acc w = (r, w') → w' = w.
Proof.
  induction rates as [|rate rates IH]; intros acc w w' r; cbn.
  - intros [= _ <-]. reflexivity.
  - rewrite run_bind. unfold getitem.
    destruct (form_data !! Rate.name rate) as [s|]; [|intros [= _ <-]; reflexivity].
    mrun. unfold WorkshopDetail.Decimal_of.
    destruct (Decimal.of_string s); mrun; [apply IH|].
    intros [= _ <-]. reflexivity.
Qed.

Lemma sum_total_succeeds form_data rates : ∀ acc (w : World),
  Forall (λ rate, ∃ str n, form_data !! Rate.name rate = Some str
                           ∧ numeral str = Some n) rates →
  ∃ total, WorkshopDetail.sum_total form_data rates acc w = (Return total, w).
Proof.
  induction rates as [|rate rates IH]; intros acc w Hfields.
  - exists acc. reflexivity.
  - apply Forall_cons in Hfields as [(str & n & Hstr & Hn) Hfields].
    cbn. rewrite run_bind, (run_getitem_some _ _ _ _ Hstr). mrun.
    unfold WorkshopDetail.Decimal_of. rewrite (Decimal_of_numeral _ _ Hn).
    mrun. apply IH, Hfields.
Qed.

Lemma WorkshopDetail_post_valid env request slug w object :
  workshop_of w slug object →
  WorkshopDetail.is_valid env (db w) (order_form env request w object) = true →
  WorkshopDetail.post env request slug w
  = WorkshopDetail.form_valid object (order_form env request w object) w.
Proof.
  intros Hobj Hvalid. unfold WorkshopDetail.post. mrun.
  unfold WorkshopDetail.get_object. mrun. rewrite Hobj. mrun.
  unfold WorkshopDetail.get_form. mrun.
  fold (order_form env request w object). rewrite Hvalid. reflexivity.
Qed.

(** X10. A POST to the rate selector has one possible effect: it either
    leaves the world as it was (unknown workshop, invalid form, or a
    failure while the total is computed), or it answers with the redirect
    to the attendee step and has written session['order'], nothing
    else. *)
Theorem WorkshopDetail_post_only_writes_order env request slug w :
  let run := WorkshopDetail.post env request slug w in
  run.2 = w
  ∨ ∃ object order,
      workshop_of w slug object
      ∧ run.1 = Return (HttpResponseRedirect
                          (payments_order_details (Workshop.slug object)))
      ∧ run.2 = with_session w (<["order" := SOrder order]> (session w)).
Proof.
  cbn zeta. unfold WorkshopDetail.post. mrun.
  unfold WorkshopDetail.get_object. mrun.
  destruct (List.filter _ (workshop_table (db w))) as [|object [|o l]] eqn:Hobj;
    mrun; [left; reflexivity| |left; reflexivity].
  unfold WorkshopDetail.get_form. mrun.
  destruct (WorkshopDetail.is_valid env (db w) _).
  - unfold WorkshopDetail.form_valid. rewrite run_bind.
    destruct (WorkshopDetail.sum_total _ _ _ w) as [[total|e] w'] eqn:Hsum;
      apply sum_total_world in Hsum; subst w'; [|left; reflexivity].
    mrun. right. exists object. eexists. repeat split. exact Hobj.
  - left. unfold WorkshopDetail.form_invalid. rewrite run_bind.
    destruct (get_context_data_world env object w) as [context ->].
    reflexivity.
Qed.


Lemma sample_selection_valid :
  WorkshopDetail.is_valid Sample.env (db (Sample.world ∅))
    (order_form Sample.env Sample.selection (Sample.world ∅) Sample.intro)
  = true.
Proof. vm_compute. reflexivity. Defined.

Lemma sample_intro_workshop :
  workshop_of (Sample.world ∅) "intro-2024" Sample.intro.
Proof. vm_compute. reflexivity. Defined.


(** A posted 'order_total' does not survive: the view's own total is
    stored. *)
Example posted_total_is_overwritten :
  let forged :=
    mkRequest ∅
      (<["standard" := "1"]> (<["student" := "2"]>
       (<["order_total" := "0.01"]> ∅))) EmptyString false in
  match session (WorkshopDetail.post Sample.env forged "intro-2024"
                   (Sample.world ∅)).2 !! "order" with
  | Some (SOrder order) => order !! "order_total" = Some (OStr "199.00")
  | _ => False
  end.
Proof. vm_compute. reflexivity. Qed.

(** ** From the rate selection to the attendee forms *)

Lemma int_of_numeral s n (w : World) :
  numeral s = Some n → int_of s w = (Return (Z.of_N n), w).
Proof.
  intros Hn. unfold int_of.
  assert (Decimal.read_sign s = (false, s)) as ->.
  { unfold numeral in Hn. destruct s as [|c s]; [discriminate|].
    destruct (all_digits (String c s)) eqn:Hall; [|discriminate].
    cbn in Hall. apply andb_prop in Hall as [Hc _].
    apply bool_decide_eq_true_1 in Hc. destruct Hc as [d Hd].
    exact (read_sign_digit _ _ _ Hd). }
  rewrite Hn. reflexivity.
Qed.

Lemma run_get_rates (d : gmap string OVal) key w :
  (getitem d key ≫= as_rates) w
  = match d !! key with
    | Some (ORates l) => (Return l, w)
    | Some _ => (Raise TypeError, w)
    | None => (Raise (KeyError key), w)
    end.
Proof.
  rewrite run_bind. unfold getitem.
  destruct (d !! key) as [[| l |]|]; reflexivity.
Qed.

Lemma initial_of_run (order : gmap string OVal) form_data rates (w : World) :
  Forall (λ rate, ∃ str n, form_data !! Rate.name rate = Some str
                           ∧ numeral str = Some n
                           ∧ order !! Rate.name rate = Some (OStr str)) rates →
  OrderDetail.initial_of order ((λ r, (Rate.id r, Rate.name r)) <$> rates) w
  = (Return (expected_initial (mkForm form_data rates)), w).
Proof.
  induction rates as [|rate rates IH]; intros Hfields; [reflexivity|].
  apply Forall_cons in Hfields as [(str & n & Hstr & Hn & Hord) Hfields].
  cbn [fmap list_fmap OrderDetail.initial_of].
  rewrite run_bind, run_bind, run_get_str, Hord. cbn beta iota.
  rewrite (int_of_numeral _ _ _ Hn). cbn beta iota.
  rewrite run_bind, (IH Hfields). mrun.
  unfold expected_initial, quantity. cbn. rewrite Hstr, Hn. reflexivity.
Qed.

Lemma form_valid_skeleton env request slug w object :
  workshop_of w slug object →
  WorkshopDetail.is_valid env (db w) (order_form env request w object) = true →
  ∃ order total,
    WorkshopDetail.post env request slug w
    = (Return (HttpResponseRedirect
                 (payments_order_details (Workshop.slug object))),
       with_session w (<["order" := SOrder order]> (session w)))
    ∧ order !! "rates"
      = Some (ORates ((λ r, (Rate.id r, Rate.name r))
                        <$> rate_set (order_form env request w object)))
    ∧ order !! "order_total" = Some (OStr (Decimal.to_string total))
    ∧ ∀ key, ¬ reserved_key key → order !! key = OStr <$> POST request !! key.
Proof.
  intros Hobj Hvalid.
  rewrite (WorkshopDetail_post_valid _ _ _ _ _ Hobj Hvalid).
  set (form := order_form env request w object) in *.
  destruct (sum_total_succeeds (data form) (rate_set form) Decimal.zero w
              (is_valid_fields _ _ _ Hvalid)) as [total Hsum].
  unfold WorkshopDetail.form_valid. rewrite run_bind, Hsum. mrun.
  eexists. exists total. split; [reflexivity|].
  split; [|split].
  - rewrite lookup_insert_ne by discriminate. apply lookup_insert_eq.
  - apply lookup_insert_eq.
  - intros key Hkey. unfold reserved_key in Hkey.
    rewrite !lookup_insert_ne by (intros <-; tauto).
    apply lookup_fmap.
Qed.

(** X12. After a valid rate selection whose rates are not named
    'workshop', 'rates' or 'order_total', the attendee step starts from
    one entry per requested ticket: for every offered rate, in order, as
    many entries as its form field requested, each tagged with the
    rate's primary key. *)
Theorem attendee_forms_per_ticket env request slug w object :
  workshop_of w slug object →
  WorkshopDetail.is_valid env (db w) (order_form env request w object) = true →
  (∀ rate, In rate (rate_set (order_form env request w object)) →
           ¬ reserved_key (Rate.name rate)) →
  let w1 := (WorkshopDetail.post env request slug w).2 in
  OrderDetail.get_initial w1
  = (Return (expected_initial (order_form env request w object)), w1).
Proof.
  intros Hobj Hvalid Hnames w1.
  destruct (form_valid_skeleton env request slug w object Hobj Hvalid)
    as (order & total & Hrun & Hrates & _ & Hcopy).
  subst w1. rewrite Hrun. cbn [snd].
  unfold OrderDetail.get_initial.
  rewrite run_bind, run_get_session. cbn beta iota.
  cbn [session with_session].
  rewrite run_bind, run_get_order, lookup_insert_eq. cbn beta iota.
  rewrite run_bind, run_get_rates, Hrates. cbn beta iota.
  apply (initial_of_run order (POST request)).
  pose proof (is_valid_fields _ _ _ Hvalid) as Hfields.
  rewrite Forall_forall in Hfields. apply Forall_forall.
  intros rate Hin. destruct (Hfields rate Hin) as (str & n & Hstr & Hn).
  exists str, n. split; [exact Hstr|]. split; [exact Hn|].
  rewrite Hcopy by (apply Hnames, list_elem_of_In, Hin).
  cbn [data order_form] in Hstr. rewrite Hstr. reflexivity.
Qed.

Lemma attendee_forms_per_ticket_witness :
  let w1 := (WorkshopDetail.post Sample.env Sample.selection "intro-2024"
               (Sample.world ∅)).2 in
  OrderDetail.get_initial w1
  = (Return (expected_initial
               (order_form Sample.env Sample.selection (Sample.world ∅)
                  Sample.intro)), w1).
Proof.
  apply (attendee_forms_per_ticket Sample.env Sample.selection "intro-2024"
           (Sample.world ∅) Sample.intro sample_intro_workshop
           sample_selection_valid).
  intros rate Hin. vm_compute in Hin.
  destruct Hin as [<-|[<-|[]]]; intros [H|[H|H]]; discriminate H.
Defined.

Example initial_of_selection :
  let w1 := (WorkshopDetail.post Sample.env Sample.selection "intro-2024"
               (Sample.world ∅)).2 in
  (OrderDetail.get_initial w1).1 = Return [10; 11; 11]
  ∧ (OrderDetail.get Sample.request "intro-2024" w1).1
    = Return (TemplateResponse
                (OrderDetailContext
                   [Sample.standard; Sample.student; Sample.student]
                   Sample.intro)).
Proof. vm_compute. repeat split. Qed.

(** A rate named like one of the view's own keys loses its quantity: the
    slug stored under 'workshop' is read back as the quantity. *)
Example rate_named_workshop :
  let odd := Rate.mk 12 1 "workshop" (Decimal.mk false 100 (-2)) 5 false
               EmptyString in
  let d := mkDb [Sample.intro] [odd] [] [] in
  let request := mkRequest ∅ (<["workshop" := "1"]> ∅) EmptyString false in
  let w1 := (WorkshopDetail.post Sample.env request "intro-2024"
               (mkWorld d ∅ [] [] [])).2 in
  OrderDetail.get_initial w1 = (Raise ValueError, w1).
Proof. vm_compute. reflexivity. Qed.

(** ** The pages that only read *)

Lemma read_only_mret {A} (a : A) : read_only (mret a : M A).
Proof. intros w w' r [= _ <-]. reflexivity. Qed.

Lemma read_only_raise {A} e : read_only (raise (A:=A) e).
Proof. intros w w' r [= _ <-]. reflexivity. Qed.

Lemma read_only_bind {A B} (m : M A) (f : A → M B) :
  read_only m → (∀ a, read_only (f a)) → read_only (m ≫= f).
Proof.
  intros Hm Hf w w' r. rewrite run_bind.
  destruct (m w) as [[a|e] w1] eqn:E; apply Hm in E; subst w1.
  - apply Hf.
  - intros [= _ <-]. reflexivity.
Qed.

Lemma read_only_get_session : read_only get_session.
Proof. intros w w' r [= _ <-]. reflexivity. Qed.

Lemma read_only_get_db : read_only get_db.
Proof. intros w w' r [= _ <-]. reflexivity. Qed.

Lemma read_only_getitem {V} (d : gmap string V) key : read_only (getitem d key).
Proof.
  unfold getitem. destruct (d !! key);
    [apply read_only_mret|apply read_only_raise].
Qed.

Lemma read_only_objects_get {A} model (lookup : A → bool) table :
  read_only (objects_get model lookup table).
Proof. intros w w' r. apply objects_get_world. Qed.

Lemma read_only_Rate_objects_get pk : read_only (Rate_objects_get pk).
Proof. intros w w' r. apply Rate_objects_get_world. Qed.

Lemma read_only_Workshop_objects_get slug :
  read_only (Workshop_objects_get slug).
Proof.
  apply read_only_bind; [apply read_only_get_db|].
  intros d. apply read_only_objects_get.
Qed.

Lemma read_only_as_str v : read_only (as_str v).
Proof. destruct v; first [apply read_only_mret|apply read_only_raise]. Qed.

Lemma read_only_as_rates v : read_only (as_rates v).
Proof. destruct v; first [apply read_only_mret|apply read_only_raise]. Qed.

Lemma read_only_as_tickets v : read_only (as_tickets v).
Proof. destruct v; first [apply read_only_mret|apply read_only_raise]. Qed.

Lemma read_only_as_order v : read_only (as_order v).
Proof. destruct v; first [apply read_only_mret|apply read_only_raise]. Qed.

Lemma read_only_int_of s : read_only (int_of s).
Proof.
  unfold int_of. destruct (Decimal.read_sign s) as [negative digits].
  destruct (numeral digits); [apply read_only_mret|apply read_only_raise].
Qed.

Lemma read_only_initial_of order rates :
  read_only (OrderDetail.initial_of order rates).
Proof.
  induction rates as [|[id name] rates IH]; cbn; [apply read_only_mret|].
  apply read_only_bind.
  - apply read_only_bind; [|apply read_only_int_of].
    apply read_only_bind; [apply read_only_getitem|apply read_only_as_str].
  - intros count. apply read_only_bind; [exact IH|].
    intros rest. apply read_only_mret.
Qed.

Lemma read_only_zip_rates initial : read_only (OrderDetail.zip_rates initial).
Proof.
  induction initial as [|pk initial IH]; cbn; [apply read_only_mret|].
  apply read_only_bind; [apply read_only_Rate_objects_get|].
  intros rate. apply read_only_bind; [exact IH|].
  intros rest. apply read_only_mret.
Qed.

Lemma read_only_resolve_tickets tickets :
  read_only (ConfirmOrder.resolve_tickets tickets).
Proof.
  induction tickets as [|ticket tickets IH]; cbn; [apply read_only_mret|].
  apply read_only_bind; [apply read_only_Rate_objects_get|].
  intros rate. apply read_only_bind; [exact IH|].
  intros rest. apply read_only_mret.
Qed.

Lemma read_only_guard (super_get : M Response) slug :
  read_only super_get → read_only (SessionConfirmMixin.get super_get slug).
Proof.
  intros Hsuper. apply read_only_bind; [apply read_only_get_session|].
  intros s. destruct (s !! "order"); [exact Hsuper|apply read_only_mret].
Qed.

(** X13. The attendee form page and the confirmation page only read: a
    GET of either leaves the database, the session, the messages, the
    log and the outbox exactly as they were, whatever the session holds
    and whether the page renders, redirects or fails. *)
Theorem pages_read_only request slug :
  read_only (OrderDetail.get request slug)
  ∧ read_only (ConfirmOrder.get request slug).
Proof.
  split; apply read_only_guard.
  - apply read_only_bind.
    + apply read_only_bind; [apply read_only_get_session|]. intros s.
      apply read_only_bind.
      { apply read_only_bind; [apply read_only_getitem|apply read_only_as_order]. }
      intros order. apply read_only_bind; [|apply read_only_initial_of].
      apply read_only_bind; [apply read_only_getitem|apply read_only_as_rates].
    + intros initial. apply read_only_bind; [|intros c; apply read_only_mret].
      apply read_only_bind; [apply read_only_zip_rates|]. intros zipped.
      apply read_only_bind; [apply read_only_Workshop_objects_get|].
      intros workshop. apply read_only_mret.
  - apply read_only_bind; [|intros c; apply read_only_mret].
    apply read_only_bind; [apply read_only_get_session|]. intros s.
    apply read_only_bind.
    { apply read_only_bind; [apply read_only_getitem|apply read_only_as_order]. }
    intros order. apply read_only_bind.
    { apply read_only_bind; [|apply read_only_resolve_tickets].
      apply read_only_bind; [apply read_only_getitem|apply read_only_as_tickets]. }
    intros tickets.
    apply read_only_bind; [apply read_only_getitem|]. intros order_name.
    apply read_only_bind; [apply read_only_getitem|]. intros order_email.
    apply read_only_bind; [apply read_only_getitem|]. intros order_total.
    apply read_only_bind; [apply read_only_Workshop_objects_get|].
    intros workshop. apply read_only_mret.
Qed.

(** ** The confirmation page *)

Lemma resolve_tickets_run tickets (w : World) :
  Forall (λ t, ∃ rate, resolves w t rate) tickets →
  ∃ rows,
    ConfirmOrder.resolve_tickets tickets w = (Return rows, w)
    ∧ length rows = length tickets
    ∧ ∀ i ticket, tickets !! i = Some ticket →
        ∃ rate, resolves w ticket rate
                ∧ rows !! i = Some (Ticket.name ticket, Ticket.email ticket, rate).
Proof.
  induction tickets as [|t tickets IH]; intros Hres.
  - exists []. split; [reflexivity|]. split; [reflexivity|].
    intros i ticket Hi. rewrite lookup_nil in Hi. discriminate.
  - apply Forall_cons in Hres as [[rate Hrate] Hres].
    destruct (IH Hres) as (rows & Hrun & Hlen & Hrows).
    exists ((Ticket.name t, Ticket.email t, rate) :: rows).
    split; [|split].
    + cbn. erewrite run_bind_return by exact Hrate.
      rewrite run_bind, Hrun. reflexivity.
    + cbn. lia.
    + intros [|i] ticket Hi.
      * injection Hi as <-. exists rate. split; [exact Hrate|reflexivity].
      * exact (Hrows i ticket Hi).
Qed.

(** X14. With a complete session order whose tickets name existing
    rates, the confirmation page of an existing workshop shows, in the
    order of the tickets, each attendee's name and email with the rate
    the ticket names, and the contact name, contact email and order
    total exactly as the session holds them. *)
Theorem ConfirmOrder_shows_session_order request slug w order_data tickets
    email name total workshop :
  session_order w order_data tickets email name total →
  Forall (λ t, ∃ rate, resolves w t rate) tickets →
  workshop_of w slug workshop →
  ∃ rows,
    ConfirmOrder.get request slug w
    = (Return (TemplateResponse
                 (ConfirmOrderContext rows (OStr name) (OStr email)
                    (OStr total) workshop)), w)
    ∧ length rows = length tickets
    ∧ ∀ i ticket, tickets !! i = Some ticket →
        ∃ rate, resolves w ticket rate
                ∧ rows !! i = Some (Ticket.name ticket, Ticket.email ticket, rate).
Proof.
  intros (Hs & Ht & He & Hn & Hto) Hres Hobj.
  destruct (resolve_tickets_run tickets w Hres) as (rows & Hrun & Hlen & Hrows).
  exists rows. split; [|split; assumption].
  unfold ConfirmOrder.get, SessionConfirmMixin.get.
  rewrite run_bind, run_get_session. cbn beta iota. rewrite Hs.
  unfold ConfirmOrder.super_get, ConfirmOrder.get_context_data.
  rewrite run_bind, run_bind, run_get_session. cbn beta iota.
  rewrite run_bind, run_get_order, Hs. cbn beta iota.
  rewrite run_bind, run_bind, run_get_tickets, Ht. cbn beta iota.
  rewrite Hrun. cbn beta iota.
  rewrite run_bind, (run_getitem_some _ _ _ _ Hn). cbn beta iota.
  rewrite run_bind, (run_getitem_some _ _ _ _ He). cbn beta iota.
  rewrite run_bind, (run_getitem_some _ _ _ _ Hto). cbn beta iota.
  rewrite run_bind. unfold Workshop_objects_get.
  rewrite run_bind, run_get_db. cbn beta iota.
  unfold objects_get. unfold workshop_of in Hobj. rewrite Hobj.
  reflexivity.
Qed.

Lemma ConfirmOrder_shows_session_order_witness :
  ∃ rows,
    ConfirmOrder.get Sample.request "intro-2024" Sample.fits
    = (Return (TemplateResponse
                 (ConfirmOrderContext rows (OStr "Jane Doe")
                    (OStr "jane@example.org") (OStr "149.50") Sample.intro)),
       Sample.fits)
    ∧ length rows = length [Sample.jane 10; Sample.joe 11]
    ∧ ∀ i ticket, [Sample.jane 10; Sample.joe 11] !! i = Some ticket →
        ∃ rate, resolves Sample.fits ticket rate
                ∧ rows !! i = Some (Ticket.name ticket, Ticket.email ticket, rate).
Proof.
  apply (ConfirmOrder_shows_session_order Sample.request "intro-2024"
           Sample.fits
           (Sample.order_data "149.50" [Sample.jane 10; Sample.joe 11])).
  - exact sample_fits_order.
  - exact (proj1 sample_fits_passes).
  - vm_compute. reflexivity.
Defined.

(** ** The settlement callback: frame and repetition *)

Lemma callback_settles request w unique_id amount date_time order :
  callback_fields request unique_id amount date_time →
  OrderCallback.matching unique_id (db w) = [order] →
  OrderCallback.post request w
  = (Return (HttpResponse EmptyString 200),
     with_orders w (settled_table order amount date_time (order_table (db w)))).
Proof.
  intros (Hu & Ha & Ht) Hmatch. unfold OrderCallback.matching in Hmatch.
  unfold OrderCallback.post, try_except. rewrite run_bind.
  rewrite run_bind, (run_getitem_some _ _ _ _ Hu). mrun.
  unfold objects_get. rewrite Hmatch. mrun.
  rewrite (run_getitem_some _ _ _ _ Ha). mrun.
  rewrite (run_getitem_some _ _ _ _ Ht). mrun.
  reflexivity.
Qed.

Lemma unique_row_by_id (table : list Order.t) (order row : Order.t) :
  NoDup (Order.id <$> table) →
  In order table → In row table → Order.id row = Order.id order → row = order.
Proof.
  induction table as [|x table IH]; cbn; [tauto|].
  intros Hnd Ho Hr Hid. apply NoDup_cons in Hnd as [Hnotin Hnd].
  assert (∀ o, In o table → Order.id o ∈ Order.id <$> table) as Hmem.
  { intros o Hin. apply list_elem_of_fmap. exists o. split; [reflexivity|].
    apply list_elem_of_In, Hin. }
  destruct Ho as [->|Ho], Hr as [->|Hr].
  - reflexivity.
  - exfalso. apply Hnotin. rewrite <- Hid. apply Hmem, Hr.
  - exfalso. apply Hnotin. rewrite Hid. apply Hmem, Ho.
  - apply IH; assumption.
Qed.

Lemma settled_table_rows order amount date_time table :
  NoDup (Order.id <$> table) → In order table →
  ∀ i row, table !! i = Some row →
    (row = order →
     settled_table order amount date_time table !! i
     = Some (OrderCallback.set_billed order (Some amount) (Some date_time)))
    ∧ (row ≠ order →
       settled_table order amount date_time table !! i = Some row).
Proof.
  intros Hnd Hin i row Hi. unfold settled_table.
  rewrite list_lookup_fmap, Hi. cbn.
  assert (In row table) as Hrow
    by (apply list_elem_of_In, list_elem_of_lookup; eauto).
  destruct (Order.id row =? Order.id order) eqn:E.
  - apply Z.eqb_eq in E.
    assert (row = order) by (eapply unique_row_by_id; eassumption).
    split; [reflexivity|congruence].
  - apply Z.eqb_neq in E. split; [intros ->; congruence|reflexivity].
Qed.

(** X15. A settlement callback that matches an order rewrites that row
    and nothing else: the order table keeps its length and order, every
    other order is untouched, the matched order keeps its primary key,
    contact data, order total and transaction id, and workshops, rates,
    order items, session, messages, log and outbox are as before. *)
Theorem OrderCallback_post_frame request w unique_id amount date_time order :
  orders_keyed w →
  callback_fields request unique_id amount date_time →
  In order (order_table (db w)) →
  Order.transaction_id order = unique_id →
  let run := OrderCallback.post request w in
  let billed := OrderCallback.set_billed order (Some amount) (Some date_time) in
  ∃ table,
    run.2 = with_orders w table
    ∧ length table = length (order_table (db w))
    ∧ (∀ i row, order_table (db w) !! i = Some row →
         (row = order → table !! i = Some billed)
         ∧ (row ≠ order → table !! i = Some row))
    ∧ Order.id billed = Order.id order
    ∧ Order.contact_name billed = Order.contact_name order
    ∧ Order.contact_email billed = Order.contact_email order
    ∧ Order.order_total billed = Order.order_total order
    ∧ Order.transaction_id billed = Order.transaction_id order.
Proof.
  intros [Hpk Htid] Hfields Hin Hu run billed. subst unique_id.
  pose proof (matching_unique _ _ Htid Hin) as Hmatch.
  subst run. rewrite (callback_settles _ _ _ _ _ _ Hfields Hmatch). cbn [snd].
  eexists. split; [reflexivity|]. split; [|split].
  - unfold settled_table. apply length_fmap.
  - apply settled_table_rows; assumption.
  - repeat split.
Qed.

Lemma sample_orders_keyed : orders_keyed (Sample.world ∅).
Proof. split; apply (bool_decide_unpack _); vm_compute; exact I. Defined.

Lemma sample_settled_fields :
  callback_fields Sample.settled "uuid-1" "100.00" "2024-05-01 10:00:00".
Proof. repeat split; vm_compute; reflexivity. Defined.

Lemma OrderCallback_post_frame_witness :
  let w := Sample.world ∅ in
  let run := OrderCallback.post Sample.settled w in
  let billed :=
    OrderCallback.set_billed Sample.first_order (Some "100.00")
      (Some "2024-05-01 10:00:00") in
  ∃ table,
    run.2 = with_orders w table
    ∧ length table = length (order_table (db w))
    ∧ (∀ i row, order_table (db w) !! i = Some row →
         (row = Sample.first_order → table !! i = Some billed)
         ∧ (row ≠ Sample.first_order → table !! i = Some row))
    ∧ Order.id billed = Order.id Sample.first_order
    ∧ Order.contact_name billed = Order.contact_name Sample.first_order
    ∧ Order.contact_email billed = Order.contact_email Sample.first_order
    ∧ Order.order_total billed = Order.order_total Sample.first_order
    ∧ Order.transaction_id billed = Order.transaction_id Sample.first_order.
Proof.
  apply (OrderCallback_post_frame Sample.settled (Sample.world ∅) "uuid-1"
           "100.00" "2024-05-01 10:00:00" Sample.first_order).
  - exact sample_orders_keyed.
  - exact sample_settled_fields.
  - left. reflexivity.
  - reflexivity.
Defined.

Lemma settled_table_keys order amount date_time table :
  NoDup (Order.id <$> table) → In order table →
  Order.id <$> settled_table order amount date_time table = Order.id <$> table
  ∧ Order.transaction_id <$> settled_table order amount date_time table
    = Order.transaction_id <$> table.
Proof.
  intros Hnd Hin. unfold settled_table. rewrite <- !list_fmap_compose.
  split; apply list_fmap_ext; intros i row Hi; cbn;
    (assert (In row table) as Hrow
       by (apply list_elem_of_In, list_elem_of_lookup; eauto));
    destruct (Order.id row =? Order.id order) eqn:E; try reflexivity;
    apply Z.eqb_eq in E;
    rewrite (unique_row_by_id _ _ _ Hnd Hin Hrow E); reflexivity.
Qed.

Lemma settled_table_twice order a1 t1 a2 t2 table :
  settled_table (OrderCallback.set_billed order (Some a1) (Some t1)) a2 t2
    (settled_table order a1 t1 table)
  = settled_table order a2 t2 table.
Proof.
  unfold settled_table. rewrite <- list_fmap_compose.
  apply list_fmap_ext. intros i row Hi. cbn.
  destruct (Order.id row =? Order.id order) eqn:E; cbn.
  - rewrite Z.eqb_refl. reflexivity.
  - rewrite E. reflexivity.
Qed.

(** X16. The callback does not check whether an order is already
    settled: of two callbacks for the same order the later one wins.
    Both are answered with 200, and the state after both is the state
    the second alone would have produced; repeating a callback changes
    nothing further. *)
Theorem OrderCallback_post_last_wins first second w unique_id a1 t1 a2 t2
    order :
  orders_keyed w →
  callback_fields first unique_id a1 t1 →
  callback_fields second unique_id a2 t2 →
  In order (order_table (db w)) →
  Order.transaction_id order = unique_id →
  let w1 := (OrderCallback.post first w).2 in
  (OrderCallback.post first w).1 = Return (HttpResponse EmptyString 200)
  ∧ OrderCallback.post second w1
    = (Return (HttpResponse EmptyString 200), (OrderCallback.post second w).2)
  ∧ In (OrderCallback.set_billed order (Some a2) (Some t2))
       (order_table (db (OrderCallback.post second w1).2)).
Proof.
  intros [Hpk Htid] Hf1 Hf2 Hin Hu w1. subst unique_id.
  pose proof (matching_unique _ _ Htid Hin) as Hmatch.
  pose proof (callback_settles _ _ _ _ _ _ Hf1 Hmatch) as Hrun1.
  pose proof (callback_settles _ _ _ _ _ _ Hf2 Hmatch) as Hrun2.
  set (billed1 := OrderCallback.set_billed order (Some a1) (Some t1)).
  assert (w1 = with_orders w (settled_table order a1 t1 (order_table (db w))))
    as Hw1 by (subst w1; rewrite Hrun1; reflexivity).
  destruct (settled_table_keys order a1 t1 _ Hpk Hin) as [_ Htids].
  assert (In billed1 (order_table (db w1))) as Hin1.
  { rewrite Hw1. cbn. unfold settled_table. apply in_map_iff.
    exists order. split; [|exact Hin]. rewrite Z.eqb_refl. reflexivity. }
  assert (OrderCallback.matching (Order.transaction_id order) (db w1)
          = [billed1]) as Hmatch1.
  { apply (matching_unique (db w1) billed1); [|exact Hin1].
    rewrite Hw1. cbn. rewrite Htids. exact Htid. }
  pose proof (callback_settles second w1 _ a2 t2 billed1 Hf2 Hmatch1) as Hrun12.
  assert (with_orders w1 (settled_table billed1 a2 t2 (order_table (db w1)))
          = with_orders w (settled_table order a2 t2 (order_table (db w))))
    as Hsame.
  { rewrite Hw1. unfold with_orders.
    cbn [db session messages logger outbox workshop_table rate_table
         order_table orderitem_table].
    subst billed1. rewrite settled_table_twice. reflexivity. }
  split; [rewrite Hrun1; reflexivity|]. split.
  - rewrite Hrun12, Hrun2, Hsame. reflexivity.
  - rewrite Hrun12, Hsame. cbn. unfold settled_table. apply in_map_iff.
    exists order. split; [|exact Hin]. rewrite Z.eqb_refl. reflexivity.
Qed.

Lemma OrderCallback_post_last_wins_witness :
  let second :=
    Sample.callback [("unique_id", "uuid-1"); ("amount", "90.00");
                     ("date_time", "2024-05-02 09:00:00")] "corrected" in
  let w := Sample.world ∅ in
  let w1 := (OrderCallback.post Sample.settled w).2 in
  (OrderCallback.post Sample.settled w).1
  = Return (HttpResponse EmptyString 200)
  ∧ OrderCallback.post second w1
    = (Return (HttpResponse EmptyString 200), (OrderCallback.post second w).2)
  ∧ In (OrderCallback.set_billed Sample.first_order (Some "90.00")
          (Some "2024-05-02 09:00:00"))
       (order_table (db (OrderCallback.post second w1).2)).
Proof.
  apply (OrderCallback_post_last_wins Sample.settled
           (Sample.callback [("unique_id", "uuid-1"); ("amount", "90.00");
                             ("date_time", "2024-05-02 09:00:00")] "corrected")
           (Sample.world ∅) "uuid-1" "100.00" "2024-05-01 10:00:00"
           "90.00" "2024-05-02 09:00:00" Sample.first_order).
  - exact sample_orders_keyed.
  - exact sample_settled_fields.
  - repeat split; vm_compute; reflexivity.
  - left. reflexivity.
  - reflexivity.
Defined.


(** ** The attendee form set *)

Lemma read_rows_run suborder tickets : ∀ i (w : World),
  (∀ j ticket, tickets !! j = Some ticket →
               posted_row suborder (i + j) ticket) →
  OrderDetailRows.read_rows suborder i (length tickets) w = (Return tickets, w).
Proof.
  induction tickets as [|ticket tickets IH]; intros i w Hrows; [reflexivity|].
  destruct (Hrows 0%nat ticket eq_refl) as ((rate & pk & Hrate & Hpk & Hid) & He & Hn).
  rewrite Nat.add_0_r in Hrate, He, Hn.
  cbn [length OrderDetailRows.read_rows].
  rewrite run_bind, (run_getitem_some _ _ _ _ Hrate). cbn beta iota.
  rewrite run_bind, (run_getitem_some _ _ _ _ He). cbn beta iota.
  rewrite run_bind, (run_getitem_some _ _ _ _ Hn). cbn beta iota.
  rewrite run_bind, (int_of_numeral _ _ _ Hpk). cbn beta iota.
  rewrite run_bind, IH.
  - cbn beta iota. rewrite run_mret. rewrite <- Hid.
    destruct ticket; reflexivity.
  - intros j t Hj. replace (S i + j)%nat with (i + S j)%nat by lia.
    apply Hrows. exact Hj.
Qed.

Lemma formset_valid_run suborder slug w order tickets :
  session w !! "order" = Some (SOrder order) →
  posted_rows suborder tickets →
  OrderDetailRows.formset_valid suborder slug w
  = (Return (HttpResponseRedirect (payments_confirm slug)),
     with_session w
       (<["order" := SOrder (<["tickets" := OTickets tickets]> order)]>
          (session w))).
Proof.
  intros Hs [(total & Htotal & Hcount) Hrows].
  unfold OrderDetailRows.formset_valid.
  rewrite run_bind, run_get_session. cbn beta iota.
  rewrite run_bind, run_get_order, Hs. cbn beta iota.
  rewrite run_bind, (run_getitem_some _ _ _ _ Htotal). cbn beta iota.
  rewrite run_bind, (int_of_numeral _ _ _ Hcount). cbn beta iota.
  replace (Z.to_nat (Z.of_N (N.of_nat (length tickets))))
    with (length tickets) by lia.
  rewrite run_bind, read_rows_run by exact Hrows.
  cbn beta iota zeta. rewrite run_bind, run_set_session. reflexivity.
Qed.

(** X18. When the attendee form set is valid, the view stores one ticket
    per posted row, in the order of the rows and with the row's rate,
    email and name, under 'tickets' of the session order, replacing any
    ticket list stored before; every other entry of the order, the
    order total included, stays as it was, and the response redirects to
    the confirmation page.  The number of rows is the posted
    form-TOTAL_FORMS; it is not compared with the quantities of the rate
    selection. *)
Theorem OrderDetail_formset_valid_stores_rows suborder slug w order tickets :
  session w !! "order" = Some (SOrder order) →
  posted_rows suborder tickets →
  let run := OrderDetailRows.formset_valid suborder slug w in
  ∃ order',
    run = (Return (HttpResponseRedirect (payments_confirm slug)),
           with_session w (<["order" := SOrder order']> (session w)))
    ∧ order' !! "tickets" = Some (OTickets tickets)
    ∧ ∀ key, key ≠ "tickets" → order' !! key = order !! key.
Proof.
  intros Hs Hrows run. subst run.
  rewrite (formset_valid_run _ _ _ _ _ Hs Hrows).
  eexists. split; [reflexivity|]. split.
  - apply lookup_insert_eq.
  - intros key Hkey. apply lookup_insert_ne. congruence.
Qed.

Lemma sample_rows_posted :
  posted_rows sample_rows [Sample.jane 10; Sample.joe 11].
Proof.
  split.
  - exists "2". split; vm_compute; reflexivity.
  - intros [|[|i]] ticket Hi; try discriminate Hi; injection Hi as <-.
    + split; [exists "10", 10%N|]; repeat split; vm_compute; reflexivity.
    + split; [exists "11", 11%N|]; repeat split; vm_compute; reflexivity.
Defined.

Lemma OrderDetail_formset_valid_stores_rows_witness :
  let w := Sample.too_many in
  let order := Sample.order_data "200.00" [Sample.jane 10; Sample.joe 10] in
  let run := OrderDetailRows.formset_valid sample_rows "intro-2024" w in
  ∃ order',
    run = (Return (HttpResponseRedirect (payments_confirm "intro-2024")),
           with_session w (<["order" := SOrder order']> (session w)))
    ∧ order' !! "tickets" = Some (OTickets [Sample.jane 10; Sample.joe 11])
    ∧ ∀ key, key ≠ "tickets" → order' !! key = order !! key.
Proof.
  apply (OrderDetail_formset_valid_stores_rows sample_rows "intro-2024"
           Sample.too_many
           (Sample.order_data "200.00" [Sample.jane 10; Sample.joe 10])
           [Sample.jane 10; Sample.joe 11]).
  - vm_compute. reflexivity.
  - exact sample_rows_posted.
Defined.

(** ** The checkout from selection to submission *)

(** X19. Rate selection, attendee form set and submission in sequence:
    the order committed at the end carries the total string the rate
    selection computed and the contact name and email posted with the
    selection, and has one order item per posted attendee row. *)
Theorem checkout_commits_selection_total env selection suborder slug uuid
    submit w object tickets email name :
  workshop_of w slug object →
  WorkshopDetail.is_valid env (db w) (order_form env selection w object) = true →
  POST selection !! "email" = Some email →
  POST selection !! "name" = Some name →
  posted_rows suborder tickets →
  let w1 := (WorkshopDetail.post env selection slug w).2 in
  let w2 := (OrderDetailRows.formset_valid suborder slug w1).2 in
  passes_capacity_check env w2 tickets →
  ∃ skeleton total,
    session w1 !! "order" = Some (SOrder skeleton)
    ∧ skeleton !! "order_total" = Some (OStr (Decimal.to_string total))
    ∧ let run := SubmitOrder.post env uuid submit w2 in
      let order :=
        Order.mk (SubmitOrder.next_id (order_table (db w))) email name
          (Decimal.to_string total) uuid None None in
      order_table (db run.2) = order_table (db w) ++ [order]
      ∧ orderitem_table (db run.2)
        = orderitem_table (db w) ++ new_items order tickets
      ∧ session run.2 !! "order" = None.
Proof.
  intros Hobj Hvalid Hemail Hname Hrows w1 w2 Hpass.
  destruct (form_valid_skeleton env selection slug w object Hobj Hvalid)
    as (skeleton & total & Hrun1 & _ & Htotal & Hcopy).
  assert (w1 = with_session w (<["order" := SOrder skeleton]> (session w)))
    as Hw1 by (subst w1; rewrite Hrun1; reflexivity).
  assert (session w1 !! "order" = Some (SOrder skeleton)) as Hs1
    by (rewrite Hw1; apply lookup_insert_eq).
  assert (w2 = with_session w1
                 (<["order" := SOrder (<["tickets" := OTickets tickets]> skeleton)]>
                    (session w1))) as Hw2.
  { subst w2. rewrite (formset_valid_run _ _ _ _ _ Hs1 Hrows). reflexivity. }
  exists skeleton, total. split; [exact Hs1|]. split; [exact Htotal|].
  assert (session_order w2 (<["tickets" := OTickets tickets]> skeleton) tickets
            email name (Decimal.to_string total)) as Horder.
  { unfold session_order. rewrite Hw2. cbn [session with_session].
    split; [apply lookup_insert_eq|]. split; [apply lookup_insert_eq|].
    rewrite !lookup_insert_ne by discriminate.
    rewrite !Hcopy by (intros [H|[H|H]]; discriminate H).
    rewrite Hemail, Hname. repeat split. exact Htotal. }
  destruct (post_success env uuid submit w2 _ _ _ _ _ Horder Hpass)
    as (payload & _ & Hrun).
  cbn zeta. rewrite Hrun. cbn [snd].
  assert (db w2 = db w) as Hdb by (rewrite Hw2, Hw1; reflexivity).
  unfold with_sent, committed, new_order. cbn. rewrite Hdb.
  repeat split. apply lookup_delete_eq.
Qed.

Lemma checkout_commits_selection_total_witness :
  let w := Sample.world ∅ in
  let w1 := (WorkshopDetail.post Sample.env Sample.selection "intro-2024" w).2 in
  let w2 := (OrderDetailRows.formset_valid sample_rows "intro-2024" w1).2 in
  ∃ skeleton total,
    session w1 !! "order" = Some (SOrder skeleton)
    ∧ skeleton !! "order_total" = Some (OStr (Decimal.to_string total))
    ∧ let run := SubmitOrder.post Sample.env "uuid-2" Sample.request w2 in
      let order :=
        Order.mk (SubmitOrder.next_id (order_table (db w)))
          "jane@example.org" "Jane Doe" (Decimal.to_string total) "uuid-2"
          None None in
      order_table (db run.2) = order_table (db w) ++ [order]
      ∧ orderitem_table (db run.2)
        = orderitem_table (db w)
          ++ new_items order [Sample.jane 10; Sample.joe 11]
      ∧ session run.2 !! "order" = None.
Proof.
  apply (checkout_commits_selection_total Sample.env Sample.selection
           sample_rows "intro-2024" "uuid-2" Sample.request (Sample.world ∅)
           Sample.intro [Sample.jane 10; Sample.joe 11]
           "jane@example.org" "Jane Doe").
  - exact sample_intro_workshop.
  - exact sample_selection_valid.
  - vm_compute. reflexivity.
  - vm_compute. reflexivity.
  - exact sample_rows_posted.
  - split.
    + repeat constructor;
        [exists Sample.standard|exists Sample.student]; reflexivity.
    + intros t rate [<-|[<-|[]]] Hres; unfold resolves in Hres;
        vm_compute in Hres; injection Hres as <-; vm_compute; discriminate.
Defined.

(** Three tickets selected and paid for, two attendees registered: the
    order is committed with the total of three. *)
Example checkout_run :
  let w1 := (WorkshopDetail.post Sample.env Sample.selection "intro-2024"
               (Sample.world ∅)).2 in
  let w2 := (OrderDetailRows.formset_valid sample_rows "intro-2024" w1).2 in
  let run := SubmitOrder.post Sample.env "uuid-2" Sample.request w2 in
  run.1 = Return (HttpResponse "<html>pay</html>" 200)
  ∧ order_table (db run.2)
    = [Sample.first_order;
       Order.mk 2 "jane@example.org" "Jane Doe" "199.00" "uuid-2" None None]
  ∧ length (orderitem_table (db run.2)) = 3%nat.
Proof. vm_compute. repeat split. Qed.

(** ** The rates of the page and of the form *)

Lemma WorkshopDetail_get_world env request slug w :
  (WorkshopDetail.get env request slug w).2
  = with_session w
      (<["discount_code" := WorkshopDetail.rate_parameter request]> (session w)).
Proof.
  unfold WorkshopDetail.get. rewrite run_bind. cbn. rewrite run_bind. cbn.
  rewrite run_bind.
  destruct (WorkshopDetail.get_object slug _) as [[object|e] w'] eqn:Hobj;
    apply get_object_world in Hobj; subst w'; [|reflexivity].
  rewrite run_bind.
  destruct (get_context_data_world env object
              (mkWorld (db w)
                 (<["discount_code" := WorkshopDetail.rate_parameter request]>
                    (session w))
                 (messages w) (logger w) (outbox w))) as [context ->].
  destruct (negb (is_authenticated request) && Workshop.draft object);
    reflexivity.
Qed.

(** X20. The rates a GET of the rate selector lists are the workshop's
    rates filtered by the 'rate' parameter of that very request (by None
    when it is absent), every one of them listed whether sold out or
    not; and the form a following POST validates is built over the same
    rates, since it reads the discount code the GET left in the
    session. *)
Theorem rate_selector_offers_same_rates env request post_request slug w
    object :
  workshop_of w slug object →
  negb (is_authenticated request) && Workshop.draft object = false →
  let offered :=
    filter_rates env (db w) object (WorkshopDetail.rate_parameter request) in
  let run := WorkshopDetail.get env request slug w in
  (∃ workshop purchasable,
     run.1 = Return
               (TemplateResponse
                  (WorkshopDetailContext workshop
                     ((λ rate, mkRateRow (Rate.name rate) (Rate.price rate)
                                 (WorkshopDetail.sold_out env (db w) rate))
                        <$> offered)
                     purchasable)))
  ∧ (WorkshopDetail.get_form env post_request object run.2).1
    = Return (mkForm (POST post_request) offered).
Proof.
  intros Hobj Hshow offered run. split.
  - subst run. rewrite (WorkshopDetail_get_page _ _ _ _ _ Hobj Hshow).
    do 2 eexists. reflexivity.
  - subst run. rewrite (WorkshopDetail_get_world env request slug w).
    unfold WorkshopDetail.get_form. mrun.
    cbn [session db with_session]. rewrite lookup_insert_eq. reflexivity.
Qed.

Lemma rate_selector_offers_same_rates_witness :
  let request := mkRequest {["rate" := "early"]} ∅ EmptyString false in
  let w := Sample.world ∅ in
  let offered :=
    filter_rates Sample.env (db w) Sample.intro
      (WorkshopDetail.rate_parameter request) in
  let run := WorkshopDetail.get Sample.env request "intro-2024" w in
  (∃ workshop purchasable,
     run.1 = Return
               (TemplateResponse
                  (WorkshopDetailContext workshop
                     ((λ rate, mkRateRow (Rate.name rate) (Rate.price rate)
                                 (WorkshopDetail.sold_out Sample.env (db w) rate))
                        <$> offered)
                     purchasable)))
  ∧ (WorkshopDetail.get_form Sample.env Sample.selection Sample.intro run.2).1
    = Return (mkForm (POST Sample.selection) offered).
Proof.
  apply (rate_selector_offers_same_rates Sample.env
           (mkRequest {["rate" := "early"]} ∅ EmptyString false)
           Sample.selection "intro-2024" (Sample.world ∅) Sample.intro).
  - exact sample_intro_workshop.
  - reflexivity.
Defined.

(** ** The attendee page after a rate selection *)

Lemma zip_rates_replicate (w : World) rate n rest zipped :
  Rate_objects_get (Rate.id rate) w = (Return rate, w) →
  OrderDetail.zip_rates rest w = (Return zipped, w) →
  OrderDetail.zip_rates (replicate n (Rate.id rate) ++ rest) w
  = (Return (replicate n rate ++ zipped), w).
Proof.
  intros Hget Hrest. induction n as [|n IH]; [exact Hrest|].
  cbn. rewrite run_bind, Hget. cbn beta iota.
  rewrite run_bind, IH. reflexivity.
Qed.

Lemma zip_rates_expected (w : World) form :
  (∀ rate, In rate (rate_set form) →
           Rate_objects_get (Rate.id rate) w = (Return rate, w)) →
  OrderDetail.zip_rates (expected_initial form) w
  = (Return (expected_zipped form), w).
Proof.
  unfold expected_initial, expected_zipped.
  induction (rate_set form) as [|rate rates IH]; intros Hget; [reflexivity|].
  cbn [flat_map]. apply zip_rates_replicate.
  - apply Hget. left. reflexivity.
  - apply IH. intros r Hr. apply Hget. right. exact Hr.
Qed.

(** X21. After a valid rate selection (rates not named 'workshop',
    'rates' or 'order_total', and being rows of the database), a GET of
    the attendee page renders one subform per requested ticket, each
    paired with the row of its rate, in the order of the offered rates,
    together with the workshop of the slug; nothing is changed. *)
Theorem attendee_page_after_selection env selection request slug w object :
  workshop_of w slug object →
  WorkshopDetail.is_valid env (db w) (order_form env selection w object) = true →
  (∀ rate, In rate (rate_set (order_form env selection w object)) →
           ¬ reserved_key (Rate.name rate)
           ∧ Rate_objects_get (Rate.id rate) w = (Return rate, w)) →
  let w1 := (WorkshopDetail.post env selection slug w).2 in
  OrderDetail.get request slug w1
  = (Return (TemplateResponse
               (OrderDetailContext
                  (expected_zipped (order_form env selection w object))
                  object)), w1).
Proof.
  intros Hobj Hvalid Hrates w1.
  destruct (form_valid_skeleton env selection slug w object Hobj Hvalid)
    as (order & total & Hrun & Hrates' & _ & Hcopy).
  assert (w1 = with_session w (<["order" := SOrder order]> (session w)))
    as Hw1 by (subst w1; rewrite Hrun; reflexivity).
  clearbody w1. subst w1.
  set (w1 := with_session w (<["order" := SOrder order]> (session w))).
  assert (session w1 !! "order" = Some (SOrder order)) as Hs1
    by apply lookup_insert_eq.
  assert (OrderDetail.get_initial w1
          = (Return (expected_initial (order_form env selection w object)), w1))
    as Hinitial.
  { unfold OrderDetail.get_initial.
    rewrite run_bind, run_get_session. cbn beta iota.
    rewrite run_bind, run_get_order, Hs1. cbn beta iota.
    rewrite run_bind, run_get_rates, Hrates'. cbn beta iota.
    apply (initial_of_run order (POST selection)).
    pose proof (is_valid_fields _ _ _ Hvalid) as Hfields.
    rewrite Forall_forall in Hfields. apply Forall_forall.
    intros rate Hin. destruct (Hfields rate Hin) as (str & n & Hstr & Hn).
    exists str, n. split; [exact Hstr|]. split; [exact Hn|].
    rewrite Hcopy by (apply Hrates, list_elem_of_In, Hin).
    cbn [data order_form] in Hstr. rewrite Hstr. reflexivity. }
  unfold OrderDetail.get, SessionConfirmMixin.get.
  rewrite run_bind, run_get_session. cbn beta iota. rewrite Hs1.
  unfold OrderDetail.super_get. rewrite run_bind, Hinitial. cbn beta iota.
  unfold OrderDetail.get_context_data.
  rewrite run_bind, run_bind, (zip_rates_expected w1).
  - cbn beta iota. unfold Workshop_objects_get.
    rewrite run_bind, run_bind, run_get_db. cbn beta iota.
    unfold objects_get. change (db w1) with (db w).
    unfold workshop_of in Hobj. rewrite Hobj. reflexivity.
  - intros rate Hin. eapply Rate_objects_get_table; [|apply Hrates, Hin].
    reflexivity.
Qed.

Lemma attendee_page_after_selection_witness :
  let w1 := (WorkshopDetail.post Sample.env Sample.selection "intro-2024"
               (Sample.world ∅)).2 in
  OrderDetail.get Sample.request "intro-2024" w1
  = (Return (TemplateResponse
               (OrderDetailContext
                  (expected_zipped
                     (order_form Sample.env Sample.selection (Sample.world ∅)
                        Sample.intro))
                  Sample.intro)), w1).
Proof.
  apply (attendee_page_after_selection Sample.env Sample.selection
           Sample.request "intro-2024" (Sample.world ∅) Sample.intro
           sample_intro_workshop sample_selection_valid).
  intros rate Hin. vm_compute in Hin.
  destruct Hin as [<-|[<-|[]]];
    (split; [intros [H|[H|H]]; discriminate H|reflexivity]).
Defined.
